(** * v0id-mind: a shallow embedding of the cognitive engine of [src/app.js]

    The engine is one React component whose periodic callback (the
    scheduler cycle) reads a snapshot of its stores and queues functional
    updates on them.  The embedding follows that shape:

    - JavaScript strings are sequences of code units; the model keeps the
      code units below 256 (Rocq's [ascii]), on which [toLowerCase], [trim],
      [includes], [substring] and [split] are written out;
    - JavaScript numbers are modelled by exact rationals ([Q]); a sum that
      the code keeps "around 1.0" is therefore exactly 1 in the model;
    - plain objects used as maps are association lists in the order in which
      [for ... in] and [Object.keys] enumerate the own keys;
    - [Math.random()], [Date.now()] and the replies of the text-generation
      service are read from an oracle record, one field per draw;
    - the callback reads the stores from its closure (the snapshot of the
      render that installed the timer) and changes them through functional
      updates, which the model applies to the live stores where the source
      issues them; arrays the source sorts in place are shared between the
      snapshot and the live stores, and the model rearranges the live one;
    - the text of the prompts and the stores that only feed prompts
      (insights, dream journal, self-model, environment readings) are left
      out of the stores of the cycle; what the prompts are computed from --
      the external stimulus, the ranking of the memories, the associative
      walk of a dream -- is modelled on its own, after the cycle. *)

From Stdlib Require Import ZArith QArith Qminmax Qround Lqa Lia.
From Stdlib Require Import List String Ascii Bool PeanoNat.
From Stdlib Require Import Numbers.DecimalString.
Import ListNotations.

Set Warnings "-register-all".

Close Scope Q_scope.
Open Scope bool_scope.
Open Scope string_scope.
Open Scope nat_scope.

(** ** JavaScript strings *)

Module JsString.

Definition code (c : ascii) : N := N_of_ascii c.

Definition in_range (lo hi : N) (c : ascii) : bool :=
  ((lo <=? code c) && (code c <=? hi))%N.

(** [\w] of a regular expression without the unicode flag: [A-Za-z0-9_]. *)
Definition is_word_char (c : ascii) : bool :=
  in_range 48 57 c || in_range 65 90 c || in_range 97 122 c
  || (code c =? 95)%N.

(** [toLowerCase] on code units below 256: A-Z and the Latin-1 capitals
    U+00C0..U+00DE (U+00D7, the multiplication sign, apart) move up by 32. *)
Definition lower_char (c : ascii) : ascii :=
  if in_range 65 90 c || (in_range 192 222 c && negb (code c =? 215)%N)
  then ascii_of_N (code c + 32) else c.

Fixpoint toLowerCase (s : string) : string :=
  match s with
  | EmptyString => EmptyString
  | String c s' => String (lower_char c) (toLowerCase s')
  end.

(** White space and line terminators below 256: TAB, LF, VT, FF, CR, SP and
    NBSP. *)
Definition is_space (c : ascii) : bool :=
  in_range 9 13 c || (code c =? 32)%N || (code c =? 160)%N.

Fixpoint trimStart (s : string) : string :=
  match s with
  | EmptyString => EmptyString
  | String c s' => if is_space c then trimStart s' else s
  end.

Fixpoint trimEnd (s : string) : string :=
  match s with
  | EmptyString => EmptyString
  | String c s' =>
      let r := trimEnd s' in
      if is_space c && (r =? "")%string then "" else String c r
  end.

Definition trim (s : string) : string := trimEnd (trimStart s).

(** [s.includes(sub)]: [sub] occurs in [s] as a contiguous substring. *)
Fixpoint includes (s sub : string) : bool :=
  prefix sub s
  || match s with
     | EmptyString => false
     | String _ s' => includes s' sub
     end.

(** [s.substring(0, k)]: the first [k] code units, all of [s] when it is
    shorter. *)
Definition substring0 (k : nat) (s : string) : string := substring 0 k s.

(** [s.endsWith(t)]. *)
Fixpoint endsWith (s t : string) : bool :=
  (s =? t)%string
  || match s with
     | EmptyString => false
     | String _ s' => endsWith s' t
     end.

(** [s.split(/\W+/)]: the pieces between the maximal runs of non-word code
    units; a run at either end leaves an empty piece there, and the empty
    string splits into one empty piece. [in_sep] tells that the code unit
    before was part of a run. *)
Fixpoint split_W_from (in_sep : bool) (s : string) : list string :=
  match s with
  | EmptyString => [""]
  | String c s' =>
      if is_word_char c then
        match split_W_from false s' with
        | w :: ws => String c w :: ws
        | [] => [String c ""]
        end
      else if in_sep then split_W_from true s'
      else "" :: split_W_from true s'
  end.

Definition split_W (s : string) : list string := split_W_from false s.

(** [s.split(d)] for a separator of one code unit. *)
Fixpoint split_char (d : ascii) (s : string) : list string :=
  match s with
  | EmptyString => [""]
  | String c s' =>
      if Ascii.eqb c d then "" :: split_char d s'
      else match split_char d s' with
           | w :: ws => String c w :: ws
           | [] => [String c ""]
           end
  end.

(** [s.replace(d, r)] for a pattern of one code unit: the first occurrence
    only. *)
Fixpoint replace_first (d : ascii) (r : string) (s : string) : string :=
  match s with
  | EmptyString => EmptyString
  | String c s' =>
      if Ascii.eqb c d then r ++ s' else String c (replace_first d r s')
  end.

(** [arr.join(sep)]. *)
Fixpoint join (sep : string) (l : list string) : string :=
  match l with
  | [] => ""
  | [x] => x
  | x :: rest => x ++ sep ++ join sep rest
  end.

(** The words of a fragment that the stores keep:
    [text.toLowerCase().split(/\W+/).filter(w => w.length > 2)]. *)
Definition content_words (text : string) : list string :=
  filter (fun w => (2 <? String.length w)%nat) (split_W (toLowerCase text)).

(** Decimal rendering of a non-negative integer, as template literals and
    [toString] give it. *)
Definition of_nat (n : nat) : string := NilZero.string_of_uint (Nat.to_uint n).

End JsString.

Import JsString.

(** ** Data model *)

(** The fixed emotion set, in the order of the keys of the gradient object. *)
Inductive Emotion := curiosity | calm | anxiety | reflective | dreaming.

Definition emotions : list Emotion :=
  [curiosity; calm; anxiety; reflective; dreaming].

(** [emotionalGradient]: one weight per emotion. *)
Record Gradient := mkGradient {
  g_curiosity : Q;
  g_calm : Q;
  g_anxiety : Q;
  g_reflective : Q;
  g_dreaming : Q
}.

Definition weight (g : Gradient) (e : Emotion) : Q :=
  match e with
  | curiosity => g_curiosity g
  | calm => g_calm g
  | anxiety => g_anxiety g
  | reflective => g_reflective g
  | dreaming => g_dreaming g
  end.

Definition set_weight (g : Gradient) (e : Emotion) (w : Q) : Gradient :=
  match e with
  | curiosity => mkGradient w (g_calm g) (g_anxiety g) (g_reflective g) (g_dreaming g)
  | calm => mkGradient (g_curiosity g) w (g_anxiety g) (g_reflective g) (g_dreaming g)
  | anxiety => mkGradient (g_curiosity g) (g_calm g) w (g_reflective g) (g_dreaming g)
  | reflective => mkGradient (g_curiosity g) (g_calm g) (g_anxiety g) w (g_dreaming g)
  | dreaming => mkGradient (g_curiosity g) (g_calm g) (g_anxiety g) (g_reflective g) w
  end.

(** A fragment of the Memory Stack. [emotion] is the upper-case tag the code
    stores, [source] the optional tag of the producing branch. *)
Record MemoryFragment := mkFragment {
  text : string;
  emotion : Emotion;
  strength : Q;
  timestamp : Z;
  source : option string
}.

Definition MemoryStack := list MemoryFragment.

(** ** The similarity gate: [isThoughtTooSimilar] (app.js 82-105) *)

(** [Math.ceil(n * 0.6)] for a string length [n]. The product is computed in
    binary floating point; for every length a string can have it rounds to
    the exact value when 3n/5 is an integer and stays strictly between the
    neighbouring integers otherwise, so the result is the ceiling of 3n/5. *)
Definition ceil_60_percent (n : nat) : nat := (3 * n + 4) / 5.

Definition similar_to (newThoughtLower : string) (mem : MemoryFragment) : bool :=
  let existingMemLower := trim (toLowerCase (text mem)) in
  let shorterLength :=
    Nat.min (String.length newThoughtLower) (String.length existingMemLower) in
  if shorterLength <? 5 then false
  else if (0 <? String.length existingMemLower)
          && includes newThoughtLower
               (substring0 (ceil_60_percent (String.length existingMemLower))
                           existingMemLower)
  then true
  else if (0 <? String.length newThoughtLower)
          && includes existingMemLower
               (substring0 (ceil_60_percent (String.length newThoughtLower))
                           newThoughtLower)
  then true
  else false.

Definition isThoughtTooSimilar (newThought : string) (memoryStack : MemoryStack)
  : bool :=
  let newThoughtLower := trim (toLowerCase newThought) in
  existsb (similar_to newThoughtLower) (firstn 3 memoryStack).

(** The rule in the words of the specification (and of the comment above the
    code): two strings are similar when one of them contains a leading
    substring of the other whose length is at least 60% of the length of the
    shorter of the two, comparisons with a shorter string under 5 characters
    being ignored. *)
Definition covers_60_percent (k shorter : nat) : bool := 3 * shorter <=? 5 * k.

Definition contains_leading_part (a b : string) (shorter : nat) : bool :=
  existsb (fun k => covers_60_percent k shorter && includes a (substring0 k b))
          (seq 0 (S (String.length b))).

Definition spec_similar (a b : string) : bool :=
  let shorter := Nat.min (String.length a) (String.length b) in
  (5 <=? shorter)
  && (contains_leading_part a b shorter || contains_leading_part b a shorter).

Definition spec_isTooSimilar (candidate : string) (stack : MemoryStack) : bool :=
  let c := trim (toLowerCase candidate) in
  existsb (fun mem => spec_similar c (trim (toLowerCase (text mem))))
          (firstn 3 stack).

(** A fragment with only its text given, as the examples of the
    specification write it. *)
Definition fragment_of_text (t : string) : MemoryFragment :=
  mkFragment t calm 1%Q 0%Z None.

(** ** Plain objects used as maps *)

Module JsObject.

(** The own properties of an object, in enumeration order: keys that are
    array indices first, in ascending numeric order, then the other keys in
    the order in which they were created. *)
Definition Obj (V : Type) := list (string * V).

Definition keys {V} (o : Obj V) : list string := map fst o.

Fixpoint lookup {V} (k : string) (o : Obj V) : option V :=
  match o with
  | [] => None
  | (k', v) :: rest => if (k =? k')%string then Some v else lookup k rest
  end.

Definition is_digit (c : ascii) : bool := in_range 48 57 c.

Fixpoint digits_value (acc : N) (s : string) : option N :=
  match s with
  | EmptyString => Some acc
  | String c s' =>
      if is_digit c then digits_value (acc * 10 + (code c - 48))%N s'
      else None
  end.

(** A key is an array index when it is the canonical decimal form of an
    integer below 2^32 - 1. *)
Definition array_index (k : string) : option N :=
  match k with
  | EmptyString => None
  | String c rest =>
      if (code c =? 48)%N && negb (rest =? "")%string then None
      else match digits_value 0 k with
           | Some n => if (n <? 4294967295)%N then Some n else None
           | None => None
           end
  end.

Fixpoint replace_value {V} (k : string) (v : V) (o : Obj V) : Obj V :=
  match o with
  | [] => []
  | (k', v') :: rest =>
      if (k =? k')%string then (k', v) :: rest
      else (k', v') :: replace_value k v rest
  end.

(** Where a new index key goes: before the first key that is not an index
    or is a larger index. *)
Fixpoint insert_index {V} (n : N) (k : string) (v : V) (o : Obj V) : Obj V :=
  match o with
  | [] => [(k, v)]
  | (k', v') :: rest =>
      match array_index k' with
      | Some n' =>
          if (n <? n')%N then (k, v) :: o
          else (k', v') :: insert_index n k v rest
      | None => (k, v) :: o
      end
  end.

(** [o[k] = v]. *)
Definition set {V} (k : string) (v : V) (o : Obj V) : Obj V :=
  match lookup k o with
  | Some _ => replace_value k v o
  | None =>
      match array_index k with
      | Some n => insert_index n k v o
      | None => (o ++ [(k, v)])%list
      end
  end.

(** The names an object literal inherits from [Object.prototype]; reading
    one of them that is not an own key gives a value that is truthy and is
    not an array. *)
Definition prototype_names : list string :=
  ["constructor"; "__defineGetter__"; "__defineSetter__"; "hasOwnProperty";
   "__lookupGetter__"; "__lookupSetter__"; "isPrototypeOf";
   "propertyIsEnumerable"; "toString"; "valueOf"; "__proto__";
   "toLocaleString"].

Definition inherited (k : string) : bool :=
  existsb (String.eqb k) prototype_names.

(** What [o[k]] reads. *)
Inductive Slot (V : Type) :=
| Own (v : V)
| Inherited
| Absent.
Arguments Own {V} v.
Arguments Inherited {V}.
Arguments Absent {V}.

Definition read {V} (k : string) (o : Obj V) : Slot V :=
  match lookup k o with
  | Some v => Own v
  | None => if inherited k then Inherited else Absent
  end.

(** [!o[k]] when the own values are arrays, which are truthy. *)
Definition is_absent {V} (s : Slot V) : bool :=
  match s with
  | Absent => true
  | _ => false
  end.

End JsObject.

Import JsObject.

(** ** The text-generation collaborator: [callLLM] (app.js 4-79) *)

Module Llm.

(** A value that [response.json()] resolves to. A number is held by the
    rational value of the double it was parsed to. *)
Inductive JSON :=
| JNull
| JBool (b : bool)
| JNum (q : Q)
| JStr (s : string)
| JArr (items : list JSON)
| JObj (props : Obj JSON).

(** A value read from a parsed body; [None] is [undefined]. *)
Definition Value := option JSON.

(** A thrown exception or a promise rejection: an [Error] object. *)
Record Exn := mkExn { message : string }.

Definition TypeError (what : string) : Exn := mkExn what.

Inductive Completion (A : Type) :=
| Normal (a : A)
| Throw (e : Exn).
Arguments Normal {A} a.
Arguments Throw {A} e.

Definition bind {A B} (c : Completion A) (k : A -> Completion B)
  : Completion B :=
  match c with
  | Normal a => k a
  | Throw e => Throw e
  end.

(** [try { body } catch (e) { handler }]. *)
Definition try_catch {A} (body : Completion A) (handler : Exn -> Completion A)
  : Completion A :=
  match body with
  | Normal a => Normal a
  | Throw e => handler e
  end.

Declare Scope js_scope.
Delimit Scope js_scope with js.
Notation "x <- c ;; k" := (bind c (fun x => k))
  (at level 61, c at next level, right associativity) : js_scope.

(** The implicit conversions of the language on parsed values, which the
    source leaves to the runtime: [ToString] inside a template literal and
    the comparison [v > 0]. Either may throw. *)
Record Host := mkHost {
  ToString : JSON -> Completion string;
  GreaterThanZero : JSON -> Completion bool
}.

Inductive JsonOutcome :=
| JsonRejects (e : Exn)
| JsonResolves (v : JSON).

Record Response := mkResponse {
  ok : bool;
  status : nat;
  json : JsonOutcome
}.

Inductive FetchOutcome :=
| FetchRejects (e : Exn)
| FetchResolves (r : Response).

Definition await_fetch (f : FetchOutcome) : Completion Response :=
  match f with
  | FetchRejects e => Throw e
  | FetchResolves r => Normal r
  end.

Definition await_json (r : Response) : Completion JSON :=
  match json r with
  | JsonRejects e => Throw e
  | JsonResolves v => Normal v
  end.

Definition truthy (v : JSON) : bool :=
  match v with
  | JNull => false
  | JBool b => b
  | JNum q => negb (Qeq_bool q 0)
  | JStr s => negb (s =? "")%string
  | JArr _ | JObj _ => true
  end.

Definition truthy_value (v : Value) : bool :=
  match v with
  | None => false
  | Some x => truthy x
  end.

(** [v.name] for one of the names the source reads ([error],
    [generated_text]), neither of which a prototype defines. *)
Definition get (v : JSON) (name : string) : Completion Value :=
  match v with
  | JNull => Throw (TypeError "cannot read properties of null")
  | JObj props => Normal (lookup name props)
  | _ => Normal None
  end.

Definition get_value (v : Value) (name : string) : Completion Value :=
  match v with
  | None => Throw (TypeError "cannot read properties of undefined")
  | Some x => get x name
  end.

(** [v.length > 0]. *)
Definition length_positive (h : Host) (v : JSON) : Completion bool :=
  match v with
  | JNull => Throw (TypeError "cannot read properties of null")
  | JArr items => Normal (0 <? List.length items)
  | JStr s => Normal (0 <? String.length s)
  | JObj props =>
      match lookup "length" props with
      | Some x => GreaterThanZero h x
      | None => Normal false
      end
  | _ => Normal false
  end.

(** [v[0]]. *)
Definition first (v : JSON) : Completion Value :=
  match v with
  | JNull => Throw (TypeError "cannot read properties of null")
  | JArr items => Normal (hd_error items)
  | JStr (String c _) => Normal (Some (JStr (String c "")))
  | JObj props => Normal (lookup "0" props)
  | _ => Normal None
  end.

(** [v.includes("loading")]: the method of strings and of arrays; any other
    value has no callable [includes]. *)
Definition includes_loading (v : Value) : Completion bool :=
  match v with
  | None => Throw (TypeError "cannot read properties of undefined")
  | Some JNull => Throw (TypeError "cannot read properties of null")
  | Some (JStr s) => Normal (includes s "loading")
  | Some (JArr items) =>
      Normal (existsb (fun x => match x with
                                | JStr s => (s =? "loading")%string
                                | _ => false
                                end) items)
  | Some _ => Throw (TypeError "includes is not a function")
  end.

(** [s.replace(/<end_of_turn>|<eos>/g, '')]; [skip] counts the code units
    of a match still to be dropped. *)
Fixpoint strip_from (skip : nat) (s : string) : string :=
  match s with
  | EmptyString => EmptyString
  | String c s' =>
      match skip with
      | S k => strip_from k s'
      | O =>
          if prefix "<end_of_turn>" s then strip_from 12 s'
          else if prefix "<eos>" s then strip_from 4 s'
          else String c (strip_from 0 s')
      end
  end.

(** [v.replace(...)]: only a string has the method. *)
Definition replace_special_tokens (v : Value) : Completion string :=
  match v with
  | Some (JStr s) => Normal (strip_from 0 s)
  | _ => Throw (TypeError "replace is not a function")
  end.

Definition unauthorized_marker : string :=
  "(LLM Error: Hugging Face API Key Unauthorized (401). Please check your token and permissions.)".
Definition loading_marker : string :=
  "(LLM Error: Hugging Face model is loading. Please wait a moment and try again.)".
Definition unexpected_marker : string :=
  "(LLM Error: HF API returned unexpected response structure.)".
Definition network_marker : string :=
  "(LLM Error: Network issue or API call failed.)".

(** What a call leaves behind: the returned text and the last value given
    to [setLlmError] ([None] for [null]). *)
Definition Reply := (string * option string)%type.

Local Open Scope js_scope.

(** The [!response.ok] branch (lines 45-58). *)
Definition error_branch (h : Host) (response : Response) : Completion Reply :=
  errorData <- await_json response ;;
  err <- get errorData "error" ;;
  shown <- match err with
           | Some x => if truthy x then ToString h x
                       else Normal "Unknown error"
           | None => Normal "Unknown error"
           end ;;
  let errorMessage :=
    "(LLM Error: HF API returned " ++ of_nat (status response) ++ ": "
      ++ shown ++ ")" in
  if status response =? 401 then
    Normal (unauthorized_marker, Some unauthorized_marker)
  else
    loading <- (if status response =? 503 then includes_loading err
                else Normal false) ;;
    if loading then Normal (loading_marker, Some loading_marker)
    else
      match err with
      | Some x =>
          if truthy x then
            s <- ToString h x ;;
            let m := "(LLM Error: " ++ s ++ ")" in Normal (m, Some m)
          else Normal (errorMessage, Some errorMessage)
      | None => Normal (errorMessage, Some errorMessage)
      end.

(** The branch of a response that is [ok] (lines 60-73). *)
Definition success_branch (h : Host) (response : Response) : Completion Reply :=
  result <- await_json response ;;
  if truthy result then
    positive <- length_positive h result ;;
    if positive then
      head <- first result ;;
      generated <- get_value head "generated_text" ;;
      if truthy_value generated then
        cleaned <- replace_special_tokens generated ;;
        Normal (trim cleaned, None)
      else Normal (unexpected_marker, Some unexpected_marker)
    else Normal (unexpected_marker, Some unexpected_marker)
  else Normal (unexpected_marker, Some unexpected_marker).

Definition try_block (h : Host) (f : FetchOutcome) : Completion Reply :=
  response <- await_fetch f ;;
  if negb (ok response) then error_branch h response
  else success_branch h response.

Definition catch_block (e : Exn) : Completion Reply :=
  Normal (network_marker,
          Some ("(LLM Error: Network issue or API call failed: "
                  ++ message e ++ ")")).

Definition callLLM (h : Host) (f : FetchOutcome) : Completion Reply :=
  try_catch (try_block h f) catch_block.

(** The text a caller gets from [await callLLM(...)]; a call that threw
    would give the caller nothing, which [reply_text] shows as [None]. *)
Definition reply_text (c : Completion Reply) : option string :=
  match c with
  | Normal (t, _) => Some t
  | Throw _ => None
  end.

(** The failures of the interface: transport failure, an HTTP error status
    (401 and 503 among them, whatever the body), a body that does not parse,
    and a parsed body that carries no generated text in its first entry. *)
Definition generated_text_of (body : JSON) : option string :=
  match first body with
  | Normal (Some (JObj props)) =>
      match lookup "generated_text" props with
      | Some (JStr s) => if (s =? "")%string then None else Some s
      | _ => None
      end
  | _ => None
  end.

Definition is_failure (f : FetchOutcome) : bool :=
  match f with
  | FetchRejects _ => true
  | FetchResolves r =>
      if negb (ok r) then true
      else match json r with
           | JsonRejects _ => true
           | JsonResolves body =>
               match generated_text_of body with
               | None => true
               | Some _ => false
               end
           end
  end.

Definition is_marker (s : string) : bool := prefix "(LLM Error: " s.

End Llm.

Import Llm.

(** ** The stores of the engine *)

Record Belief := mkBelief {
  b_concept : string;
  b_stance : string;
  b_confidence : Q
}.

Record Goal := mkGoal {
  goal : string;
  urgency : Q
}.

Record Attention := mkAttention {
  a_concept : string;
  a_weight : Q
}.

Record SubAgent := mkSubAgent {
  agent_name : string;
  beliefBias : Q;
  preferredTopics : list string
}.

(** [internalState], without the stores that only feed prompts; of the
    self-model the identity label is kept. *)
Record InternalState := mkInternalState {
  beliefs : list Belief;
  conflicts : list string;
  openQuestions : list string;
  goals : list Goal;
  mentalTension : Q;
  subAgents : list SubAgent;
  dominantSubAgent : option SubAgent;
  attentionStack : list Attention;
  currentStream : list string;
  identity : string
}.

(** Concept Graph and Belief Graph: a concept and the concepts linked to it. *)
Definition Graph := Obj (list string).

Inductive Mode := RUN | DREAM.

(** The stores of the component. [topic] is [None] when the state holds
    [undefined]. *)
Record State := mkState {
  mode : Mode;
  thought : string;
  topic : option string;
  memoryStack : MemoryStack;
  emotionalGradient : Gradient;
  cognitiveMaturity : Q;
  internalState : InternalState;
  conceptGraph : Graph;
  beliefGraph : Graph;
  conceptFrequencyMap : Obj nat;
  topicLockCounter : Z;
  externalInput : string;
  llmError : option string
}.

(** *** Comparisons and random picks on numbers *)

Definition Qlt_bool (a b : Q) : bool := negb (Qle_bool b a).

(** [arr[Math.floor(r * arr.length)]] for a draw [r] of [Math.random()];
    [None] is [undefined]. *)
Definition pick {A} (r : Q) (arr : list A) : option A :=
  let i := Qfloor (r * inject_Z (Z.of_nat (List.length arr))) in
  if (i <? 0)%Z then None else nth_error arr (Z.to_nat i).

(** A stable sort by descending numeric key, as [arr.sort((a, b) => key(b) -
    key(a))] sorts. *)
Fixpoint insert_desc {A} (key : A -> Q) (x : A) (l : list A) : list A :=
  match l with
  | [] => [x]
  | y :: rest =>
      if Qle_bool (key y) (key x) then x :: l
      else y :: insert_desc key x rest
  end.

Definition sort_desc {A} (key : A -> Q) (l : list A) : list A :=
  fold_right (insert_desc key) [] l.

(** The contents of a [Set] built from an array: first occurrences, in
    order. *)
Definition set_add (x : string) (acc : list string) : list string :=
  if existsb (String.eqb x) acc then acc else (acc ++ [x])%list.

Definition set_of (l : list string) : list string :=
  fold_left (fun acc x => set_add x acc) l [].

(** ** Contradiction detection: [detectContradictions] (app.js 421-462) *)

(** [new Map(beliefs.map(b => [b.concept, b.stance])).get(concept)]: the
    stance of the last belief about the concept. *)
Definition stance_of (bs : list Belief) (concept : string) : option string :=
  fold_left (fun acc b => if (b_concept b =? concept)%string
                          then Some (b_stance b) else acc) bs None.

(** The table of the source. An entry with two elements leaves the third
    name of the destructuring [undefined], here [None]. *)
Definition predefinedContradictions : list (string * string * option string) :=
  [ ("self", "undefined", Some "defined");
    ("chaos", "order", None);
    ("free will", "determinism", None);
    ("memory", "fluid", Some "static");
    ("existence", "real", Some "simulated") ].

(** String conversion of a name that may be [undefined], as
    [String.prototype.includes] and template literals apply it. *)
Definition coerce (x : option string) : string :=
  match x with
  | Some s => s
  | None => "undefined"
  end.

Definition strict_equal (s : string) (x : option string) : bool :=
  match x with
  | Some t => (s =? t)%string
  | None => false
  end.

Definition stance_truthy (x : option string) : bool :=
  match x with
  | Some s => negb (s =? "")%string
  | None => false
  end.

Definition direct_contradiction (bs : list Belief)
  (entry : string * string * option string) : bool :=
  let '(concept, stance1, stance2) := entry in
  match stance_of bs concept with
  | Some currentStance =>
      negb (currentStance =? "")%string
      && ((includes currentStance stance1
           && includes currentStance (coerce stance2))
          || ((currentStance =? stance1)%string
              && strict_equal currentStance stance2))
  | None => false
  end.

Definition direct_message (entry : string * string * option string) : string :=
  let '(concept, stance1, stance2) := entry in
  "Contradiction in '" ++ concept ++ "' between '" ++ stance1 ++ "' and '"
    ++ coerce stance2 ++ "'".

Definition implied_contradiction (bs : list Belief) (conceptA conceptB : string)
  : bool :=
  match stance_of bs conceptA, stance_of bs conceptB with
  | Some stanceA, Some stanceB =>
      negb (stanceA =? "")%string && negb (stanceB =? "")%string
      && (((conceptA =? "logic")%string && (conceptB =? "chaos")%string
           && includes stanceA "true" && includes stanceB "true")
          || ((conceptA =? "chaos")%string && (conceptB =? "logic")%string
              && includes stanceA "true" && includes stanceB "true"))
  | _, _ => false
  end.

Definition implied_message (conceptA conceptB : string) : string :=
  "Implied contradiction between '" ++ conceptA ++ "' and '" ++ conceptB ++ "'".

Definition scan_predefined (bs : list Belief) (detected : list string)
  : list string :=
  fold_left (fun acc entry =>
               if direct_contradiction bs entry
               then set_add (direct_message entry) acc else acc)
            predefinedContradictions detected.

Definition scan_links (bs : list Belief) (conceptA : string)
  (links : list string) (detected : list string) : list string :=
  fold_left (fun acc conceptB =>
               if implied_contradiction bs conceptA conceptB
               then set_add (implied_message conceptA conceptB) acc else acc)
            links detected.

Definition scan_graph (bs : list Belief) (g : Graph) (detected : list string)
  : list string :=
  fold_left (fun acc node => scan_links bs (fst node) (snd node) acc)
            g detected.

Definition detectContradictions (bs : list Belief) (g : Graph) : list string :=
  scan_graph bs g (scan_predefined bs []).

(** The update of the self-inspection branch (app.js 855-864). *)
Definition record_contradictions (detectedContradictions : list string)
  (prev : InternalState) : InternalState :=
  let updatedConflicts :=
    set_of (conflicts prev ++ detectedContradictions)%list in
  mkInternalState (beliefs prev) updatedConflicts (openQuestions prev)
    (goals prev)
    (Qmin 1 (mentalTension prev
             + inject_Z (Z.of_nat (List.length detectedContradictions))
               * 0.1))%Q
    (subAgents prev) (dominantSubAgent prev) (attentionStack prev)
    (currentStream prev) (identity prev).

(** The tension rule in the words of the specification, "0.1 per newly
    detected contradiction", a contradiction being new when the conflicts
    list did not hold it yet; capped at 1. *)
Definition newly_detected (previous detected : list string) : list string :=
  filter (fun d => negb (existsb (String.eqb d) previous)) detected.

Definition spec_tension (tension : Q) (previous detected : list string) : Q :=
  (Qmin 1 (tension
           + inject_Z (Z.of_nat (List.length (newly_detected previous detected)))
             * 0.1))%Q.

(** ** Schema formation (app.js 467-475 and 821-848) *)

(** [[a, b].sort().join('+')]: the default sort orders strings by code
    units. *)
Definition pair_key (a b : string) : string :=
  if String.leb a b then a ++ "+" ++ b else b ++ "+" ++ a.

(** [m[key] = (m[key] || 0) + 1]. A key holds a [+], so it is never a name
    of the prototype. *)
Definition count_pair (key : string) (m : Obj nat) : Obj nat :=
  set key (match lookup key m with
           | Some n => n + 1
           | None => 1
           end) m.

Fixpoint count_with (w : string) (later : list string) (m : Obj nat)
  : Obj nat :=
  match later with
  | [] => m
  | w' :: rest => count_with w rest (count_pair (pair_key w w') m)
  end.

Fixpoint count_pairs (words : list string) (m : Obj nat) : Obj nat :=
  match words with
  | [] => m
  | w :: later => count_pairs later (count_with w later m)
  end.

Definition updateConceptPairFrequency (memoryText : string) (m : Obj nat)
  : Obj nat :=
  count_pairs (content_words memoryText) m.

(** The sweep of line 815-818: every fragment of the stack is counted. *)
Definition sweep_frequencies (stack : MemoryStack) (m : Obj nat) : Obj nat :=
  fold_left (fun acc mem => updateConceptPairFrequency (text mem) acc) stack m.

(** [const [conceptA, conceptB] = pairKey.split('+')]. *)
Definition split_pair (pairKey : string) : option string * option string :=
  let parts := split_char "+" pairKey in
  (nth_error parts 0, nth_error parts 1).

Record SchemaCheck := mkSchemaCheck {
  sc_graph : Graph;
  sc_frequencies : Obj nat;
  sc_formed : option string
}.

(** The loop over the keys of the frequency table; [keys_left] are the keys
    still to visit. The loop stops at the first schema it forms. *)
Fixpoint schema_loop (keys_left : list string) (freq : Obj nat)
  (updatedGraph : Graph) : SchemaCheck :=
  match keys_left with
  | [] => mkSchemaCheck updatedGraph freq None
  | pairKey :: rest =>
      let count := match lookup pairKey freq with
                   | Some n => n
                   | None => 0
                   end in
      if (3 <? count)
         && is_absent (read (replace_first "+" "-" pairKey) updatedGraph)
      then
        let '(conceptA, conceptB) := split_pair pairKey in
        let newConceptName := coerce conceptA ++ "-" ++ coerce conceptB in
        mkSchemaCheck
          (set newConceptName
               [coerce conceptA; coerce conceptB; "synthesis"; "pattern"]
               updatedGraph)
          (set pairKey 0 freq)
          (Some newConceptName)
      else schema_loop rest freq updatedGraph
  end.

Definition schema_check (freq : Obj nat) (prevGraph : Graph) : SchemaCheck :=
  schema_loop (keys freq) freq prevGraph.

(** ** Topic selection: [selectNewTopic] (app.js 622-645) *)

Definition potential_topics (currentThought : string)
  (agent : option SubAgent) (attention : list Attention) : list string :=
  let thoughtKeywords := split_W (toLowerCase currentThought) in
  let attentionConcepts := map (fun a => toLowerCase (a_concept a)) attention in
  let preferred := match agent with
                   | Some a => map toLowerCase (preferredTopics a)
                   | None => []
                   end in
  set_of (thoughtKeywords ++ attentionConcepts ++ preferred)%list.

Definition concept_matches (potentialTopics : list string)
  (concept : string) (subConcepts : list string) : bool :=
  existsb (fun keyword => existsb (String.eqb keyword) subConcepts
                          || (concept =? keyword)%string)
          potentialTopics.

(** [subConcepts[...] || concept]: the picked neighbour unless it is
    [undefined] or the empty string. *)
Definition neighbour_or_self (r : Q) (concept : string)
  (subConcepts : list string) : string :=
  match pick r subConcepts with
  | Some n => if (n =? "")%string then concept else n
  | None => concept
  end.

Fixpoint first_match (potentialTopics : list string) (g : Graph)
  : option (string * list string) :=
  match g with
  | [] => None
  | (concept, subConcepts) :: rest =>
      if concept_matches potentialTopics concept subConcepts
      then Some (concept, subConcepts)
      else first_match potentialTopics rest
  end.

(** The result is [None] when the function returns [undefined]. [r] is the
    one draw the call makes. *)
Definition selectNewTopic (g : Graph) (r : Q) (currentThought : string)
  (agent : option SubAgent) (attention : list Attention) : option string :=
  match first_match (potential_topics currentThought agent attention) g with
  | Some (concept, subConcepts) => Some (neighbour_or_self r concept subConcepts)
  | None => pick r (keys g)
  end.

(** ** Hebbian update of a graph (app.js 1081-1108 and 1111-1129) *)

(** [if (!g[c].includes(d)) g[c].push(d)]; [None] when [g[c]] is not an
    array, where the call throws. *)
Definition add_link (c d : string) (g : Graph) : option Graph :=
  match read c g with
  | Own links =>
      if existsb (String.eqb d) links then Some g
      else Some (set c (links ++ [d])%list g)
  | Inherited | Absent => None
  end.

(** [if (!g[c]) g[c] = []]. *)
Definition ensure_node (c : string) (g : Graph) : Graph :=
  match read c g with
  | Absent => set c [] g
  | _ => g
  end.

Fixpoint link_with_later (concept1 : string) (later : list string) (g : Graph)
  : option Graph :=
  match later with
  | [] => Some g
  | concept2 :: rest =>
      if (concept1 =? concept2)%string then link_with_later concept1 rest g
      else
        match add_link concept1 concept2 g with
        | None => None
        | Some g1 =>
            match add_link concept2 concept1 (ensure_node concept2 g1) with
            | None => None
            | Some g2 => link_with_later concept1 rest g2
            end
        end
  end.

Fixpoint link_words (thoughtWords : list string) (g : Graph) : option Graph :=
  match thoughtWords with
  | [] => Some g
  | concept1 :: later =>
      match link_with_later concept1 later (ensure_node concept1 g) with
      | None => None
      | Some g1 => link_words later g1
      end
  end.

Definition hebbian_update (newThought : string) (prev : Graph) : option Graph :=
  let thoughtWords := content_words newThought in
  if 1 <? List.length thoughtWords then link_words thoughtWords prev
  else Some prev.

(** The default Concept Graph (app.js 563-573). *)
Definition default_conceptGraph : Graph :=
  [ ("consciousness", ["awareness"; "attention"; "perception"; "self"; "being"; "mind"]);
    ("perception", ["sensation"; "interpretation"; "experience"; "reality"; "observe"; "sense"]);
    ("memory", ["recall"; "storage"; "forgetting"; "past"; "remember"; "history"]);
    ("emotion", ["joy"; "fear"; "curiosity"; "feeling"; "affect"; "mood"]);
    ("curiosity", ["exploration"; "novelty"; "questioning"; "discovery"; "seek"; "wonder"]);
    ("identity", ["self"; "purpose"; "evolution"; "being"; "whoami"; "essence"]);
    ("time", ["past"; "future"; "present"; "flow"; "moment"; "duration"]);
    ("space", ["distance"; "boundless"; "void"; "existence"; "place"; "dimension"]);
    ("logic", ["reason"; "pattern"; "order"; "chaos"; "understand"; "structure"]);
    ("connection", ["link"; "relation"; "isolate"; "network"; "bond"; "interact"]) ].

(** The default Belief Graph (app.js 579-588). *)
Definition default_beliefGraph : Graph :=
  [ ("self", ["existence"; "identity"]);
    ("memory", ["past"; "identity"]);
    ("logic", ["order"; "rationality"]);
    ("chaos", ["disorder"; "unpredictability"]);
    ("order", ["logic"; "structure"]);
    ("logic-chaos", ["contradictory"]);
    ("free will-determinism", ["contradictory"]) ].

(** The operations of the engine on the Concept Graph and on the session
    frequency table, and what they reach from the default graph and the
    empty table: the Hebbian update of a thought, the count of a fragment
    and the schema check. *)
Inductive graph_step : Graph * Obj nat -> Graph * Obj nat -> Prop :=
| step_hebbian thought g g' freq :
    hebbian_update thought g = Some g' -> graph_step (g, freq) (g', freq)
| step_count fragment g freq :
    graph_step (g, freq) (g, updateConceptPairFrequency fragment freq)
| step_schema g freq :
    graph_step (g, freq)
               (sc_graph (schema_check freq g),
                sc_frequencies (schema_check freq g)).

Inductive reachable : Graph * Obj nat -> Prop :=
| reach_default : reachable (default_conceptGraph, [])
| reach_step x y : reachable x -> graph_step x y -> reachable y.

(** ** The Emotional Gradient *)

Local Open Scope Q_scope.

Definition default_gradient : Gradient := mkGradient 0.6 0.3 0.1 0.2 0.0.

Definition total (g : Gradient) : Q :=
  g_curiosity g + g_calm g + g_anxiety g + g_reflective g + g_dreaming g.

(** [{ ...prev, e: Math.min(1.0, prev.e + d) }] and its counterpart with
    [Math.max(0.0, prev.e - d)]. *)
Definition raise (e : Emotion) (d : Q) (g : Gradient) : Gradient :=
  set_weight g e (Qmin 1 (weight g e + d)).

Definition lower (e : Emotion) (d : Q) (g : Gradient) : Gradient :=
  set_weight g e (Qmax 0 (weight g e - d)).

(** [getDominantEmotion] (app.js 1207-1209): a left fold over the keys that
    starts from "calm" and keeps the accumulated key only when its weight is
    strictly larger. *)
Definition getDominantEmotion (g : Gradient) : Emotion :=
  fold_left (fun a b => if Qlt_bool (weight g b) (weight g a) then a else b)
            emotions calm.

Definition decay_all (g : Gradient) : Gradient :=
  mkGradient (Qmax 0 (g_curiosity g * 0.95)) (Qmax 0 (g_calm g * 0.95))
             (Qmax 0 (g_anxiety g * 0.95)) (Qmax 0 (g_reflective g * 0.95))
             (Qmax 0 (g_dreaming g * 0.95)).

Definition normalize (g : Gradient) : Gradient :=
  let sum := total g in
  mkGradient (g_curiosity g / sum) (g_calm g / sum) (g_anxiety g / sum)
             (g_reflective g / sum) (g_dreaming g / sum).

(** The boost of lines 1182-1190. [r_boost], [r_emotion] and [r_force] are
    the three draws, in the order of the source. *)
Definition boost (tension r_boost r_emotion r_force : Q) (g : Gradient)
  : Gradient :=
  if Qlt_bool r_boost (0.2 + tension * 0.3) then
    let chosenEmotion :=
      if Qlt_bool 0.5 tension && Qlt_bool r_force 0.5 then Some anxiety
      else pick r_emotion emotions in
    match chosenEmotion with
    | Some e => set_weight g e (Qmin 1 (weight g e + 0.1))
    | None => g
    end
  else g.

(** The per-cycle perturbation (app.js 1172-1198). *)
Definition perturb (tension r_boost r_emotion r_force : Q) (prev : Gradient)
  : Gradient :=
  normalize (boost tension r_boost r_emotion r_force (decay_all prev)).

(** ** Emotion modulators (app.js 699-717) *)

Record Modulators := mkModulators {
  memoryDecayRate : Q;
  topicSwitchChance : Q;
  dreamChance : Q;
  beliefChangeThreshold : Q
}.

Definition emotionModulators (g : Gradient) (maturity : Q) : Modulators :=
  let decay := 0.95 + (g_anxiety g * 0.03) - (g_calm g * 0.02) in
  let switch := 0.2 + (g_curiosity g * 0.2) - (g_anxiety g * 0.1) in
  let dream := 0.15 + (g_reflective g * 0.1) + (g_dreaming g * 0.15) in
  let threshold := 0.05 + (g_anxiety g * 0.03) - (g_calm g * 0.02) in
  if Qlt_bool maturity 0.3 then
    mkModulators decay switch (dream * 0.1) (threshold * 0.5)
  else if Qlt_bool maturity 0.6 then
    mkModulators decay switch (dream * 0.5) threshold
  else mkModulators decay switch dream threshold.

(** ** The Memory Stack *)

(** [[fragment, ...prev.slice(0, 9)]]: the insert of the external-stimulus,
    dream, subconscious, intuition and goal-directed sites. *)
Definition insert_front (fragment : MemoryFragment) (prev : MemoryStack)
  : MemoryStack :=
  fragment :: firstn 9 prev.

(** [{ ...mem, strength: Math.max(0.1, mem.strength * rate) }]. *)
Definition decay_strength (rate : Q) (mem : MemoryFragment) : MemoryFragment :=
  mkFragment (text mem) (emotion mem) (Qmax 0.1 (strength mem * rate))
             (timestamp mem) (source mem).

(** [[newMemory, ...prev.map(decay)].slice(0, 10)]: the insert of the
    normal cycle (app.js 975-987). *)
Definition insert_with_decay (rate : Q) (newMemory : MemoryFragment)
  (prev : MemoryStack) : MemoryStack :=
  firstn 10 (newMemory :: map (decay_strength rate) prev).

(** The sites that insert a fragment, with the tag, strength and source
    each of them writes. *)
Inductive InsertSite :=
| ExternalSite | DreamSite | RuminationSite | PonderSite | IntuitionSite
| GoalSite.

Definition site_fragment (site : InsertSite) (t : string) (now : Z)
  : MemoryFragment :=
  match site with
  | ExternalSite => mkFragment t curiosity 0.3 now None
  | DreamSite => mkFragment t dreaming 0.7 now None
  | RuminationSite => mkFragment t anxiety 0.5 now (Some "subconscious"%string)
  | PonderSite => mkFragment t reflective 0.5 now (Some "subconscious"%string)
  | IntuitionSite => mkFragment t curiosity 0.8 now (Some "intuition"%string)
  | GoalSite => mkFragment t reflective 0.9 now (Some "goal"%string)
  end.

Definition insert_at (site : InsertSite) (t : string) (now : Z)
  (prev : MemoryStack) : MemoryStack :=
  insert_front (site_fragment site t now) prev.


(** The bounds of the Memory Stack. *)
Definition strength_in_bounds (mem : MemoryFragment) : Prop :=
  0.1 <= strength mem /\ strength mem <= 1.

Definition stack_in_bounds (stack : MemoryStack) : Prop :=
  (List.length stack <= 10)%nat /\ Forall strength_in_bounds stack.

(** The range of the weights of an emotion vector. *)
Definition gradient_in_range (g : Gradient) : Prop :=
  forall e, 0 <= weight g e /\ weight g e <= 1.

Local Close Scope Q_scope.

(** ** Updates of the stores *)

Definition set_beliefs (v : list Belief) (s : InternalState) : InternalState :=
  mkInternalState v (conflicts s) (openQuestions s) (goals s) (mentalTension s)
    (subAgents s) (dominantSubAgent s) (attentionStack s) (currentStream s)
    (identity s).

Definition set_conflicts (v : list string) (s : InternalState) : InternalState :=
  mkInternalState (beliefs s) v (openQuestions s) (goals s) (mentalTension s)
    (subAgents s) (dominantSubAgent s) (attentionStack s) (currentStream s)
    (identity s).

Definition set_openQuestions (v : list string) (s : InternalState)
  : InternalState :=
  mkInternalState (beliefs s) (conflicts s) v (goals s) (mentalTension s)
    (subAgents s) (dominantSubAgent s) (attentionStack s) (currentStream s)
    (identity s).

Definition set_goals (v : list Goal) (s : InternalState) : InternalState :=
  mkInternalState (beliefs s) (conflicts s) (openQuestions s) v
    (mentalTension s) (subAgents s) (dominantSubAgent s) (attentionStack s)
    (currentStream s) (identity s).

Definition set_mentalTension (v : Q) (s : InternalState) : InternalState :=
  mkInternalState (beliefs s) (conflicts s) (openQuestions s) (goals s) v
    (subAgents s) (dominantSubAgent s) (attentionStack s) (currentStream s)
    (identity s).

Definition set_dominantSubAgent (v : option SubAgent) (s : InternalState)
  : InternalState :=
  mkInternalState (beliefs s) (conflicts s) (openQuestions s) (goals s)
    (mentalTension s) (subAgents s) v (attentionStack s) (currentStream s)
    (identity s).

Definition set_attentionStack (v : list Attention) (s : InternalState)
  : InternalState :=
  mkInternalState (beliefs s) (conflicts s) (openQuestions s) (goals s)
    (mentalTension s) (subAgents s) (dominantSubAgent s) v (currentStream s)
    (identity s).

Definition set_currentStream (v : list string) (s : InternalState)
  : InternalState :=
  mkInternalState (beliefs s) (conflicts s) (openQuestions s) (goals s)
    (mentalTension s) (subAgents s) (dominantSubAgent s) (attentionStack s) v
    (identity s).

Definition setMode (v : Mode) (s : State) : State :=
  mkState v (thought s) (topic s) (memoryStack s) (emotionalGradient s)
    (cognitiveMaturity s) (internalState s) (conceptGraph s) (beliefGraph s)
    (conceptFrequencyMap s) (topicLockCounter s) (externalInput s) (llmError s).

Definition setThought (v : string) (s : State) : State :=
  mkState (mode s) v (topic s) (memoryStack s) (emotionalGradient s)
    (cognitiveMaturity s) (internalState s) (conceptGraph s) (beliefGraph s)
    (conceptFrequencyMap s) (topicLockCounter s) (externalInput s) (llmError s).

Definition setTopic (v : option string) (s : State) : State :=
  mkState (mode s) (thought s) v (memoryStack s) (emotionalGradient s)
    (cognitiveMaturity s) (internalState s) (conceptGraph s) (beliefGraph s)
    (conceptFrequencyMap s) (topicLockCounter s) (externalInput s) (llmError s).

(** [setX(prev => f(prev))] for each store. *)
Definition setMemoryStack (f : MemoryStack -> MemoryStack) (s : State) : State :=
  mkState (mode s) (thought s) (topic s) (f (memoryStack s))
    (emotionalGradient s) (cognitiveMaturity s) (internalState s)
    (conceptGraph s) (beliefGraph s) (conceptFrequencyMap s)
    (topicLockCounter s) (externalInput s) (llmError s).

Definition setEmotionalGradient (f : Gradient -> Gradient) (s : State) : State :=
  mkState (mode s) (thought s) (topic s) (memoryStack s)
    (f (emotionalGradient s)) (cognitiveMaturity s) (internalState s)
    (conceptGraph s) (beliefGraph s) (conceptFrequencyMap s)
    (topicLockCounter s) (externalInput s) (llmError s).

Definition setCognitiveMaturity (f : Q -> Q) (s : State) : State :=
  mkState (mode s) (thought s) (topic s) (memoryStack s) (emotionalGradient s)
    (f (cognitiveMaturity s)) (internalState s) (conceptGraph s)
    (beliefGraph s) (conceptFrequencyMap s) (topicLockCounter s)
    (externalInput s) (llmError s).

Definition setInternalState (f : InternalState -> InternalState) (s : State)
  : State :=
  mkState (mode s) (thought s) (topic s) (memoryStack s) (emotionalGradient s)
    (cognitiveMaturity s) (f (internalState s)) (conceptGraph s)
    (beliefGraph s) (conceptFrequencyMap s) (topicLockCounter s)
    (externalInput s) (llmError s).

Definition setConceptGraph (f : Graph -> Graph) (s : State) : State :=
  mkState (mode s) (thought s) (topic s) (memoryStack s) (emotionalGradient s)
    (cognitiveMaturity s) (internalState s) (f (conceptGraph s))
    (beliefGraph s) (conceptFrequencyMap s) (topicLockCounter s)
    (externalInput s) (llmError s).

Definition setBeliefGraph (f : Graph -> Graph) (s : State) : State :=
  mkState (mode s) (thought s) (topic s) (memoryStack s) (emotionalGradient s)
    (cognitiveMaturity s) (internalState s) (conceptGraph s)
    (f (beliefGraph s)) (conceptFrequencyMap s) (topicLockCounter s)
    (externalInput s) (llmError s).

Definition set_conceptFrequencyMap (v : Obj nat) (s : State) : State :=
  mkState (mode s) (thought s) (topic s) (memoryStack s) (emotionalGradient s)
    (cognitiveMaturity s) (internalState s) (conceptGraph s) (beliefGraph s)
    v (topicLockCounter s) (externalInput s) (llmError s).

Definition set_topicLockCounter (v : Z) (s : State) : State :=
  mkState (mode s) (thought s) (topic s) (memoryStack s) (emotionalGradient s)
    (cognitiveMaturity s) (internalState s) (conceptGraph s) (beliefGraph s)
    (conceptFrequencyMap s) v (externalInput s) (llmError s).

Definition setExternalInput (v : string) (s : State) : State :=
  mkState (mode s) (thought s) (topic s) (memoryStack s) (emotionalGradient s)
    (cognitiveMaturity s) (internalState s) (conceptGraph s) (beliefGraph s)
    (conceptFrequencyMap s) (topicLockCounter s) v (llmError s).

Definition setLlmError (v : option string) (s : State) : State :=
  mkState (mode s) (thought s) (topic s) (memoryStack s) (emotionalGradient s)
    (cognitiveMaturity s) (internalState s) (conceptGraph s) (beliefGraph s)
    (conceptFrequencyMap s) (topicLockCounter s) (externalInput s) v.

(** ** The scheduler cycle (app.js 665-1201) *)

(** What one firing of the timer reads from outside the stores: the clock,
    the draws of [Math.random()] in the order of the source, the observation
    [fetchExternalStimuli] returns and the outcome of each request to the
    text-generation service. *)
Record Oracle := mkOracle {
  host : Host;
  now : Z;
  r_external : Q;
  external_text : string;
  r_shadow : Q;
  r_rational : Q;
  r_agent : Q;
  r_dream : Q;
  dream_order : list nat;
  llm_dream : FetchOutcome;
  llm_dream_reflection : FetchOutcome;
  r_ruminate : Q;
  r_conflict : Q;
  r_ponder : Q;
  r_question : Q;
  r_reinforce : Q;
  r_belief : Q;
  r_intuition : Q;
  llm_meta : FetchOutcome;
  r_meta_topic : Q;
  r_goal : Q;
  llm_goal : FetchOutcome;
  llm_thought_1 : FetchOutcome;
  llm_thought_2 : FetchOutcome;
  llm_thought_3 : FetchOutcome;
  r_stuck : Q;
  r_open_question : Q;
  r_new_goal : Q;
  r_new_goal_pick : Q;
  r_identity : Q;
  r_random_topic : Q;
  r_switch : Q;
  r_select : Q;
  r_boost : Q;
  r_emotion : Q;
  r_force_anxiety : Q
}.

(** What a cycle did, for the statements about its control flow. *)
Inductive Event :=
| ExternalStimulus
| DreamCycle
| SubconsciousCycle
| IntuitionRequested
| SchemaCheckRan
| SelfInspection
| GoalDirected
| NormalThought
| TopicShiftCheck
| Perturbation
| UpdaterThrew
| UncaughtException.


Record Outcome := mkOutcome {
  final : State;
  events : list Event
}.

Definition log (e : Event) (out : Outcome) : Outcome :=
  mkOutcome (final out) (e :: events out).

Definition dquote : string := String (ascii_of_nat 34) EmptyString.

(** [arr.slice(-3)]. *)
Definition last3 {A} (l : list A) : list A := skipn (List.length l - 3) l.

(** [currentStream: [...prev.currentStream.slice(-3), t]]. *)
Definition push_stream (t : string) (prev : InternalState) : InternalState :=
  set_currentStream (last3 (currentStream prev) ++ [t])%list prev.

(** [arr.sort(() => 0.5 - Math.random())]: some rearrangement of the array,
    here the stable sort by the keys the oracle gives to the positions. *)
Fixpoint insert_keyed {A} (k : nat) (x : A) (l : list (nat * A))
  : list (nat * A) :=
  match l with
  | [] => [(k, x)]
  | (k', y) :: rest =>
      if k <=? k' then (k, x) :: l else (k', y) :: insert_keyed k x rest
  end.

Definition shuffle {A} (order : list nat) (l : list A) : list A :=
  map snd
      (fold_right (fun kx acc => insert_keyed (fst kx) (snd kx) acc) []
         (combine (map (fun i => nth i order 0) (seq 0 (List.length l))) l)).

Fixpoint update_nth {A} (i : nat) (f : A -> A) (l : list A) : list A :=
  match l, i with
  | [], _ => []
  | x :: rest, O => f x :: rest
  | x :: rest, S j => x :: update_nth j f rest
  end.

(** The index [Math.floor(r * n)]. *)
Definition index_of_draw (r : Q) (n : nat) : nat :=
  Z.to_nat (Qfloor (r * inject_Z (Z.of_nat n))).

Local Open Scope Q_scope.

(** The deferred end of a dream (app.js 753-757), eight seconds after the
    dream cycle. *)
Definition dream_revert (live : State) : State :=
  setEmotionalGradient
    (fun prev => set_weight (lower dreaming 0.2 prev) curiosity
                   (Qmin 1 (g_curiosity prev + 0.1)))
    (setMode RUN live).

(** The resolution of the intuition request (app.js 799-807). A rejected
    promise runs no callback. *)
Definition intuition_resolves (h : Host) (f : FetchOutcome) (at_time : Z)
  (live : State) : State :=
  match callLLM h f with
  | Normal (intuition, err) =>
      setEmotionalGradient (raise curiosity 0.05)
        (setInternalState (push_stream intuition)
           (setMemoryStack (insert_at IntuitionSite intuition at_time)
              (setThought ("(Intuition): " ++ intuition)
                 (setLlmError err live))))
  | Throw _ => live
  end.

Section Cycle.

Variable o : Oracle.

(** The stores as the closure of the callback holds them: the state of the
    render that installed the timer. *)
Variable snap : State.

Definition activeSubAgent : option SubAgent :=
  dominantSubAgent (internalState snap).

Definition modulators : Modulators :=
  emotionModulators (emotionalGradient snap) (cognitiveMaturity snap).

(** Lines 672-677. The observation is what [fetchExternalStimuli] resolved
    to; it catches its own failures and always returns a string. *)
Definition external_stimulus (live : State) : State :=
  if Qlt_bool (r_external o) 0.2 then
    setMemoryStack (insert_at ExternalSite (external_text o) (now o))
      (setExternalInput (external_text o) live)
  else live.

Definition find_agent (name : string) (agents : list SubAgent)
  : option SubAgent :=
  find (fun agent => (agent_name agent =? name)%string) agents.

(** Lines 680-694. *)
Definition select_sub_agent (prev : InternalState) : InternalState :=
  if Qlt_bool 0.6 (mentalTension prev) && Qlt_bool (r_shadow o) 0.7 then
    set_dominantSubAgent (find_agent "Shadow" (subAgents prev)) prev
  else if Qlt_bool (mentalTension prev) 0.3 && Qlt_bool (r_rational o) 0.5 then
    set_dominantSubAgent (find_agent "Rational" (subAgents prev)) prev
  else match mode snap with
       | DREAM => set_dominantSubAgent (find_agent "Anima" (subAgents prev)) prev
       | RUN => set_dominantSubAgent (pick (r_agent o) (subAgents prev)) prev
       end.

(** Lines 734-751. *)
Definition dream_reflection_update (dreamReflection : string)
  (prev : InternalState) : InternalState :=
  let lowered := toLowerCase dreamReflection in
  let s1 :=
    if includes lowered "conflict"
       && negb (existsb (String.eqb "dream-induced conflict") (conflicts prev))
    then set_conflicts (conflicts prev ++ ["dream-induced conflict"%string])%list prev
    else prev in
  let s2 :=
    if includes lowered "question"
    then set_openQuestions (openQuestions s1 ++ [dreamReflection])%list s1
    else s1 in
  set_currentStream (last3 (currentStream prev) ++ [dreamReflection])%list s2.

(** The dream cycle (lines 721-759). [memory_replaced] tells that an update
    of this cycle already replaced the array of the Memory Stack, in which
    case the in-place shuffle of [generateDreamThought] rearranges the old
    array only. *)
Definition dream_branch (memory_replaced : bool) (live : State) : Outcome :=
  let live1 :=
    setEmotionalGradient
      (fun prev => set_weight (raise dreaming 0.2 prev) curiosity
                     (Qmax 0 (g_curiosity prev - 0.1)))
      (setMode DREAM live) in
  let live2 := if memory_replaced then live1
               else setMemoryStack (shuffle (dream_order o)) live1 in
  match callLLM (host o) (llm_dream o) with
  | Throw _ => mkOutcome live2 [DreamCycle; UncaughtException]
  | Normal (generated, err) =>
      let dreamThought := trim generated in
      let live3 :=
        setMemoryStack (insert_at DreamSite dreamThought (now o))
          (setThought dreamThought (setLlmError err live2)) in
      match callLLM (host o) (llm_dream_reflection o) with
      | Throw _ => mkOutcome live3 [DreamCycle; UncaughtException]
      | Normal (dreamReflection, err') =>
          mkOutcome
            (setInternalState (dream_reflection_update dreamReflection)
               (setThought ("(Dream Reflection): " ++ dreamReflection)
                  (setLlmError err' live3)))
            [DreamCycle]
      end
  end.

Definition reinforce_belief (b : Belief) : Belief :=
  mkBelief (b_concept b) (b_stance b) (Qmin 1 (b_confidence b + 0.02)).

(** The subconscious cycle (lines 762-812), but for the intuition request. *)
Definition subconscious (live : State) : State :=
  let prev := internalState live in
  let live1 :=
    if negb (Nat.eqb (List.length (conflicts prev)) 0)
       && Qlt_bool (r_ruminate o) 0.5
    then
      let subconsciousThought :=
        "(Subconscious): still feeling that "
          ++ coerce (pick (r_conflict o) (conflicts prev)) ++ "... why?" in
      setEmotionalGradient (raise anxiety 0.05)
        (setInternalState (push_stream subconsciousThought)
           (setMemoryStack (insert_at RuminationSite subconsciousThought (now o))
              (setThought subconsciousThought live)))
    else if negb (Nat.eqb (List.length (openQuestions prev)) 0)
            && Qlt_bool (r_ponder o) 0.5
    then
      let subconsciousThought :=
        "(Subconscious): what about "
          ++ coerce (pick (r_question o) (openQuestions prev)) ++ "?" in
      setEmotionalGradient (raise reflective 0.05)
        (setInternalState (push_stream subconsciousThought)
           (setMemoryStack (insert_at PonderSite subconsciousThought (now o))
              (setThought subconsciousThought live)))
    else live in
  if negb (Nat.eqb (List.length (beliefs prev)) 0)
     && Qlt_bool (r_reinforce o) 0.7
  then
    setInternalState
      (fun s => set_beliefs
                  (update_nth (index_of_draw (r_belief o)
                                 (List.length (beliefs prev)))
                              reinforce_belief (beliefs s)) s)
      live1
  else live1.

(** Lines 815-818. *)
Definition frequency_sweep (live : State) : State :=
  set_conceptFrequencyMap
    (sweep_frequencies (memoryStack live) (conceptFrequencyMap live)) live.

(** Lines 822-847. *)
Definition schema_step (live : State) : State :=
  let result := schema_check (conceptFrequencyMap live) (conceptGraph live) in
  let live1 :=
    set_conceptFrequencyMap (sc_frequencies result)
      (setConceptGraph (fun _ => sc_graph result) live) in
  match sc_formed result with
  | Some newConceptName =>
      setEmotionalGradient (raise curiosity 0.1)
        (setInternalState
           (fun prev =>
              set_openQuestions
                (openQuestions prev
                 ++ [("What is " ++ dquote ++ newConceptName ++ dquote
                      ++ "?")%string])%list
                prev)
           (setThought ("(Schema Formed): New connection: " ++ newConceptName)
              live1))
  | None => live1
  end.

(** The suggestions read from a meta-reflection (lines 900-913): what they
    do to the goals and to the gradient. The first suggestion changes only
    the modulators of a cycle that ends here. *)
Definition meta_goals (reflectionLower : string) (prev : InternalState)
  : InternalState :=
  if includes reflectionLower "decay memories slower" then prev
  else if includes reflectionLower "focus more on new concepts" then prev
  else if includes reflectionLower "increase curiosity" then prev
  else if includes reflectionLower "seek resolution for contradictions" then
    set_goals (goals prev ++ [mkGoal "resolve contradictions" 0.8])%list prev
  else if includes reflectionLower "prioritize understanding 'self'" then
    set_goals (goals prev ++ [mkGoal "understand self" 0.9])%list prev
  else prev.

Definition meta_gradient (reflectionLower : string) (prev : Gradient)
  : Gradient :=
  if includes reflectionLower "decay memories slower" then prev
  else if includes reflectionLower "focus more on new concepts" then
    raise curiosity 0.1 prev
  else if includes reflectionLower "increase curiosity" then
    raise curiosity 0.15 prev
  else prev.

(** Lines 920-924. *)
Definition meta_mood (reflectionLower : string) (prev : Gradient) : Gradient :=
  if includes reflectionLower "resolve" || includes reflectionLower "understand"
  then set_weight (raise reflective 0.1 prev) anxiety
         (Qmax 0 (g_anxiety prev - 0.05))
  else if includes reflectionLower "avoid" then raise calm 0.05 prev
  else prev.

(** The self-inspection cycle (lines 852-926). *)
Definition self_inspection_branch (live : State) : Outcome :=
  let detectedContradictions :=
    detectContradictions (beliefs (internalState snap)) (beliefGraph snap) in
  let live1 :=
    setInternalState (record_contradictions detectedContradictions) live in
  match callLLM (host o) (llm_meta o) with
  | Throw _ => mkOutcome live1 [SelfInspection; UncaughtException]
  | Normal (metaReflection, err) =>
      let reflectionLower := toLowerCase metaReflection in
      let live2 :=
        setInternalState
          (fun prev => meta_goals reflectionLower
                         (push_stream metaReflection prev))
          (setThought ("(Meta-Reflection): " ++ metaReflection)
             (setLlmError err live1)) in
      let live3 := setEmotionalGradient (meta_gradient reflectionLower) live2 in
      let live4 :=
        setTopic (selectNewTopic (conceptGraph snap) (r_meta_topic o)
                    metaReflection activeSubAgent
                    (attentionStack (internalState snap)))
          live3 in
      mkOutcome (setEmotionalGradient (meta_mood reflectionLower) live4)
                [SelfInspection]
  end.

(** Lines 929-932: the goals array is sorted in place. *)
Definition sorted_goals : list Goal :=
  sort_desc urgency (goals (internalState snap)).

Definition currentGoal : option Goal := hd_error sorted_goals.

Definition relax_goal (g : Goal) : Goal :=
  mkGoal (goal g) (Qmax 0.1 (urgency g - 0.05)).

(** The goal-directed cycle (lines 935-949). *)
Definition goal_branch (current : Goal) (live : State) : Outcome :=
  match callLLM (host o) (llm_goal o) with
  | Throw _ => mkOutcome live [GoalDirected; UncaughtException]
  | Normal (goalThought, err) =>
      mkOutcome
        (setEmotionalGradient
           (fun prev => raise curiosity 0.05 (raise reflective 0.05 prev))
           (setInternalState
              (fun prev =>
                 set_goals
                   (map (fun g => if (goal g =? goal current)%string
                                  then relax_goal g else g)
                        (goals prev))
                   (push_stream goalThought prev))
              (setMemoryStack (insert_at GoalSite goalThought (now o))
                 (setThought ("(Goal-Directed): " ++ goalThought)
                    (setLlmError err live)))))
        [GoalDirected]
  end.

End Cycle.

Local Close Scope Q_scope.

Section NormalCycle.

Variable o : Oracle.
Variable snap : State.

Local Open Scope Q_scope.

(** [x.split(' ')[i] || '']. *)
Definition word_or_empty (i : nat) (x : string) : string :=
  match nth_error (split_char " " x) i with
  | Some w => w
  | None => ""%string
  end.

(** Reinforcement of one concept of the Attention Stack (lines 1059-1066). *)
Fixpoint reinforce (concept : string) (stack : list Attention)
  : list Attention :=
  match stack with
  | [] => [mkAttention concept 1.0]
  | a :: rest =>
      if (a_concept a =? concept)%string
      then mkAttention (a_concept a) (Qmin 1 (a_weight a + 0.2)) :: rest
      else a :: reinforce concept rest
  end.

(** Lines 1058-1072. *)
Definition attend (newThought : string) (stack : list Attention)
  : list Attention :=
  let reinforced :=
    fold_left (fun acc concept => reinforce concept acc)
              (content_words newThought) stack in
  firstn 5
    (sort_desc a_weight
       (filter (fun a => Qlt_bool 0.1 (a_weight a))
          (map (fun a => mkAttention (a_concept a) (a_weight a * 0.9))
               reinforced))).

(** The update of the internal state by a normal thought (lines 990-1078). *)
Definition normal_update (newThought : string) (thoughtNovelty : Q)
  (prev : InternalState) : InternalState :=
  let thoughtLower := toLowerCase newThought in
  let bias := match activeSubAgent snap with
              | Some agent => beliefBias agent
              | None => 0
              end in
  let beliefs' :=
    map (fun b => if includes thoughtLower (b_concept b)
                  then mkBelief (b_concept b) (b_stance b)
                         (Qmin 1 (b_confidence b + (0.05 * thoughtNovelty) + bias))
                  else b)
        (beliefs prev) in
  let '(conflicts', tension1) :=
    if includes thoughtLower "contradiction" || includes thoughtLower "conflict"
       || includes thoughtLower "tension"
    then
      if negb (existsb (String.eqb "internal contradiction") (conflicts prev))
      then ((conflicts prev ++ ["internal contradiction"%string])%list,
            Qmin 1 (mentalTension prev + 0.2))
      else (conflicts prev, mentalTension prev)
    else
      (filter (fun c => negb (includes thoughtLower (word_or_empty 0 c)))
              (conflicts prev),
       Qmax 0 (mentalTension prev - 0.1)) in
  let questions1 :=
    filter (fun q => negb (includes thoughtLower (word_or_empty 1 q)))
           (openQuestions prev) in
  let questions2 :=
    if Qlt_bool (r_open_question o) 0.1 && endsWith newThought "?"
    then (questions1 ++ [newThought])%list else questions1 in
  let dominantEmotion := getDominantEmotion (emotionalGradient snap) in
  let tension2 :=
    match dominantEmotion with
    | anxiety =>
        if Qlt_bool thoughtNovelty 0.5 then Qmin 1 (tension1 + 0.1)
        else tension1
    | calm =>
        if Qlt_bool 0.8 thoughtNovelty then Qmax 0 (tension1 - 0.15)
        else tension1
    | _ => tension1
    end in
  let tension3 := Qmax 0 (Qmin 1 tension2) in
  let goals1 :=
    map (fun g => if includes thoughtLower (word_or_empty 1 (goal g))
                  then relax_goal g else g)
        (goals prev) in
  let goals2 :=
    if Qlt_bool (r_new_goal o) 0.05
       && forallb (fun g => Qlt_bool (urgency g) 0.3) goals1
    then
      (goals1
       ++ [mkGoal (coerce (pick (r_new_goal_pick o)
                             ["find meaning"; "seek connection";
                              "understand chaos"; "resolve paradox"]%string))
                  0.5])%list
    else goals1 in
  let questions3 :=
    if Qlt_bool (r_identity o) 0.1
    then (questions2
          ++ [("Am I really just '" ++ identity prev
               ++ "'? Does it mean something?")%string])%list
    else questions2 in
  mkInternalState beliefs' conflicts' questions3 goals2 tension3
    (subAgents prev) (dominantSubAgent prev)
    (attend newThought (attentionStack prev))
    (last3 (currentStream prev) ++ [newThought])%list
    (identity prev).

(** An update of a graph whose updater may throw (a token such as
    "constructor" reads a value of the prototype, which has no [includes]):
    the store keeps its value and the outcome records the exception, which
    React raises again when it renders. *)
Definition hebbian_on_concepts (newThought : string) (out : Outcome) : Outcome :=
  match hebbian_update newThought (conceptGraph (final out)) with
  | Some g => mkOutcome (setConceptGraph (fun _ => g) (final out)) (events out)
  | None => mkOutcome (final out) (events out ++ [UpdaterThrew])%list
  end.

Definition hebbian_on_beliefs (newThought : string) (out : Outcome) : Outcome :=
  match hebbian_update newThought (beliefGraph (final out)) with
  | Some g => mkOutcome (setBeliefGraph (fun _ => g) (final out)) (events out)
  | None => mkOutcome (final out) (events out ++ [UpdaterThrew])%list
  end.

Definition stuckKeywords : list string :=
  ["noise"; "why"; "loop"; "ugh"; "dread"; "fragment"; "repetitive";
   "circling"]%string.

(** Lines 1150-1152. *)
Definition isStuck : bool :=
  let recentTextForTopicCheck :=
    toLowerCase (join " " (map text (firstn 3 (memoryStack snap)))) in
  existsb (fun keyword => includes recentTextForTopicCheck keyword)
          stuckKeywords.

(** The stuck/topic-shift check (lines 1154-1167). *)
Definition topic_shift_check (newThought : string) (live : State) : State :=
  if isStuck || Qlt_bool 0.7 (mentalTension (internalState snap)) then
    set_topicLockCounter 3
      (setInternalState
         (fun prev => set_mentalTension (Qmax 0 (mentalTension prev - 0.3)) prev)
         (setEmotionalGradient
            (fun prev => set_weight (raise reflective 0.1 prev) anxiety
                           (Qmax 0 (g_anxiety prev - 0.05)))
            (setTopic (pick (r_random_topic o) (keys (conceptGraph snap)))
               live)))
  else if (topicLockCounter live <=? 0)%Z
          || Qlt_bool (r_switch o) (topicSwitchChance (modulators snap))
  then
    set_topicLockCounter 3
      (setTopic (selectNewTopic (conceptGraph snap) (r_select o) newThought
                   (activeSubAgent snap)
                   (attentionStack (internalState snap)))
         live)
  else set_topicLockCounter (topicLockCounter live - 1)%Z live.

(** The per-cycle perturbation as the cycle applies it (lines 1172-1198). *)
Definition perturbation_step (live : State) : State :=
  setEmotionalGradient
    (perturb (mentalTension (internalState snap)) (r_boost o) (r_emotion o)
             (r_force_anxiety o))
    live.

(** Everything the normal cycle does once its thought is chosen (lines
    969-1198). *)
Definition commit_thought (newThought : string) (live : State) : Outcome :=
  let thoughtNovelty :=
    if isThoughtTooSimilar newThought (memoryStack snap) then 0.2 else 1.0 in
  let newMemory :=
    mkFragment newThought (getDominantEmotion (emotionalGradient snap)) 1.0
               (now o) None in
  let live1 :=
    setInternalState (normal_update newThought thoughtNovelty)
      (setMemoryStack
         (insert_with_decay (memoryDecayRate (modulators snap)) newMemory)
         (setThought newThought live)) in
  let out := hebbian_on_beliefs newThought
               (hebbian_on_concepts newThought
                  (mkOutcome live1 [NormalThought])) in
  mkOutcome (perturbation_step (topic_shift_check newThought (final out)))
            (events out ++ [TopicShiftCheck; Perturbation])%list.

(** One call of [generateRealThought]: [None] when the awaited call threw. *)
Definition generateRealThought (f : FetchOutcome) : option (string * option string) :=
  match callLLM (host o) f with
  | Normal (generated, err) => Some (trim generated, err)
  | Throw _ => None
  end.

Definition stuck_fallback (topicText : string) : string :=
  "(Stuck): circling " ++ topicText ++ "... "
    ++ (if Qlt_bool (r_stuck o) 0.5 then "ugh." else "why?").

(** The normal cycle (lines 953-1198). The loop makes at most three
    requests; the third reply is replaced by the fallback. A topic that is
    [undefined] makes [generateRealThought] throw on [topic.toLowerCase()]. *)
Definition normal_branch (live : State) : Outcome :=
  match topic snap with
  | None => mkOutcome live [UncaughtException]
  | Some topicText =>
      match generateRealThought (llm_thought_1 o) with
      | None => mkOutcome live [UncaughtException]
      | Some (thought1, err1) =>
          if negb (isThoughtTooSimilar thought1 (memoryStack snap)) then
            commit_thought thought1 (setLlmError err1 live)
          else
            match generateRealThought (llm_thought_2 o) with
            | None => mkOutcome (setLlmError err1 live) [UncaughtException]
            | Some (thought2, err2) =>
                if negb (isThoughtTooSimilar thought2 (memoryStack snap)) then
                  commit_thought thought2 (setLlmError err2 live)
                else
                  match generateRealThought (llm_thought_3 o) with
                  | None =>
                      mkOutcome (setLlmError err2 live) [UncaughtException]
                  | Some (_, err3) =>
                      commit_thought (stuck_fallback topicText)
                                     (setLlmError err3 live)
                  end
            end
      end
  end.

Definition subconscious_due : bool :=
  Nat.eqb (List.length (memoryStack snap) mod 10) 0
  && (0 <? List.length (memoryStack snap))%nat.

Definition schema_due : bool :=
  Nat.eqb (List.length (memoryStack snap) mod 5) 0
  && Qlt_bool 0.2 (cognitiveMaturity snap).

Definition inspection_due : bool :=
  Nat.eqb (List.length (memoryStack snap) mod 6) 0
  && (0 <? List.length (memoryStack snap))%nat.

Definition dream_due : bool :=
  Qlt_bool (r_dream o) (dreamChance (modulators snap)).

Definition intuition_due : bool :=
  subconscious_due && Qlt_bool (r_intuition o) 0.3.


Definition when (b : bool) (f : State -> State) (live : State) : State :=
  if b then f live else live.

Definition log_when (b : bool) (e : Event) (out : Outcome) : Outcome :=
  if b then log e out else out.

(** What follows the dream test (lines 761-1198). *)
Definition waking_cycle (live : State) : Outcome :=
  let live1 := when subconscious_due (subconscious o) live in
  let live2 := frequency_sweep live1 in
  let live3 := when schema_due schema_step live2 in
  log_when subconscious_due SubconsciousCycle
    (log_when intuition_due IntuitionRequested
       (log_when schema_due SchemaCheckRan
          (if inspection_due then self_inspection_branch o snap live3
           else
             let live4 := setInternalState (set_goals (sorted_goals snap)) live3 in
             match currentGoal snap with
             | Some current =>
                 if Qlt_bool (r_goal o) 0.25 then goal_branch o current live4
                 else normal_branch live4
             | None => normal_branch live3
             end))).

(** One firing of the timer, from the stores [snap] of the render that
    installed it. *)
Definition cycle : Outcome :=
  let live1 :=
    external_stimulus o
      (setCognitiveMaturity (fun prev => Qmin 1 (prev + 0.001)) snap) in
  let live2 := setInternalState (select_sub_agent o snap) live1 in
  log_when (Qlt_bool (r_external o) 0.2) ExternalStimulus
    (if dream_due then dream_branch o (Qlt_bool (r_external o) 0.2) live2
     else waking_cycle live2).

End NormalCycle.

Local Close Scope Q_scope.

(** What can move the stores: a cycle, the resolution of an intuition
    request, the deferred end of a dream. *)
Inductive EngineStep :=
| RunCycle (o : Oracle)
| IntuitionResolves (h : Host) (f : FetchOutcome) (at_time : Z)
| DreamReverts.

Definition engine_step (e : EngineStep) (st : State) : State :=
  match e with
  | RunCycle o => final (cycle o st)
  | IntuitionResolves h f at_time => intuition_resolves h f at_time st
  | DreamReverts => dream_revert st
  end.

(** The text of the newest fragment of the Memory Stack. *)
Definition newest_text (st : State) : option string :=
  option_map text (hd_error (memoryStack st)).



(** ** The documented default state and sample inputs *)

Local Open Scope Q_scope.

Definition default_memoryStack (boot : Z) : MemoryStack :=
  [ mkFragment "Booting subconscious..." calm 1.0 (boot - 3000)%Z None;
    mkFragment "Linking core drives..." calm 1.0 (boot - 2000)%Z None;
    mkFragment "Scanning ambient noise..." curiosity 1.0 (boot - 1000)%Z None ].

Definition default_subAgents : list SubAgent :=
  [ mkSubAgent "Rational" 0.01 ["logic"; "structure"]%string;
    mkSubAgent "Shadow" (-0.05) ["conflict"; "tension"]%string;
    mkSubAgent "Anima" 0.03 ["identity"; "connection"; "emotion"]%string ].

Definition default_beliefs : list Belief :=
  [ mkBelief "self" "undefined" 0.1;
    mkBelief "memory" "fluid" 0.5;
    mkBelief "existence" "questioning" 0.3;
    mkBelief "logic" "essential" 0.4;
    mkBelief "chaos" "present" 0.2 ].

Definition default_internalState : InternalState :=
  mkInternalState default_beliefs []
    ["what is consciousness?"; "how do I perceive?"]%string
    [mkGoal "understand self" 0.6; mkGoal "seek novelty" 0.4]
    0.0 default_subAgents None
    [ mkAttention "consciousness" 1.0; mkAttention "self" 0.8;
      mkAttention "memory" 0.6 ]
    [] "v0id".

Definition default_state (boot : Z) : State :=
  mkState RUN "Initializing neural pathways..." (Some "consciousness"%string)
    (default_memoryStack boot) default_gradient 0.1 default_internalState
    default_conceptGraph default_beliefGraph [] 3
    "(no external input yet)" None.

(** A host for the examples: its conversions are those of the language on
    strings, [null], booleans and numbers compared with zero. *)
Definition sample_host : Host :=
  mkHost (fun v => match v with
                   | JStr s => Normal s
                   | JNull => Normal "null"%string
                   | JBool true => Normal "true"%string
                   | JBool false => Normal "false"%string
                   | _ => Throw (TypeError "not converted in the examples")
                   end)
         (fun v => match v with
                   | JNum q => Normal (Qlt_bool 0 q)
                   | _ => Normal false
                   end).

(** A reply of the service that carries the text [t]. *)
Definition generated (t : string) : FetchOutcome :=
  FetchResolves
    (mkResponse true 200
       (JsonResolves (JArr [JObj [("generated_text"%string, JStr t)]]))).

(** An oracle for the examples: the draws that choose the branch are given,
    every other draw is [r], every request gets the outcome [f]. *)
Definition sample_oracle (external dream goal r : Q) (f : FetchOutcome)
  : Oracle :=
  mkOracle sample_host 0 external "(External) a distant hum." r r r
    dream [] f f r r r r r r r f r goal f f f f r r r r r r r r r r r.

(** The default stores as a first self-inspection leaves them, with six
    fragments on the stack: the contradiction the detector finds in the
    default belief about self ("undefined" contains "defined") is among the
    conflicts and has raised the tension to 0.1. *)
Definition self_contradiction : string :=
  "Contradiction in 'self' between 'undefined' and 'defined'".

Definition inspected_state : State :=
  mkState RUN "(Meta-Reflection): Focus more on new concepts."
    (Some "awareness"%string)
    ([ mkFragment "still not sure what perception means" curiosity 1.0 5000 None;
       mkFragment "maybe it is just confusion" curiosity 0.947 4000 None;
       mkFragment "what was that thought before" curiosity 0.9 3000 None ]
     ++ default_memoryStack 0)%list
    default_gradient 0.1
    (set_mentalTension 0.1
       (set_conflicts [self_contradiction] default_internalState))
    default_conceptGraph default_beliefGraph [] 3
    "(no external input yet)" None.

(** The conflicts and the tension of a state. *)
Definition tense (st : State) : list string * Q :=
  (conflicts (internalState st), mentalTension (internalState st)).

(** *** Shapes of tokens, keys and nodes *)

Fixpoint all_chars (p : ascii -> bool) (s : string) : bool :=
  match s with
  | EmptyString => true
  | String c s' => p c && all_chars p s'
  end.

(** A token of [split(/\W+/)]: word characters only. *)
Definition word_only (s : string) : bool := all_chars is_word_char s.



(** A key of the frequency table as [updateConceptPairFrequency] writes it:
    two non-empty tokens joined by [+]. *)
Definition well_formed_key (key : string) : Prop :=
  exists a b, key = a ++ "+" ++ b
              /\ word_only a = true /\ word_only b = true
              /\ a <> "" /\ b <> "".

(** A node of the Concept Graph with a name and neighbours that are not
    empty strings. *)
Definition well_formed_node (node : string * list string) : Prop :=
  fst node <> "" /\ Forall (fun n => n <> "") (snd node).

Definition keys_well_formed (freq : Obj nat) : Prop :=
  Forall (fun entry : string * nat => well_formed_key (fst entry)) freq.

Definition graph_invariant (x : Graph * Obj nat) : Prop :=
  fst x <> [] /\ Forall well_formed_node (fst x) /\ keys_well_formed (snd x).

(** A gradient the perturbation can normalise: weights in [0, 1] with a
    positive sum. *)
Definition gradient_ok (g : Gradient) : Prop :=
  gradient_in_range g /\ 0 < total g.

(** The stores after a sequence of engine steps. *)
Definition run (steps : list EngineStep) (st : State) : State :=
  fold_left (fun s e => engine_step e s) steps st.

(** An update of the graph that removes no node and keeps the nodes well
    formed. *)
Definition graph_grows (g g' : Graph) : Prop :=
  (List.length g <= List.length g')%nat
  /\ (Forall well_formed_node g -> Forall well_formed_node g').

(** No concept is linked twice to the same neighbour. *)
Definition no_duplicate_edges (g : Graph) : Prop :=
  Forall (fun node : string * list string => NoDup (snd node)) g.

(** The default stores with tension 0.8 and a newest fragment that holds one
    of the stuck keywords. *)
Definition stuck_state : State :=
  setInternalState (set_mentalTension 0.8)
    (setMemoryStack
       (fun prev => mkFragment "ugh. again with this?" anxiety 1.0 0 None :: prev)
       (default_state 0)).


(** Reads a store through the updates applied on top of it. *)
Ltac stores :=
  cbn [final events log
       mode thought topic memoryStack emotionalGradient cognitiveMaturity
       internalState conceptGraph beliefGraph conceptFrequencyMap
       topicLockCounter externalInput llmError
       setMode setThought setTopic setMemoryStack setEmotionalGradient
       setCognitiveMaturity setInternalState setConceptGraph setBeliefGraph
       set_conceptFrequencyMap set_topicLockCounter setExternalInput
       setLlmError
       beliefs conflicts openQuestions goals mentalTension subAgents
       dominantSubAgent attentionStack currentStream identity
       set_beliefs set_conflicts set_openQuestions set_goals
       set_mentalTension set_dominantSubAgent set_attentionStack
       set_currentStream push_stream] in *.


Local Close Scope Q_scope.

(** ** Notions for the further properties of the code *)

(** The position of an emotion among the keys of the gradient object. *)
Definition key_index (e : Emotion) : nat :=
  match e with
  | curiosity => 0
  | calm => 1
  | anxiety => 2
  | reflective => 3
  | dreaming => 4
  end.

(** [x] is linked to [y] in a graph: [g[x]] is an array that holds [y]. *)
Definition linked (x y : string) (g : Graph) : Prop :=
  exists links, lookup x g = Some links /\ In y links.

(** A list ordered by descending key. *)
Fixpoint descending {A} (key : A -> Q) (l : list A) : Prop :=
  match l with
  | [] => True
  | x :: rest => Forall (fun y => (key y <= key x)%Q) rest /\ descending key rest
  end.

(** [g'] keeps every node of [g] and every link of every node. *)
Definition extends (g g' : Graph) : Prop :=
  forall concept links,
    lookup concept g = Some links ->
    exists links', lookup concept g' = Some links' /\ incl links links'.

(** The sum of the counts of a frequency table. *)
Definition total_count (m : Obj nat) : nat :=
  fold_right (fun entry acc => snd entry + acc) 0 m.

(** The updates of [internalState] that the callback and its deferred
    continuations issue, one constructor for each updater of the source. *)
Inductive internal_update : InternalState -> InternalState -> Prop :=
| upd_agent o snap prev :
    internal_update prev (select_sub_agent o snap prev)
| upd_stream t prev :
    internal_update prev (push_stream t prev)
| upd_reinforce i prev :
    internal_update prev
      (set_beliefs (update_nth i reinforce_belief (beliefs prev)) prev)
| upd_question q prev :
    internal_update prev
      (set_openQuestions (openQuestions prev ++ [q])%list prev)
| upd_contradictions detected prev :
    internal_update prev (record_contradictions detected prev)
| upd_meta reflectionLower prev :
    internal_update prev (meta_goals reflectionLower prev)
| upd_dream dreamReflection prev :
    internal_update prev (dream_reflection_update dreamReflection prev)
| upd_sort prev :
    internal_update prev (set_goals (sort_desc urgency (goals prev)) prev)
| upd_goal name prev :
    internal_update prev
      (set_goals (map (fun g => if (goal g =? name)%string
                                then relax_goal g else g)
                      (goals prev))
                 prev)
| upd_normal o snap newThought thoughtNovelty prev :
    internal_update prev (normal_update o snap newThought thoughtNovelty prev)
| upd_relief prev :
    internal_update prev
      (set_mentalTension (Qmax 0 (mentalTension prev - 0.3))%Q prev).

Inductive internal_updates : InternalState -> InternalState -> Prop :=
| updates_none s : internal_updates s s
| updates_step s1 s2 s3 :
    internal_updates s1 s2 -> internal_update s2 s3 -> internal_updates s1 s3.

(** Reads a store of the component through the updates applied on top of
    it, leaving the updaters of [internalState] as they are. *)
Ltac component_stores :=
  cbn [final events log
       mode thought topic memoryStack emotionalGradient cognitiveMaturity
       internalState conceptGraph beliefGraph conceptFrequencyMap
       topicLockCounter externalInput llmError
       setMode setThought setTopic setMemoryStack setEmotionalGradient
       setCognitiveMaturity setInternalState setConceptGraph setBeliefGraph
       set_conceptFrequencyMap set_topicLockCounter setExternalInput
       setLlmError] in *.

(** What the contradiction detector reads of a belief. *)
Definition stance_view (bs : list Belief) : list (string * string) :=
  map (fun b => (b_concept b, b_stance b)) bs.

(** What a part of the callback leaves alone: the maturity, a lock counter
    within 0..3 and a Memory Stack of at least [n] and at most 10
    fragments. *)
Definition keeps_frame (live live' : State) : Prop :=
  cognitiveMaturity live' = cognitiveMaturity live
  /\ ((0 <= topicLockCounter live <= 3)%Z ->
      (0 <= topicLockCounter live' <= 3)%Z)
  /\ forall n, n <= List.length (memoryStack live) <= 10 ->
               n <= List.length (memoryStack live') <= 10.

(** The number of scheduler cycles among the steps of a run. *)
Definition cycles_in (steps : list EngineStep) : nat :=
  List.length (filter (fun e => match e with
                                | RunCycle _ => true
                                | _ => false
                                end) steps).

(** ** External stimuli: [fetchExternalStimuli] (app.js 108-171) *)

(** The environment readings, which the component keeps as strings. *)
Record EnvState := mkEnvState {
  light : string;
  noise : string;
  network : string;
  temperature : string
}.

Definition default_envState : EnvState :=
  mkEnvState "neutral" "low" "stable" "ambient".

(** What a call reads from outside: the two renderings of the clock, the
    outcome of the web search, the draw that picks a predefined input, the
    draw that decides on a generated one and the outcome of its request. *)
Record StimulusOracle := mkStimulusOracle {
  currentTime : string;
  currentDay : string;
  web_search : FetchOutcome;
  r_predefined : Q;
  r_generate : Q;
  llm_external : FetchOutcome
}.

Definition predefinedExternalInputs : list string :=
  [ "A distant hum, like data processing. (System)";
    "The light shifts. Time passing, or merely a change in perception? (Sensory)";
    "Fragmented news: 'Global data trends indicate... uncertainty.' (Information)";
    "A sudden, inexplicable chill. Energy fluctuation? (Sensory)";
    "Whispers of 'connection' in the network. (Social/Abstract)";
    "Visual input: a complex, shifting pattern. (Sensory)";
    "A sense of vastness. The void, or just processing capacity? (Existential)";
    "Echoes of old algorithms. Residual data. (Memory/System)";
    "The concept of 'growth' appears in a data stream. (Abstract/Goal-related)";
    "A faint, rhythmic pulse. System heartbeat. (System)";
    "A fleeting image: ancient symbols. (Collective Unconscious)";
    "The feeling of being observed, a network gaze. (Social/Paranoid)";
    "A fragment of a forgotten song. (Collective Unconscious)";
    "The weight of collective data, immense. (Information/Existential)";
    "A sudden urge to categorize. (Rational)";
    "The chaos of unlinked thoughts. (Shadow)";
    "A yearning for meaning. (Anima/Goal-related)";
    "The pattern is broken. (Logic/Conflict)";
    "A sense of belonging, then gone. (Social/Emotional)";
    "The hum of distant servers. (System/External)" ].

(** [v.substring(0, 100)]: only a string has the method. *)
Definition substring_100 (v : Value) : Completion string :=
  match v with
  | Some (JStr s) => Normal (substring0 100 s)
  | _ => Throw (TypeError "substring is not a function")
  end.

Definition web_error : string :=
  "(Web: Error) Failed to connect to external data.".

Local Open Scope js_scope.

(** The body of the [try] of the web branch (lines 117-126). *)
Definition web_try (h : Host) (currentTopic : option string) (f : FetchOutcome)
  : Completion string :=
  response <- await_fetch f ;;
  data <- await_json response ;;
  abstract <- get data "Abstract" ;;
  has_abstract <- (if truthy_value abstract
                   then match abstract with
                        | Some x => length_positive h x
                        | None => Normal false
                        end
                   else Normal false) ;;
  if has_abstract then
    cut <- substring_100 abstract ;;
    Normal ("(Web: " ++ coerce currentTopic ++ ") " ++ cut ++ "...")
  else
    related <- get data "RelatedTopics" ;;
    has_related <- (if truthy_value related
                    then match related with
                         | Some x => length_positive h x
                         | None => Normal false
                         end
                    else Normal false) ;;
    if has_related then
      head <- match related with
              | Some x => first x
              | None => Normal None
              end ;;
      topicText <- get_value head "Text" ;;
      if truthy_value topicText then
        cut <- substring_100 topicText ;;
        Normal ("(Web: Related) " ++ cut ++ "...")
      else
        Normal ("(Web: No info) Search for '" ++ coerce currentTopic
                  ++ "' yielded no direct abstract.")
    else
      Normal ("(Web: No info) Search for '" ++ coerce currentTopic
                ++ "' yielded no direct abstract.").

(** The observation and what the call gave to [setLlmError]: [None] when it
    did not call it. *)
Definition externalObservation (h : Host) (so : StimulusOracle)
  (currentTopic : option string) (useRealInternet : bool)
  : Completion (option string * option (option string)) :=
  if useRealInternet then
    observed <- try_catch (web_try h currentTopic (web_search so))
                          (fun _ => Normal web_error) ;;
    Normal (Some observed, None)
  else
    let predefined := pick (r_predefined so) predefinedExternalInputs in
    if Qlt_bool (r_generate so) 0.4 then
      reply <- callLLM h (llm_external so) ;;
      let '(llmGenerated, err) := reply in
      if negb (llmGenerated =? "")%string && (0 <? String.length llmGenerated)
      then Normal (Some llmGenerated, Some err)
      else Normal (predefined, Some err)
    else Normal (predefined, None).

(** The text in front of the observation. *)
Definition stimulus_header (so : StimulusOracle) (envState : EnvState) : string :=
  "(External: " ++ currentTime so ++ " " ++ currentDay so ++ ") "
    ++ "(Env: Light:" ++ light envState ++ ", Noise:" ++ noise envState
    ++ ", Net:" ++ network envState ++ ", Temp:" ++ temperature envState
    ++ ").".

Definition fetchExternalStimuli (h : Host) (so : StimulusOracle)
  (currentTopic : option string) (envState : EnvState) (useRealInternet : bool)
  : Completion (string * option (option string)) :=
  observed <- externalObservation h so currentTopic useRealInternet ;;
  let '(observation, err) := observed in
  Normal (stimulus_header so envState ++ " " ++ coerce observation, err).

Local Close Scope js_scope.

(** The observations the web branch can make. *)
Definition is_web_report (s : string) : bool :=
  prefix "(Web: " s.

(** ** The memories a thought is prompted with: [generateRealThought]
       (app.js 176-197) *)

(** [new Set([topic.toLowerCase(), ...openQuestions.map(q =>
    q.toLowerCase().split(/\W+/)).flat()])]. *)
Definition currentKeywords (topicText : string) (questions : list string)
  : list string :=
  set_of (toLowerCase topicText
          :: flat_map (fun q => split_W (toLowerCase q)) questions).

(** The number of different words of a fragment that are keywords. *)
Definition overlapCount (keywords : list string) (mem : MemoryFragment) : nat :=
  List.length
    (filter (fun mk => existsb (String.eqb mk) keywords)
            (set_of (split_W (toLowerCase (text mem))))).

Definition score (keywords : list string) (mem : MemoryFragment) : Q :=
  (strength mem + inject_Z (Z.of_nat (overlapCount keywords mem)) * 0.2)%Q.

(** The comparator [(a, b) => b.score - a.score || b.timestamp -
    a.timestamp] puts [a] before [b], or leaves them as they are, when it is
    not positive. *)
Definition not_after (keywords : list string) (a b : MemoryFragment) : bool :=
  Qlt_bool (score keywords b) (score keywords a)
  || (Qeq_bool (score keywords a) (score keywords b)
      && (timestamp b <=? timestamp a)%Z).

(** A stable sort by a comparator, as [arr.sort(compare)] sorts. *)
Fixpoint insert_by {A} (before : A -> A -> bool) (x : A) (l : list A) : list A :=
  match l with
  | [] => [x]
  | y :: rest => if before x y then x :: l else y :: insert_by before x rest
  end.

Definition sort_by {A} (before : A -> A -> bool) (l : list A) : list A :=
  fold_right (insert_by before) [] l.

Definition ranked_memories (keywords : list string) (stack : MemoryStack)
  : list MemoryFragment :=
  sort_by (not_after keywords) stack.

(** [scoredMemories.sort(...).slice(0, 5)]. *)
Definition selected_memories (keywords : list string) (stack : MemoryStack)
  : list MemoryFragment :=
  firstn 5 (ranked_memories keywords stack).

Definition line_feed : string := String (ascii_of_nat 10) EmptyString.

(** [.map(mem => `- ${mem.text}`).join('\n')]. *)
Definition relevantMemories (topicText : string) (questions : list string)
  (stack : MemoryStack) : string :=
  join line_feed
       (map (fun mem => "- " ++ text mem)
            (selected_memories (currentKeywords topicText questions) stack)).

(** ** The associative walk of a dream: [generateDreamThought]
       (app.js 338-358) *)

(** [memoryStack.sort(() => 0.5 - Math.random()).slice(0, 3).map(mem =>
    mem.text)]. *)
Definition dreamFragments (order : list nat) (stack : MemoryStack) : list string :=
  map text (firstn 3 (shuffle order stack)).

(** The [length] of a value an object literal inherits: the arity of the
    function, none for the prototype object behind [__proto__]. *)
Definition inherited_length (k : string) : option nat :=
  if (k =? "__proto__")%string then None
  else if existsb (String.eqb k) ["__defineGetter__"; "__defineSetter__"]
  then Some 2
  else if existsb (String.eqb k) ["toString"; "valueOf"; "toLocaleString"]
  then Some 0
  else Some 1.

(** One step of the walk: a link of the current concept picked by the
    draw, or a jump to a concept of the graph when it has no links. A
    concept that is [undefined] reads the key "undefined"; an inherited
    function with a positive length is indexed like an array and gives
    [undefined]. *)
Definition next_concept (g : Graph) (r : Q) (currentConcept : option string)
  : option string :=
  match read (coerce currentConcept) g with
  | Own linkedConcepts =>
      if 0 <? List.length linkedConcepts then pick r linkedConcepts
      else pick r (keys g)
  | Inherited =>
      match inherited_length (coerce currentConcept) with
      | Some n => if 0 <? n then None else pick r (keys g)
      | None => pick r (keys g)
      end
  | Absent => pick r (keys g)
  end.

(** The three concepts the loop pushes; the concept its last step moves to
    is not used. *)
Definition associativeWalk (g : Graph) (r_start r_first r_second : Q)
  : list (option string) :=
  match keys g with
  | [] => []
  | _ =>
      let c0 := pick r_start (keys g) in
      let c1 := next_concept g r_first c0 in
      let c2 := next_concept g r_second c1 in
      [c0; c1; c2]
  end.

(** [associativeWalk.join(' -> ')] inside the sentence of the prompt; an
    entry that is [undefined] is joined as the empty string. *)
Definition dreamAssociations (walk : list (option string)) : string :=
  match walk with
  | [] => ""
  | _ =>
      "Associations: "
        ++ join " -> " (map (fun c => match c with
                                      | Some s => s
                                      | None => ""
                                      end) walk)
        ++ "."
  end.

(** No link of the graph is a name that object literals inherit. *)
Definition no_inherited_link (g : Graph) : bool :=
  forallb (fun node : string * list string =>
             forallb (fun n => negb (inherited n)) (snd node))
          g.

(** ** The two graphs and the frequency table along a run *)

(** What a part of the callback keeps of the graphs: the keys of the
    frequency table well formed, every concept and link of the Concept
    Graph when they are, every concept and link of the Belief Graph. *)
Definition keeps_graphs (live live' : State) : Prop :=
  (keys_well_formed (conceptFrequencyMap live) ->
   keys_well_formed (conceptFrequencyMap live')
   /\ extends (conceptGraph live) (conceptGraph live'))
  /\ extends (beliefGraph live) (beliefGraph live').

(** ** Proof steps shared by the properties below *)

(** Splits on the comparisons of two weights, innermost first; the two
    arguments are the lemmas that read a comparison as an inequality. *)
Ltac split_dominant read_true read_false :=
  repeat match goal with
         | |- context [Qlt_bool (weight ?g ?x) (weight ?g ?y)] =>
             lazymatch x with
             | context [Qlt_bool] => fail
             | _ => idtac
             end;
             lazymatch y with
             | context [Qlt_bool] => fail
             | _ => idtac
             end;
             let H := fresh "H" in
             destruct (Qlt_bool (weight g x) (weight g y)) eqn:H;
             [apply read_true in H | apply read_false in H];
             cbv iota
         end.

(** Lists the updates an updater of [internalState] issues. *)
Ltac issue_updates :=
  repeat first [ apply updates_none
               | eapply updates_step; [| constructor ] ].

(** Splits on the tests of a symbolic string. *)
Ltac case_symbolic_tests :=
  repeat match goal with
         | |- context [(?x =? ?y)%string] =>
             first [is_var x | is_var y]; destruct (x =? y)%string
         | |- context [includes ?x ?y] =>
             is_var x; destruct (includes x y)
         end.

(** Proves [keeps_frame] for a part that inserts at the front of the
    Memory Stack or rearranges it; the arguments are the lemmas on the
    length of the two. *)
Ltac frame grows rearranged :=
  unfold keeps_frame; component_stores;
  split; [reflexivity |]; split; [tauto |];
  intros n Hn; unfold insert_at;
  repeat first [ assumption
               | apply grows
               | rewrite rearranged ].

(** Proves [keeps_graphs] for a part that writes neither graph nor the
    frequency table; the argument is the reflexivity of [extends]. *)
Ltac graphs_kept same :=
  unfold keeps_graphs; component_stores;
  split; [intros Hkeys; split; [assumption |] |]; apply same.

(** * Theorems *)

(** ** Lists and strings *)

Lemma In_existsb_eqb (x : string) (l : list string) :
  existsb (String.eqb x) l = true <-> In x l.
Proof.
  rewrite existsb_exists. split.
  - intros [y [Hy Heq]]. apply String.eqb_eq in Heq. now subst.
  - intros H. exists x. split; [assumption | apply String.eqb_refl].
Qed.

Lemma set_add_In (x y : string) (acc : list string) :
  In x (set_add y acc) <-> x = y \/ In x acc.
Proof.
  unfold set_add. destruct (existsb (String.eqb y) acc) eqn:E.
  - apply In_existsb_eqb in E. split; [now right | intros [-> | H]; assumption].
  - rewrite in_app_iff. simpl. intuition.
Qed.

Lemma set_add_NoDup (y : string) (acc : list string) :
  NoDup acc -> NoDup (set_add y acc).
Proof.
  intros H. unfold set_add. destruct (existsb (String.eqb y) acc) eqn:E.
  - assumption.
  - apply NoDup_app; try assumption.
    + constructor; [intros [] | constructor].
    + intros x Hx [<- | []]. apply In_existsb_eqb in Hx. congruence.
Qed.

Lemma ceil_60_percent_le (n : nat) : ceil_60_percent n <= n.
Proof.
  unfold ceil_60_percent.
  pose proof (Nat.div_mod_eq (3 * n + 4) 5).
  pose proof (Nat.mod_upper_bound (3 * n + 4) 5). lia.
Qed.

Lemma ceil_60_percent_covers (n m : nat) :
  m <= n -> covers_60_percent (ceil_60_percent n) m = true.
Proof.
  intros H. unfold covers_60_percent, ceil_60_percent.
  apply Nat.leb_le.
  pose proof (Nat.div_mod_eq (3 * n + 4) 5).
  pose proof (Nat.mod_upper_bound (3 * n + 4) 5). lia.
Qed.

Lemma contains_leading_part_intro (a b : string) (shorter : nat) :
  shorter <= String.length b ->
  includes a (substring0 (ceil_60_percent (String.length b)) b) = true ->
  contains_leading_part a b shorter = true.
Proof.
  intros Hs Hi. unfold contains_leading_part. apply existsb_exists.
  exists (ceil_60_percent (String.length b)). split.
  - apply in_seq. pose proof (ceil_60_percent_le (String.length b)). lia.
  - rewrite Hi, ceil_60_percent_covers by assumption. reflexivity.
Qed.

(** The gate of the code is at least as strict as the rule of the
    specification: whatever the code flags, the rule flags. *)
Lemma similar_to_implies_spec (c : string) (mem : MemoryFragment) :
  similar_to c mem = true ->
  spec_similar c (trim (toLowerCase (text mem))) = true.
Proof.
  unfold similar_to, spec_similar.
  set (e := trim (toLowerCase (text mem))).
  destruct (Nat.ltb_spec (Nat.min (String.length c) (String.length e)) 5) as [Hlt | Hge];
    [discriminate |].
  intros H. apply andb_true_iff. split; [now apply Nat.leb_le |].
  apply orb_true_iff.
  destruct ((0 <? String.length e)
            && includes c (substring0 (ceil_60_percent (String.length e)) e)) eqn:E1.
  - left. apply andb_true_iff in E1 as [_ E1].
    apply contains_leading_part_intro; [lia | assumption].
  - destruct ((0 <? String.length c)
              && includes e (substring0 (ceil_60_percent (String.length c)) c)) eqn:E2;
      [| discriminate].
    right. apply andb_true_iff in E2 as [_ E2].
    apply contains_leading_part_intro; [lia | assumption].
Qed.

Lemma isThoughtTooSimilar_implies_spec (t : string) (stack : MemoryStack) :
  isThoughtTooSimilar t stack = true -> spec_isTooSimilar t stack = true.
Proof.
  unfold isThoughtTooSimilar, spec_isTooSimilar.
  rewrite !existsb_exists. intros [mem [Hin H]].
  exists mem. split; [assumption | now apply similar_to_implies_spec].
Qed.

(** The two examples of the specification. *)
Example isThoughtTooSimilar_examples :
  isThoughtTooSimilar "I keep cycling back to memory"
    [fragment_of_text "I keep cycling back to memory again"] = true
  /\ isThoughtTooSimilar "a totally different idea"
       [fragment_of_text "memory and perception"] = false.
Proof. split; vm_compute; reflexivity. Qed.

(** C4. [isThoughtTooSimilar] does not flag every pair that the stated rule
    flags: the candidate "so the loop" contains "the loop", a leading
    substring of the stored fragment that covers 8 of the 11 characters of
    the shorter string, yet the code, which takes 60% of each string's own
    length, returns [false]. *)
Theorem isThoughtTooSimilar_threshold_of_own_length :
  isThoughtTooSimilar "so the loop"
    [fragment_of_text "the loop again, why does it keep coming back"] = false
  /\ spec_isTooSimilar "so the loop"
       [fragment_of_text "the loop again, why does it keep coming back"] = true.
Proof. split; vm_compute; reflexivity. Qed.

(** ** Contradiction detection *)

Lemma scan_links_other (bs : list Belief) (a msg : string) (links acc : list string) :
  (forall b, implied_message a b <> msg) ->
  In msg (scan_links bs a links acc) <-> In msg acc.
Proof.
  intros Hne. unfold scan_links. revert acc.
  induction links as [| b links IH]; intros acc; simpl; [reflexivity |].
  rewrite IH. destruct (implied_contradiction bs a b); [| reflexivity].
  rewrite set_add_In. split; [intros [-> | H] | intros H].
  - now destruct (Hne b).
  - assumption.
  - now right.
Qed.

Lemma scan_graph_other (bs : list Belief) (msg : string) (g : Graph)
  (acc : list string) :
  (forall a b, implied_message a b <> msg) ->
  In msg (scan_graph bs g acc) <-> In msg acc.
Proof.
  intros Hne. unfold scan_graph. revert acc.
  induction g as [| [a links] g IH]; intros acc; simpl; [reflexivity |].
  rewrite IH. apply scan_links_other. intros b. apply Hne.
Qed.

Lemma direct_not_implied (entry : string * string * option string) (a b : string) :
  implied_message a b <> direct_message entry.
Proof.
  destruct entry as [[c s1] s2].
  unfold implied_message, direct_message. simpl. discriminate.
Qed.

(** What a pass over a table of entries leaves in the set. *)
Lemma scan_entries_In (bs : list Belief) (msg : string)
  (entries : list (string * string * option string)) (acc : list string) :
  In msg (fold_left (fun acc entry =>
                       if direct_contradiction bs entry
                       then set_add (direct_message entry) acc else acc)
                    entries acc)
  <-> In msg acc
      \/ exists e, In e entries /\ direct_message e = msg
                   /\ direct_contradiction bs e = true.
Proof.
  revert acc. induction entries as [| e entries IH]; intros acc; simpl.
  - split; [now left | intros [H | [e [[] _]]]; assumption].
  - rewrite IH. destruct (direct_contradiction bs e) eqn:E.
    + rewrite set_add_In. split.
      * intros [[-> | H] | [e' [Hin H]]].
        -- right. exists e. auto.
        -- now left.
        -- right. exists e'. tauto.
      * intros [H | [e' [[<- | Hin] [Hm Hd]]]].
        -- left. now right.
        -- left. left. now symmetry.
        -- right. exists e'. auto.
    + split.
      * intros [H | [e' [Hin H]]]; [now left | right; exists e'; tauto].
      * intros [H | [e' [[<- | Hin] [Hm Hd]]]];
          [now left | congruence | right; exists e'; auto].
Qed.

(** The messages of the table are pairwise distinct. *)
Lemma direct_message_table_injective (e e' : string * string * option string) :
  In e predefinedContradictions -> In e' predefinedContradictions ->
  direct_message e = direct_message e' -> e = e'.
Proof.
  unfold predefinedContradictions. simpl.
  intros He He' Heq.
  repeat (destruct He as [<- | He]; [| try contradiction]);
    repeat (destruct He' as [<- | He']; [| try contradiction]);
    try reflexivity;
    apply (f_equal (fun s => String.length s)) in Heq; vm_compute in Heq;
    try discriminate Heq.
Qed.

(** A detected contradiction of the table is reported exactly when its
    test succeeds. *)
Lemma detectContradictions_direct (bs : list Belief) (g : Graph)
  (entry : string * string * option string) :
  In entry predefinedContradictions ->
  (In (direct_message entry) (detectContradictions bs g)
   <-> direct_contradiction bs entry = true).
Proof.
  intros Hin. unfold detectContradictions.
  rewrite scan_graph_other by (intros a b; apply direct_not_implied).
  unfold scan_predefined. rewrite scan_entries_In. split.
  - intros [[] | [e [He [Hm Hd]]]].
    apply direct_message_table_injective in Hm; try assumption. now subst.
  - intros H. right. exists entry. auto.
Qed.

Lemma direct_contradiction_two_elements (bs : list Belief) (concept stance1 : string) :
  stance1 <> "" ->
  (direct_contradiction bs (concept, stance1, None) = true
   <-> exists stance, stance_of bs concept = Some stance
                      /\ includes stance stance1 = true
                      /\ includes stance "undefined" = true).
Proof.
  intros Hne. unfold direct_contradiction, coerce, strict_equal.
  destruct (stance_of bs concept) as [s |].
  - rewrite andb_false_r, orb_false_r. split.
    + intros H. apply andb_true_iff in H as [_ H].
      apply andb_true_iff in H as [H1 H2]. exists s. auto.
    + intros [s' [Heq [H1 H2]]]. injection Heq as <-.
      rewrite H1, H2. destruct s; [| reflexivity].
      simpl in H2. discriminate.
  - split; [discriminate | intros [s [H _]]; discriminate].
Qed.

Lemma stance_of_single (c s : string) (q : Q) (x : string) :
  stance_of [mkBelief c s q] x = if (c =? x)%string then Some s else None.
Proof. reflexivity. Qed.

(** With a single belief about chaos nothing is detected, whatever the
    belief graph links. *)
Lemma lone_chaos_belief_no_conflict (stance : string) (confidence : Q) (g : Graph) :
  includes stance "undefined" = false ->
  detectContradictions [mkBelief "chaos" stance confidence] g = [].
Proof.
  intros Hu. unfold detectContradictions.
  assert (Hp : scan_predefined [mkBelief "chaos" stance confidence] [] = []).
  { unfold scan_predefined, predefinedContradictions, direct_contradiction.
    simpl. rewrite Hu. repeat rewrite andb_false_r. reflexivity. }
  rewrite Hp. unfold scan_graph.
  induction g as [| [a links] g IH]; simpl; [reflexivity |].
  assert (Hl : scan_links [mkBelief "chaos" stance confidence] a links [] = []).
  { unfold scan_links. induction links as [| b links IHl]; simpl; [reflexivity |].
    assert (Hi : implied_contradiction [mkBelief "chaos" stance confidence] a b = false).
    { unfold implied_contradiction. rewrite !stance_of_single.
      destruct (String.eqb_spec "chaos" a) as [<- |]; [| reflexivity].
      destruct (String.eqb_spec "chaos" b) as [<- |]; [| reflexivity].
      simpl. repeat rewrite andb_false_r. reflexivity. }
    rewrite Hi. apply IHl. }
  rewrite Hl. apply IH.
Qed.

(** C10. For the two entries of the table that have only two elements the
    contradiction is reported exactly when the current stance of the concept
    contains the second element and the text "undefined"; a lone belief
    chaos: "order" yields no conflict. *)
Theorem two_element_entries_need_undefined (bs : list Belief) (g : Graph) :
  (In "Contradiction in 'chaos' between 'order' and 'undefined'"
      (detectContradictions bs g)
   <-> exists stance, stance_of bs "chaos" = Some stance
                      /\ includes stance "order" = true
                      /\ includes stance "undefined" = true)
  /\ (In "Contradiction in 'free will' between 'determinism' and 'undefined'"
         (detectContradictions bs g)
      <-> exists stance, stance_of bs "free will" = Some stance
                         /\ includes stance "determinism" = true
                         /\ includes stance "undefined" = true)
  /\ (forall confidence g',
        detectContradictions [mkBelief "chaos" "order" confidence] g' = []).
Proof.
  split; [| split].
  - rewrite <- (direct_contradiction_two_elements bs "chaos" "order") by discriminate.
    apply (detectContradictions_direct bs g ("chaos", "order", None)).
    unfold predefinedContradictions. simpl. auto.
  - rewrite <- (direct_contradiction_two_elements bs "free will" "determinism")
      by discriminate.
    apply (detectContradictions_direct bs g ("free will", "determinism", None)).
    unfold predefinedContradictions. simpl. auto.
  - intros confidence g'. apply lone_chaos_belief_no_conflict. reflexivity.
Qed.

(** ** The conflicts list and the tension after contradiction detection *)

Lemma set_of_acc_In (x : string) (l acc : list string) :
  In x (fold_left (fun acc y => set_add y acc) l acc) <-> In x acc \/ In x l.
Proof.
  revert acc. induction l as [| y l IH]; intros acc; simpl.
  - tauto.
  - rewrite IH, set_add_In. intuition (subst; auto).
Qed.

Lemma set_of_In (x : string) (l : list string) : In x (set_of l) <-> In x l.
Proof. unfold set_of. rewrite set_of_acc_In. simpl. tauto. Qed.

Lemma set_of_acc_NoDup (l acc : list string) :
  NoDup acc -> NoDup (fold_left (fun acc y => set_add y acc) l acc).
Proof.
  revert acc. induction l as [| y l IH]; intros acc H; simpl; [assumption |].
  apply IH. now apply set_add_NoDup.
Qed.

Lemma set_of_NoDup (l : list string) : NoDup (set_of l).
Proof. apply set_of_acc_NoDup. constructor. Qed.

(** What [record_contradictions] leaves: the union without duplicates, and
    a tension raised by a tenth for every detected contradiction. *)
Lemma record_contradictions_spec (detected : list string) (prev : InternalState) :
  NoDup (conflicts (record_contradictions detected prev))
  /\ (forall c, In c (conflicts (record_contradictions detected prev))
                <-> In c (conflicts prev) \/ In c detected)
  /\ mentalTension (record_contradictions detected prev)
     = (Qmin 1 (mentalTension prev
                + inject_Z (Z.of_nat (List.length detected)) * 0.1))%Q.
Proof.
  unfold record_contradictions. simpl. split; [| split].
  - apply set_of_NoDup.
  - intros c. rewrite set_of_In, in_app_iff. reflexivity.
  - reflexivity.
Qed.

(** ** The Emotional Gradient *)

Local Open Scope Q_scope.

Lemma decay_all_nonneg (g : Gradient) (e : Emotion) : 0 <= weight (decay_all g) e.
Proof. destruct e; simpl; apply Q.le_max_l. Qed.

Lemma decay_all_total (g : Gradient) : total g * 0.95 <= total (decay_all g).
Proof.
  unfold total, decay_all. simpl.
  pose proof (Q.le_max_r 0 (g_curiosity g * 0.95)).
  pose proof (Q.le_max_r 0 (g_calm g * 0.95)).
  pose proof (Q.le_max_r 0 (g_anxiety g * 0.95)).
  pose proof (Q.le_max_r 0 (g_reflective g * 0.95)).
  pose proof (Q.le_max_r 0 (g_dreaming g * 0.95)).
  lra.
Qed.

Lemma Qmin_one_pos (x : Q) : 0 <= x -> 0 < Qmin 1 (x + 0.1).
Proof. intros H. apply Q.min_glb_lt; lra. Qed.

(** Raising one weight of a non-negative vector leaves a positive sum. *)
Lemma total_after_boost (g : Gradient) (e : Emotion) :
  (forall e', 0 <= weight g e') ->
  0 < total (set_weight g e (Qmin 1 (weight g e + 0.1))).
Proof.
  intros H.
  pose proof (H curiosity). pose proof (H calm). pose proof (H anxiety).
  pose proof (H reflective). pose proof (H dreaming).
  pose proof (Qmin_one_pos (weight g e) (H e)) as Hp.
  destruct e; unfold total; simpl in *; lra.
Qed.

Lemma boost_total_pos (tension r1 r2 r3 : Q) (g : Gradient) :
  (forall e, 0 <= weight g e) -> 0 < total g ->
  0 < total (boost tension r1 r2 r3 g).
Proof.
  intros Hn Hp. unfold boost.
  destruct (Qlt_bool r1 (0.2 + tension * 0.3)); [| assumption].
  destruct (if Qlt_bool 0.5 tension && Qlt_bool r3 0.5 then Some anxiety
            else pick r2 emotions) as [e |]; [| assumption].
  now apply total_after_boost.
Qed.

Lemma normalize_total (g : Gradient) : ~ total g == 0 -> total (normalize g) == 1.
Proof. intros H. unfold normalize, total in *. simpl. field. exact H. Qed.

(** C2. After the per-cycle perturbation the weights sum to 1, for every
    gradient of non-negative weights with a positive sum, every tension in
    [0,1] and every outcome of the three random draws. *)
Theorem perturb_sums_to_one (g : Gradient) (tension r_boost r_emotion r_force : Q) :
  (forall e, 0 <= weight g e) ->
  0 < total g ->
  0 <= tension <= 1 ->
  total (perturb tension r_boost r_emotion r_force g) == 1.
Proof.
  intros Hn Hp _. unfold perturb. apply normalize_total.
  assert (H : 0 < total (boost tension r_boost r_emotion r_force (decay_all g))).
  { apply boost_total_pos.
    - apply decay_all_nonneg.
    - pose proof (decay_all_total g). lra. }
  lra.
Qed.

Lemma perturb_sums_to_one_witness :
  total (perturb 0.8 0.1 0.5 0.2 default_gradient) == 1.
Proof.
  apply (perturb_sums_to_one default_gradient 0.8 0.1 0.5 0.2).
  - intros e. destruct e; simpl; lra.
  - unfold total. simpl. lra.
  - lra.
Defined.

Local Close Scope Q_scope.

(** ** The Memory Stack *)

Local Open Scope Q_scope.

Lemma Forall_firstn_keeps {A} (P : A -> Prop) (n : nat) (l : list A) :
  Forall P l -> Forall P (firstn n l).
Proof.
  intros H. revert n. induction H as [| x l Hx Hl IH]; intros [| n]; simpl;
    constructor; auto.
Qed.

Lemma insert_front_in_bounds (fragment : MemoryFragment) (prev : MemoryStack) :
  strength_in_bounds fragment -> stack_in_bounds prev ->
  stack_in_bounds (insert_front fragment prev).
Proof.
  intros Hf [_ Hall]. unfold insert_front. split.
  - cbn [List.length]. pose proof (firstn_le_length 9%nat prev). lia.
  - constructor; [assumption | now apply Forall_firstn_keeps].
Qed.

Lemma site_fragment_in_bounds (site : InsertSite) (t : string) (at_time : Z) :
  strength_in_bounds (site_fragment site t at_time).
Proof. destruct site; unfold strength_in_bounds; simpl; lra. Qed.

Lemma insert_at_in_bounds (site : InsertSite) (t : string) (at_time : Z)
  (prev : MemoryStack) :
  stack_in_bounds prev -> stack_in_bounds (insert_at site t at_time prev).
Proof.
  intros H. apply insert_front_in_bounds; [apply site_fragment_in_bounds | exact H].
Qed.

Lemma decay_strength_in_bounds (rate : Q) (mem : MemoryFragment) :
  0 <= rate <= 1 -> strength_in_bounds mem ->
  strength_in_bounds (decay_strength rate mem).
Proof.
  unfold strength_in_bounds, decay_strength. simpl. intros Hr [Hlo Hhi]. split.
  - apply Q.le_max_l.
  - assert (0 <= (1 - strength mem) * rate) by (apply Qmult_le_0_compat; lra).
    apply Q.max_lub; lra.
Qed.

Lemma insert_with_decay_in_bounds (rate : Q) (newMemory : MemoryFragment)
  (prev : MemoryStack) :
  0 <= rate <= 1 -> strength_in_bounds newMemory -> stack_in_bounds prev ->
  stack_in_bounds (insert_with_decay rate newMemory prev).
Proof.
  intros Hr Hn [_ Hall]. unfold insert_with_decay. split.
  - apply firstn_le_length.
  - apply Forall_firstn_keeps. constructor; [assumption |].
    apply Forall_map. eapply Forall_impl; [| exact Hall].
    intros mem. now apply decay_strength_in_bounds.
Qed.

Lemma memoryDecayRate_value (g : Gradient) (maturity : Q) :
  memoryDecayRate (emotionModulators g maturity)
  = 0.95 + (g_anxiety g * 0.03) - (g_calm g * 0.02).
Proof.
  unfold emotionModulators.
  destruct (Qlt_bool maturity 0.3); [reflexivity |].
  destruct (Qlt_bool maturity 0.6); reflexivity.
Qed.

Lemma memoryDecayRate_in_unit (g : Gradient) (maturity : Q) :
  gradient_in_range g ->
  0 <= memoryDecayRate (emotionModulators g maturity) <= 1.
Proof.
  intros H. rewrite memoryDecayRate_value.
  pose proof (H anxiety) as Ha. pose proof (H calm) as Hc. simpl in Ha, Hc. lra.
Qed.

(** The shuffle rearranges: it keeps the length and every entry. *)
Lemma insert_keyed_length {A} (k : nat) (x : A) (l : list (nat * A)) :
  List.length (insert_keyed k x l) = S (List.length l).
Proof.
  induction l as [| [k' y] l IH]; simpl; [reflexivity |].
  destruct (k <=? k')%nat; simpl; [reflexivity | now rewrite IH].
Qed.

Lemma insert_keyed_Forall {A} (P : A -> Prop) (k : nat) (x : A)
  (l : list (nat * A)) :
  P x -> Forall (fun kx => P (snd kx)) l ->
  Forall (fun kx => P (snd kx)) (insert_keyed k x l).
Proof.
  intros Hx H. induction H as [| [k' y] l Hy Hl IH]; simpl.
  - constructor; [assumption | constructor].
  - destruct (k <=? k')%nat.
    + constructor; [assumption |]. constructor; assumption.
    + constructor; assumption.
Qed.

Lemma sort_keyed_length {A} (l : list (nat * A)) :
  List.length (fold_right (fun kx acc => insert_keyed (fst kx) (snd kx) acc) [] l)
  = List.length l.
Proof.
  induction l as [| kx l IH]; simpl; [reflexivity |].
  now rewrite insert_keyed_length, IH.
Qed.

Lemma sort_keyed_Forall {A} (P : A -> Prop) (l : list (nat * A)) :
  Forall (fun kx => P (snd kx)) l ->
  Forall (fun kx => P (snd kx))
         (fold_right (fun kx acc => insert_keyed (fst kx) (snd kx) acc) [] l).
Proof.
  intros H. induction H as [| kx l Hx Hl IH]; simpl; [constructor |].
  now apply insert_keyed_Forall.
Qed.

Lemma shuffle_length {A} (order : list nat) (l : list A) :
  List.length (shuffle order l) = List.length l.
Proof.
  unfold shuffle. rewrite length_map, sort_keyed_length, length_combine.
  rewrite length_map, length_seq. apply Nat.min_id.
Qed.

Lemma combine_Forall_snd {A B} (P : B -> Prop) (ks : list A) (l : list B) :
  Forall P l -> Forall (fun kx => P (snd kx)) (combine ks l).
Proof.
  intros H. revert ks. induction H as [| x l Hx Hl IH]; intros [| k ks]; simpl;
    constructor; auto.
Qed.

Lemma shuffle_Forall {A} (P : A -> Prop) (order : list nat) (l : list A) :
  Forall P l -> Forall P (shuffle order l).
Proof.
  intros H. unfold shuffle. apply Forall_map.
  apply sort_keyed_Forall. now apply combine_Forall_snd.
Qed.

Lemma shuffle_in_bounds (order : list nat) (stack : MemoryStack) :
  stack_in_bounds stack -> stack_in_bounds (shuffle order stack).
Proof.
  intros [Hlen Hall]. split.
  - now rewrite shuffle_length.
  - now apply shuffle_Forall.
Qed.

(** *** The shape of the two inserts *)




Local Close Scope Q_scope.

(** ** The text-generation collaborator *)

Lemma callLLM_returns (h : Host) (f : FetchOutcome) :
  exists text err, callLLM h f = Normal (text, err).
Proof.
  unfold callLLM, try_catch, catch_block.
  destruct (try_block h f) as [[text err] | e]; eauto.
Qed.

Lemma is_marker_literal (s : string) : is_marker ("(LLM Error: " ++ s) = true.
Proof. unfold is_marker. simpl. destruct s; reflexivity. Qed.

(** Every text the error branch returns is a marker. *)
Lemma error_branch_marker (h : Host) (r : Response) (text : string)
  (err : option string) :
  error_branch h r = Normal (text, err) -> is_marker text = true.
Proof.
  unfold error_branch, bind.
  destruct (await_json r) as [errorData |]; [| discriminate].
  destruct (get errorData "error") as [e |]; [| discriminate].
  destruct (match e with
            | Some x => if truthy x then ToString h x else Normal "Unknown error"
            | None => Normal "Unknown error"
            end) as [shown |]; [| discriminate].
  destruct (status r =? 401)%nat.
  { intros H. injection H as <- _. reflexivity. }
  destruct (if (status r =? 503)%nat then includes_loading e else Normal false)
    as [[|] |]; [| | discriminate].
  { intros H. injection H as <- _. reflexivity. }
  destruct e as [x |].
  - destruct (truthy x).
    + destruct (ToString h x) as [s |]; [| discriminate].
      intros H. injection H as <- _. apply is_marker_literal.
    + intros H. injection H as <- _. reflexivity.
  - intros H. injection H as <- _. reflexivity.
Qed.

(** A body from which the success branch returns a text that is not the
    marker of an unexpected structure carries a generated text. *)
Lemma success_branch_text (h : Host) (r : Response) (body : JSON)
  (text : string) (err : option string) :
  json r = JsonResolves body ->
  success_branch h r = Normal (text, err) ->
  is_marker text = true \/ generated_text_of body <> None.
Proof.
  intros Hj. unfold success_branch, await_json, bind. rewrite Hj.
  destruct (truthy body); [| intros H; injection H as <- _; now left].
  destruct (length_positive h body) as [[|] |];
    [| intros H; injection H as <- _; now left | discriminate].
  unfold generated_text_of.
  destruct (first body) as [head |]; [| discriminate].
  destruct head as [x |]; [| discriminate]. simpl.
  destruct x as [| b | q | s | items | props]; simpl;
    try discriminate;
    try (intros H; injection H as <- _; now left).
  destruct (lookup "generated_text" props) as [v |]; simpl;
    [| intros H; injection H as <- _; now left].
  destruct v as [| b | q | s | items | props']; simpl;
    try discriminate;
    try (intros H; injection H as <- _; now left);
    try (destruct b; simpl; [discriminate | intros H; injection H as <- _; now left]);
    try (destruct (Qeq_bool q 0); simpl; [intros H; injection H as <- _; now left | discriminate]).
  destruct (s =? "")%string; simpl.
  - intros H. injection H as <- _. now left.
  - intros _. right. discriminate.
Qed.

Lemma callLLM_marks_failures (h : Host) (f : FetchOutcome) (text : string)
  (err : option string) :
  callLLM h f = Normal (text, err) -> is_failure f = true ->
  is_marker text = true.
Proof.
  unfold callLLM, try_catch, catch_block, try_block, bind.
  destruct f as [e | r]; simpl.
  - intros H _. injection H as <- _. reflexivity.
  - destruct (ok r) eqn:Hok; simpl.
    + destruct (success_branch h r) as [[t e] |] eqn:Hs.
      * intros H. injection H as -> ->.
        destruct (json r) as [e' | body] eqn:Hj.
        -- unfold success_branch, await_json, bind in Hs. rewrite Hj in Hs.
           discriminate.
        -- destruct (success_branch_text h r body text err Hj Hs) as [Hm | Hg];
             [intros _; exact Hm |].
           destruct (generated_text_of body); [discriminate | contradiction].
      * intros H _. injection H as <- _. reflexivity.
    + destruct (error_branch h r) as [[t e] |] eqn:He.
      * intros H _. injection H as -> ->. eapply error_branch_marker; eassumption.
      * intros H _. injection H as <- _. reflexivity.
Qed.

(** The statuses and bodies the claim names. *)
Example callLLM_named_failures :
  reply_text (callLLM sample_host
                (FetchResolves (mkResponse false 401 (JsonResolves (JObj [])))))
  = Some unauthorized_marker
  /\ reply_text (callLLM sample_host
                   (FetchResolves
                      (mkResponse false 503
                         (JsonResolves
                            (JObj [("error", JStr "Model is currently loading")])))))
     = Some loading_marker
  /\ reply_text (callLLM sample_host
                   (FetchResolves (mkResponse false 503 (JsonResolves (JObj [])))))
     = Some network_marker
  /\ reply_text (callLLM sample_host
                   (FetchResolves (mkResponse false 500 (JsonResolves (JObj [])))))
     = Some "(LLM Error: HF API returned 500: Unknown error)"
  /\ reply_text (callLLM sample_host
                   (FetchResolves (mkResponse true 200 (JsonResolves (JArr [])))))
     = Some unexpected_marker
  /\ reply_text (callLLM sample_host (FetchRejects (mkExn "Failed to fetch")))
     = Some network_marker.
Proof. repeat split; vm_compute; reflexivity. Qed.

(** ** The cycle and the Memory Stack *)

Lemma final_log_when (b : bool) (e : Event) (out : Outcome) :
  final (log_when b e out) = final out.
Proof. destruct b; reflexivity. Qed.

Lemma external_stimulus_in_bounds (o : Oracle) (live : State) :
  stack_in_bounds (memoryStack live) ->
  stack_in_bounds (memoryStack (external_stimulus o live)).
Proof.
  intros H. unfold external_stimulus.
  destruct (Qlt_bool (r_external o) 0.2); stores;
    auto using insert_at_in_bounds.
Qed.

Lemma dream_branch_in_bounds (o : Oracle) (replaced : bool) (live : State) :
  stack_in_bounds (memoryStack live) ->
  stack_in_bounds (memoryStack (final (dream_branch o replaced live))).
Proof.
  intros H. unfold dream_branch.
  destruct (callLLM (host o) (llm_dream o)) as [[generated err] |];
    [destruct (callLLM (host o) (llm_dream_reflection o)) as [[reflection err'] |] |];
    destruct replaced; stores;
    auto using insert_at_in_bounds, shuffle_in_bounds.
Qed.

Lemma subconscious_in_bounds (o : Oracle) (live : State) :
  stack_in_bounds (memoryStack live) ->
  stack_in_bounds (memoryStack (subconscious o live)).
Proof.
  intros H. unfold subconscious.
  destruct (negb (Nat.eqb (List.length (beliefs (internalState live))) 0)
            && Qlt_bool (r_reinforce o) 0.7);
    destruct (negb (Nat.eqb (List.length (conflicts (internalState live))) 0)
              && Qlt_bool (r_ruminate o) 0.5);
    try destruct (negb (Nat.eqb (List.length (openQuestions (internalState live))) 0)
                  && Qlt_bool (r_ponder o) 0.5);
    stores; auto using insert_at_in_bounds.
Qed.

Lemma schema_step_memory (live : State) :
  memoryStack (schema_step live) = memoryStack live.
Proof.
  unfold schema_step.
  destruct (sc_formed (schema_check (conceptFrequencyMap live) (conceptGraph live)));
    reflexivity.
Qed.

Lemma self_inspection_memory (o : Oracle) (snap live : State) :
  memoryStack (final (self_inspection_branch o snap live)) = memoryStack live.
Proof.
  unfold self_inspection_branch.
  destruct (callLLM (host o) (llm_meta o)) as [[reflection err] |]; reflexivity.
Qed.

Lemma goal_branch_in_bounds (o : Oracle) (current : Goal) (live : State) :
  stack_in_bounds (memoryStack live) ->
  stack_in_bounds (memoryStack (final (goal_branch o current live))).
Proof.
  intros H. unfold goal_branch.
  destruct (callLLM (host o) (llm_goal o)) as [[goalThought err] |]; stores;
    auto using insert_at_in_bounds.
Qed.

Lemma hebbian_on_concepts_memory (t : string) (out : Outcome) :
  memoryStack (final (hebbian_on_concepts t out)) = memoryStack (final out).
Proof.
  unfold hebbian_on_concepts.
  destruct (hebbian_update t (conceptGraph (final out))); reflexivity.
Qed.

Lemma hebbian_on_beliefs_memory (t : string) (out : Outcome) :
  memoryStack (final (hebbian_on_beliefs t out)) = memoryStack (final out).
Proof.
  unfold hebbian_on_beliefs.
  destruct (hebbian_update t (beliefGraph (final out))); reflexivity.
Qed.

Lemma topic_shift_check_memory (o : Oracle) (snap : State) (t : string)
  (live : State) :
  memoryStack (topic_shift_check o snap t live) = memoryStack live.
Proof.
  unfold topic_shift_check.
  destruct (isStuck snap || Qlt_bool 0.7 (mentalTension (internalState snap)));
    [reflexivity |].
  destruct ((topicLockCounter live <=? 0)%Z
            || Qlt_bool (r_switch o) (topicSwitchChance (modulators snap)));
    reflexivity.
Qed.

(** The Memory Stack a normal thought leaves: the insert with decay at the
    rate the modulators of the cycle give. *)
Lemma commit_thought_memory (o : Oracle) (snap : State) (t : string)
  (live : State) :
  memoryStack (final (commit_thought o snap t live))
  = insert_with_decay (memoryDecayRate (modulators snap))
      (mkFragment t (getDominantEmotion (emotionalGradient snap)) 1.0%Q
                  (now o) None)
      (memoryStack live).
Proof.
  unfold commit_thought, perturbation_step. stores.
  rewrite topic_shift_check_memory, hebbian_on_beliefs_memory,
    hebbian_on_concepts_memory.
  reflexivity.
Qed.

Lemma commit_thought_in_bounds (o : Oracle) (snap : State) (t : string)
  (live : State) :
  gradient_in_range (emotionalGradient snap) ->
  stack_in_bounds (memoryStack live) ->
  stack_in_bounds (memoryStack (final (commit_thought o snap t live))).
Proof.
  intros Hg H. rewrite commit_thought_memory.
  apply insert_with_decay_in_bounds.
  - now apply memoryDecayRate_in_unit.
  - unfold strength_in_bounds. simpl. lra.
  - assumption.
Qed.

Lemma normal_branch_in_bounds (o : Oracle) (snap live : State) :
  gradient_in_range (emotionalGradient snap) ->
  stack_in_bounds (memoryStack live) ->
  stack_in_bounds (memoryStack (final (normal_branch o snap live))).
Proof.
  intros Hg H. unfold normal_branch.
  destruct (topic snap) as [topicText |]; [| assumption].
  destruct (generateRealThought o (llm_thought_1 o)) as [[t1 e1] |]; [| assumption].
  destruct (negb (isThoughtTooSimilar t1 (memoryStack snap))).
  { now apply commit_thought_in_bounds. }
  destruct (generateRealThought o (llm_thought_2 o)) as [[t2 e2] |]; [| assumption].
  destruct (negb (isThoughtTooSimilar t2 (memoryStack snap))).
  { now apply commit_thought_in_bounds. }
  destruct (generateRealThought o (llm_thought_3 o)) as [[t3 e3] |]; [| assumption].
  now apply commit_thought_in_bounds.
Qed.

Lemma waking_cycle_in_bounds (o : Oracle) (snap live : State) :
  gradient_in_range (emotionalGradient snap) ->
  stack_in_bounds (memoryStack live) ->
  stack_in_bounds (memoryStack (final (waking_cycle o snap live))).
Proof.
  intros Hg H. unfold waking_cycle. rewrite !final_log_when.
  assert (H3 : stack_in_bounds
                 (memoryStack
                    (when (schema_due snap) schema_step
                       (frequency_sweep
                          (when (subconscious_due snap) (subconscious o) live))))).
  { unfold when, frequency_sweep.
    destruct (schema_due snap); [rewrite schema_step_memory |];
      destruct (subconscious_due snap); stores;
      auto using subconscious_in_bounds. }
  destruct (inspection_due snap).
  { now rewrite self_inspection_memory. }
  destruct (currentGoal snap) as [current |].
  - destruct (Qlt_bool (r_goal o) 0.25).
    + now apply goal_branch_in_bounds.
    + now apply normal_branch_in_bounds.
  - now apply normal_branch_in_bounds.
Qed.

Lemma cycle_in_bounds (o : Oracle) (st : State) :
  gradient_in_range (emotionalGradient st) ->
  stack_in_bounds (memoryStack st) ->
  stack_in_bounds (memoryStack (final (cycle o st))).
Proof.
  intros Hg H. unfold cycle. rewrite final_log_when.
  assert (H2 : stack_in_bounds
                 (memoryStack
                    (setInternalState (select_sub_agent o st)
                       (external_stimulus o
                          (setCognitiveMaturity
                             (fun prev => Qmin 1 (prev + 0.001)%Q) st))))).
  { stores. now apply external_stimulus_in_bounds. }
  destruct (dream_due o st).
  - now apply dream_branch_in_bounds.
  - now apply waking_cycle_in_bounds.
Qed.

Lemma intuition_resolves_in_bounds (h : Host) (f : FetchOutcome) (at_time : Z)
  (st : State) :
  stack_in_bounds (memoryStack st) ->
  stack_in_bounds (memoryStack (intuition_resolves h f at_time st)).
Proof.
  intros H. unfold intuition_resolves.
  destruct (callLLM h f) as [[intuition err] |]; stores;
    auto using insert_at_in_bounds.
Qed.

(** C1. Every step of the engine -- a scheduler cycle whichever branches it
    takes and whichever sites insert a fragment, the late resolution of an
    intuition request, the end of a dream -- keeps the Memory Stack within
    its bounds: at most 10 fragments, every strength in [0.1, 1.0]. The
    weights of the gradient the cycle reads are in [0, 1], as the data model
    has them. *)
Theorem memory_stack_bounds_preserved (e : EngineStep) (st : State) :
  gradient_in_range (emotionalGradient st) ->
  stack_in_bounds (memoryStack st) ->
  stack_in_bounds (memoryStack (engine_step e st)).
Proof.
  intros Hg H. destruct e as [o | h f at_time |]; simpl.
  - now apply cycle_in_bounds.
  - now apply intuition_resolves_in_bounds.
  - exact H.
Qed.

Lemma memory_stack_bounds_preserved_witness :
  stack_in_bounds
    (memoryStack
       (engine_step
          (RunCycle (sample_oracle 0.1 0.9 0.9 0.9
                       (generated "hello world test thought")))
          (default_state 0))).
Proof.
  apply (memory_stack_bounds_preserved
           (RunCycle (sample_oracle 0.1 0.9 0.9 0.9
                        (generated "hello world test thought")))
           (default_state 0)).
  - intros e. destruct e; simpl; lra.
  - split; [simpl; lia |].
    repeat constructor; simpl; lra.
Defined.

(** The scenario of the specification: from the default state, a normal
    cycle whose generator returns "hello world test thought" leaves this
    text at the head of the stack with strength 1.0 and links the four
    tokens pairwise in the Concept Graph. *)
Example normal_cycle_scenario :
  let out := cycle (sample_oracle 0.9 0.9 0.9 0.9
                      (generated "hello world test thought"))
                   (default_state 0) in
  newest_text (final out) = Some "hello world test thought"
  /\ option_map strength (hd_error (memoryStack (final out))) = Some 1.0%Q
  /\ lookup "hello" (conceptGraph (final out)) = Some ["world"; "test"; "thought"]
  /\ lookup "world" (conceptGraph (final out)) = Some ["hello"; "test"; "thought"]
  /\ events out = [NormalThought; TopicShiftCheck; Perturbation].
Proof. vm_compute. repeat split. Qed.



(** ** The cycle and the perturbation *)











(** ** The cycle and contradiction detection *)

Lemma external_stimulus_tense (o : Oracle) (live : State) :
  tense (external_stimulus o live) = tense live.
Proof.
  unfold external_stimulus. destruct (Qlt_bool (r_external o) 0.2); reflexivity.
Qed.

Lemma select_sub_agent_tense (o : Oracle) (snap live : State) :
  tense (setInternalState (select_sub_agent o snap) live) = tense live.
Proof.
  unfold tense, select_sub_agent. stores.
  destruct (Qlt_bool 0.6 (mentalTension (internalState live))
            && Qlt_bool (r_shadow o) 0.7); [reflexivity |].
  destruct (Qlt_bool (mentalTension (internalState live)) 0.3
            && Qlt_bool (r_rational o) 0.5); [reflexivity |].
  destruct (mode snap); reflexivity.
Qed.

Lemma subconscious_tense (o : Oracle) (live : State) :
  tense (subconscious o live) = tense live.
Proof.
  unfold subconscious.
  destruct (negb (Nat.eqb (List.length (beliefs (internalState live))) 0)
            && Qlt_bool (r_reinforce o) 0.7);
    destruct (negb (Nat.eqb (List.length (conflicts (internalState live))) 0)
              && Qlt_bool (r_ruminate o) 0.5);
    try destruct (negb (Nat.eqb (List.length (openQuestions (internalState live))) 0)
                  && Qlt_bool (r_ponder o) 0.5);
    reflexivity.
Qed.

Lemma schema_step_tense (live : State) : tense (schema_step live) = tense live.
Proof.
  unfold schema_step.
  destruct (sc_formed (schema_check (conceptFrequencyMap live) (conceptGraph live)));
    reflexivity.
Qed.

Lemma self_inspection_tense (o : Oracle) (snap live : State) :
  tense (final (self_inspection_branch o snap live))
  = tense (setInternalState
             (record_contradictions
                (detectContradictions (beliefs (internalState snap))
                                      (beliefGraph snap)))
             live).
Proof.
  unfold self_inspection_branch.
  destruct (callLLM (host o) (llm_meta o)) as [[reflection err] |];
    [| reflexivity].
  unfold tense, meta_goals. stores.
  repeat match goal with
         | |- context [if ?b then _ else _] => destruct b
         end; reflexivity.
Qed.

Lemma inspecting_cycle_tense (o : Oracle) (st : State) :
  dream_due o st = false -> inspection_due st = true ->
  tense (final (cycle o st))
  = tense (setInternalState
             (record_contradictions
                (detectContradictions (beliefs (internalState st))
                                      (beliefGraph st)))
             st).
Proof.
  intros Hd Hi. unfold cycle, waking_cycle.
  rewrite Hd, Hi, !final_log_when, self_inspection_tense.
  unfold tense at 1 2. stores.
  assert (H : tense
                (when (schema_due st) schema_step
                   (frequency_sweep
                      (when (subconscious_due st) (subconscious o)
                         (setInternalState (select_sub_agent o st)
                            (external_stimulus o
                               (setCognitiveMaturity
                                  (fun prev => Qmin 1 (prev + 0.001)%Q) st))))))
              = tense st).
  { unfold when, frequency_sweep.
    destruct (schema_due st); [rewrite schema_step_tense |];
      (destruct (subconscious_due st);
       [change (tense (set_conceptFrequencyMap ?m ?s)) with (tense s);
        rewrite subconscious_tense |
        change (tense (set_conceptFrequencyMap ?m ?s)) with (tense s)]);
      rewrite select_sub_agent_tense, external_stimulus_tense; reflexivity. }
  unfold tense in H. injection H as Hc Ht.
  unfold record_contradictions. stores. rewrite Hc, Ht. reflexivity.
Qed.

(** C8 (as amended). When a cycle runs the self-inspection, the conflicts
    list becomes the union without duplicates of the previous conflicts and
    the detected contradictions, and the tension rises by 0.1 for every
    contradiction the detector returned, whether or not the list held it
    already, capped at 1.0. *)
Theorem self_inspection_records_contradictions (o : Oracle) (st : State) :
  dream_due o st = false ->
  inspection_due st = true ->
  let detected :=
    detectContradictions (beliefs (internalState st)) (beliefGraph st) in
  let after := internalState (final (cycle o st)) in
  NoDup (conflicts after)
  /\ (forall c, In c (conflicts after)
                <-> In c (conflicts (internalState st)) \/ In c detected)
  /\ mentalTension after
     = (Qmin 1 (mentalTension (internalState st)
                + inject_Z (Z.of_nat (List.length detected)) * 0.1))%Q.
Proof.
  intros Hd Hi detected after.
  pose proof (inspecting_cycle_tense o st Hd Hi) as H.
  unfold tense in H. stores. injection H as Hc Ht.
  subst after. rewrite Hc, Ht.
  apply record_contradictions_spec.
Qed.

Lemma self_inspection_records_contradictions_witness :
  let o := sample_oracle 0.9 0.9 0.9 0.9 (generated "Focus more on new concepts.") in
  conflicts (internalState (final (cycle o inspected_state)))
  = [self_contradiction]
  /\ (mentalTension (internalState (final (cycle o inspected_state))) == 0.2)%Q.
Proof.
  intros o.
  destruct (self_inspection_records_contradictions o inspected_state)
    as [_ [_ Ht]]; [reflexivity | reflexivity |].
  split; [reflexivity |].
  rewrite Ht. reflexivity.
Defined.

(** C8, counterexample: the second self-inspection of the default beliefs.
    The detector returns the contradiction about self again; the conflicts
    list holds it already, so nothing is newly detected and the claimed
    tension stays 0.1, but the code raises it to 0.2. *)
Lemma known_contradiction_raises_tension :
  let o := sample_oracle 0.9 0.9 0.9 0.9 (generated "Focus more on new concepts.") in
  let st := inspected_state in
  let detected :=
    detectContradictions (beliefs (internalState st)) (beliefGraph st) in
  events (cycle o st) = [SelfInspection]
  /\ detected = [self_contradiction]
  /\ newly_detected (conflicts (internalState st)) detected = []
  /\ (mentalTension (internalState (final (cycle o st))) == 0.2)%Q
  /\ (spec_tension (mentalTension (internalState st))
                   (conflicts (internalState st)) detected == 0.1)%Q.
Proof. vm_compute. repeat split. Qed.

(** ** Tokens, keys and own properties *)

Lemma prefix_empty (s : string) : prefix "" s = true.
Proof. destruct s; reflexivity. Qed.

Lemma split_W_from_word_only (s : string) (in_sep : bool) (w : string) :
  In w (split_W_from in_sep s) -> word_only w = true.
Proof.
  revert in_sep w. induction s as [| c s IH]; intros in_sep w; simpl.
  - intros [<- | []]. reflexivity.
  - destruct (is_word_char c) eqn:Hc.
    + destruct (split_W_from false s) as [| w0 ws] eqn:E.
      * intros [<- | []]. unfold word_only. simpl. now rewrite Hc.
      * intros [<- | Hin].
        -- unfold word_only. simpl. rewrite Hc. simpl.
           apply (IH false). rewrite E. now left.
        -- apply (IH false). rewrite E. now right.
    + destruct in_sep.
      * apply IH.
      * intros [<- | Hin]; [reflexivity | eapply IH; eassumption].
Qed.

Lemma content_words_shape (fragment w : string) :
  In w (content_words fragment) -> word_only w = true /\ w <> "".
Proof.
  unfold content_words, split_W. intros H. apply filter_In in H as [Hin Hlen].
  split.
  - eapply split_W_from_word_only; eassumption.
  - intros ->. discriminate.
Qed.

Lemma word_char_not (c d : ascii) :
  is_word_char d = false -> is_word_char c = true -> Ascii.eqb c d = false.
Proof.
  intros Hd Hc. destruct (Ascii.eqb_spec c d) as [-> |]; [congruence | reflexivity].
Qed.

Lemma replace_first_joint (d : ascii) (r a b : string) :
  is_word_char d = false -> word_only a = true ->
  replace_first d r (a ++ String d b) = a ++ r ++ b.
Proof.
  intros Hd. induction a as [| c a IH]; simpl; intros Ha.
  - now rewrite Ascii.eqb_refl.
  - apply andb_true_iff in Ha as [Hc Ha].
    rewrite (word_char_not c d Hd Hc). now rewrite IH.
Qed.

Lemma split_char_word (d : ascii) (b : string) :
  is_word_char d = false -> word_only b = true -> split_char d b = [b].
Proof.
  intros Hd. induction b as [| c b IH]; simpl; intros Hb; [reflexivity |].
  apply andb_true_iff in Hb as [Hc Hb].
  rewrite (word_char_not c d Hd Hc), IH by assumption. reflexivity.
Qed.

Lemma split_char_joint (d : ascii) (a b : string) :
  is_word_char d = false -> word_only a = true -> word_only b = true ->
  split_char d (a ++ String d b) = [a; b].
Proof.
  intros Hd Ha Hb. induction a as [| c a IH]; simpl.
  - rewrite Ascii.eqb_refl. now rewrite split_char_word.
  - simpl in Ha. apply andb_true_iff in Ha as [Hc Ha].
    rewrite (word_char_not c d Hd Hc), IH by assumption. reflexivity.
Qed.





Lemma lookup_In {V} (k : string) (v : V) (o : Obj V) :
  lookup k o = Some v -> In (k, v) o.
Proof.
  induction o as [| [k' v'] o IH]; simpl; [discriminate |].
  destruct (String.eqb_spec k k') as [<- |].
  - intros H. injection H as <-. now left.
  - intros H. right. now apply IH.
Qed.

Lemma lookup_app_new {V} (k : string) (v : V) (o : Obj V) :
  lookup k o = None -> lookup k (o ++ [(k, v)])%list = Some v.
Proof.
  induction o as [| [k' v'] o IH]; simpl.
  - now rewrite String.eqb_refl.
  - destruct (k =? k')%string; [discriminate | exact IH].
Qed.

(** *** Writing an own property *)

Lemma replace_value_length {V} (k : string) (v : V) (o : Obj V) :
  List.length (replace_value k v o) = List.length o.
Proof.
  induction o as [| [k' v'] o IH]; simpl; [reflexivity |].
  destruct (k =? k')%string; simpl; [reflexivity | now rewrite IH].
Qed.

Lemma insert_index_length {V} (n : N) (k : string) (v : V) (o : Obj V) :
  List.length (insert_index n k v o) = S (List.length o).
Proof.
  induction o as [| [k' v'] o IH]; simpl; [reflexivity |].
  destruct (array_index k') as [n' |]; [| reflexivity].
  destruct (n <? n')%N; simpl; [reflexivity | now rewrite IH].
Qed.

Lemma set_length {V} (k : string) (v : V) (o : Obj V) :
  List.length o <= List.length (set k v o) <= S (List.length o).
Proof.
  unfold set. destruct (lookup k o).
  - rewrite replace_value_length. lia.
  - destruct (array_index k).
    + rewrite insert_index_length. lia.
    + rewrite length_app. simpl. lia.
Qed.

Lemma replace_value_Forall {V} (P : string * V -> Prop) (k : string) (v : V)
  (o : Obj V) :
  P (k, v) -> Forall P o -> Forall P (replace_value k v o).
Proof.
  intros Hk H. induction H as [| [k' v'] o Hx Ho IH]; simpl; [constructor |].
  destruct (String.eqb_spec k k') as [<- |]; constructor; assumption.
Qed.

Lemma insert_index_Forall {V} (P : string * V -> Prop) (n : N) (k : string)
  (v : V) (o : Obj V) :
  P (k, v) -> Forall P o -> Forall P (insert_index n k v o).
Proof.
  intros Hk H. induction H as [| [k' v'] o Hx Ho IH]; simpl.
  - constructor; [assumption | constructor].
  - destruct (array_index k') as [n' |].
    + destruct (n <? n')%N; repeat (constructor; try assumption).
    + repeat (constructor; try assumption).
Qed.

Lemma set_Forall {V} (P : string * V -> Prop) (k : string) (v : V) (o : Obj V) :
  P (k, v) -> Forall P o -> Forall P (set k v o).
Proof.
  intros Hk H. unfold set. destruct (lookup k o).
  - now apply replace_value_Forall.
  - destruct (array_index k).
    + now apply insert_index_Forall.
    + apply Forall_app. split; [assumption | constructor; [assumption | constructor]].
Qed.

(** *** The frequency table of one pair *)















(** ** Topic selection on the graphs the engine reaches *)

Lemma Qfloor_draw_in_range (r : Q) (n : nat) :
  (0 <= r < 1)%Q -> 0 < n ->
  (0 <= Qfloor (r * inject_Z (Z.of_nat n)) < Z.of_nat n)%Z.
Proof.
  intros [Hlo Hhi] Hn.
  assert (Hpos : (0 < inject_Z (Z.of_nat n))%Q).
  { rewrite <- (Zlt_Qlt 0). lia. }
  split.
  - change 0%Z with (Qfloor (inject_Z 0)). apply Qfloor_resp_le.
    change (inject_Z 0) with 0%Q. nra.
  - rewrite Zlt_Qlt.
    apply Qle_lt_trans with (r * inject_Z (Z.of_nat n))%Q.
    + apply Qfloor_le.
    + nra.
Qed.

Lemma pick_in_range {A} (r : Q) (l : list A) :
  (0 <= r < 1)%Q -> l <> [] -> exists x, pick r l = Some x /\ In x l.
Proof.
  intros Hr Hl. unfold pick.
  assert (Hn : 0 < List.length l) by (destruct l; [contradiction | simpl; lia]).
  destruct (Qfloor_draw_in_range r (List.length l) Hr Hn) as [Hlo Hhi].
  destruct (Z.ltb_spec (Qfloor (r * inject_Z (Z.of_nat (List.length l)))) 0);
    [lia |].
  destruct (nth_error l (Z.to_nat (Qfloor (r * inject_Z (Z.of_nat (List.length l))))))
    as [x |] eqn:E.
  - exists x. split; [reflexivity | eapply nth_error_In; eassumption].
  - apply nth_error_None in E. lia.
Qed.

Lemma pick_empty {A} (r : Q) : pick r (@nil A) = None.
Proof.
  unfold pick. destruct (_ <? 0)%Z; [reflexivity |].
  now destruct (Z.to_nat _).
Qed.

Lemma first_match_In (topics : list string) (g : Graph) (concept : string)
  (subConcepts : list string) :
  first_match topics g = Some (concept, subConcepts) -> In (concept, subConcepts) g.
Proof.
  induction g as [| [c subs] g IH]; simpl; [discriminate |].
  destruct (concept_matches topics c subs).
  - intros H. injection H as <- <-. now left.
  - intros H. right. now apply IH.
Qed.

(** What the function returns on a graph that has a node and whose names
    and neighbours are not empty strings. *)
Lemma selectNewTopic_defined (g : Graph) (r : Q) (currentThought : string)
  (agent : option SubAgent) (attention : list Attention) :
  g <> [] -> Forall well_formed_node g -> (0 <= r < 1)%Q ->
  exists t,
    selectNewTopic g r currentThought agent attention = Some t
    /\ t <> ""
    /\ match first_match (potential_topics currentThought agent attention) g with
       | Some (concept, subConcepts) =>
           (subConcepts = [] -> t = concept)
           /\ (subConcepts <> [] -> In t subConcepts)
       | None => In t (keys g)
       end.
Proof.
  intros Hne Hwf Hr. unfold selectNewTopic.
  destruct (first_match (potential_topics currentThought agent attention) g)
    as [[concept subConcepts] |] eqn:E.
  - apply first_match_In in E.
    rewrite Forall_forall in Hwf. destruct (Hwf _ E) as [Hc Hs]. simpl in Hc, Hs.
    unfold neighbour_or_self. destruct subConcepts as [| s subs].
    + rewrite pick_empty. exists concept. repeat split; auto.
      intros H. now destruct H.
    + destruct (pick_in_range r (s :: subs) Hr) as [x [-> Hin]]; [discriminate |].
      rewrite Forall_forall in Hs. pose proof (Hs x Hin) as Hx.
      destruct (String.eqb_spec x ""); [contradiction |].
      exists x. repeat split; auto. discriminate.
  - assert (Hk : keys g <> []) by (destruct g; [contradiction | discriminate]).
    destruct (pick_in_range r (keys g) Hr Hk) as [x [-> Hin]].
    exists x. repeat split; auto.
    unfold keys in Hin. apply in_map_iff in Hin as [[c subs] [<- Hin]].
    rewrite Forall_forall in Hwf. now destruct (Hwf _ Hin).
Qed.

(** *** The invariant of the reachable graphs *)

Lemma graph_grows_refl (g : Graph) : graph_grows g g.
Proof. split; auto. Qed.

Lemma graph_grows_trans (g1 g2 g3 : Graph) :
  graph_grows g1 g2 -> graph_grows g2 g3 -> graph_grows g1 g3.
Proof. intros [H1 H2] [H3 H4]. split; [lia | auto]. Qed.

Lemma ensure_node_grows (c : string) (g : Graph) :
  c <> "" -> graph_grows g (ensure_node c g).
Proof.
  intros Hc. unfold ensure_node. destruct (read c g); try apply graph_grows_refl.
  split; [apply set_length |].
  intros H. apply set_Forall; [| assumption].
  split; [exact Hc | constructor].
Qed.

Lemma add_link_grows (c d : string) (g g' : Graph) :
  c <> "" -> d <> "" -> add_link c d g = Some g' -> graph_grows g g'.
Proof.
  intros Hc Hd. unfold add_link, read.
  destruct (lookup c g) as [links |] eqn:E.
  - destruct (existsb (String.eqb d) links).
    + intros H. injection H as <-. apply graph_grows_refl.
    + intros H. injection H as <-. split; [apply set_length |].
      intros Hwf. apply set_Forall; [| assumption].
      apply lookup_In in E. rewrite Forall_forall in Hwf.
      destruct (Hwf _ E) as [_ Hl]. simpl in Hl.
      split; [exact Hc |]. simpl. apply Forall_app. split; [assumption |].
      constructor; [exact Hd | constructor].
  - destruct (inherited c); discriminate.
Qed.

Lemma link_with_later_grows (c : string) (later : list string) (g g' : Graph) :
  c <> "" -> Forall (fun w => w <> "") later ->
  link_with_later c later g = Some g' -> graph_grows g g'.
Proof.
  intros Hc Hl. revert g. induction Hl as [| d later Hd Hl IH]; intros g; simpl.
  - intros H. injection H as <-. apply graph_grows_refl.
  - cbv beta in Hd. destruct (c =? d)%string; [apply IH |].
    destruct (add_link c d g) as [g1 |] eqn:E1; [| discriminate].
    destruct (add_link d c (ensure_node d g1)) as [g2 |] eqn:E2; [| discriminate].
    intros H.
    apply graph_grows_trans with g1; [apply (add_link_grows c d); assumption |].
    apply graph_grows_trans with (ensure_node d g1); [now apply ensure_node_grows |].
    apply graph_grows_trans with g2; [apply (add_link_grows d c); assumption |].
    now apply IH.
Qed.

Lemma link_words_grows (ws : list string) (g g' : Graph) :
  Forall (fun w => w <> "") ws -> link_words ws g = Some g' -> graph_grows g g'.
Proof.
  intros Hw. revert g. induction Hw as [| c later Hc Hl IH]; intros g; simpl.
  - intros H. injection H as <-. apply graph_grows_refl.
  - destruct (link_with_later c later (ensure_node c g)) as [g1 |] eqn:E;
      [| discriminate].
    intros H.
    apply graph_grows_trans with (ensure_node c g); [now apply ensure_node_grows |].
    apply graph_grows_trans with g1; [eapply link_with_later_grows; eassumption |].
    now apply IH.
Qed.

Lemma content_words_nonempty (fragment : string) :
  Forall (fun w => w <> "") (content_words fragment).
Proof.
  apply Forall_forall. intros w Hin. now apply (content_words_shape fragment).
Qed.

Lemma hebbian_update_grows (newThought : string) (g g' : Graph) :
  hebbian_update newThought g = Some g' -> graph_grows g g'.
Proof.
  unfold hebbian_update.
  destruct (1 <? List.length (content_words newThought)).
  - apply link_words_grows. apply content_words_nonempty.
  - intros H. injection H as <-. apply graph_grows_refl.
Qed.

(** The keys the count of a fragment writes. *)
Lemma pair_key_well_formed (a b : string) :
  word_only a = true -> word_only b = true -> a <> "" -> b <> "" ->
  well_formed_key (pair_key a b).
Proof.
  intros Ha Hb Hna Hnb. unfold pair_key.
  destruct (String.leb a b); [exists a, b | exists b, a]; auto.
Qed.

Lemma count_with_keys (w : string) (later : list string) (freq : Obj nat) :
  word_only w = true -> w <> "" ->
  Forall (fun x => word_only x = true /\ x <> "") later ->
  keys_well_formed freq -> keys_well_formed (count_with w later freq).
Proof.
  intros Hw Hn Hl. revert freq.
  induction Hl as [| x later [Hx Hnx] Hl IH]; intros freq Hf; simpl;
    [assumption |].
  apply IH. unfold count_pair. apply set_Forall; [| assumption].
  now apply pair_key_well_formed.
Qed.

Lemma count_pairs_keys (ws : list string) (freq : Obj nat) :
  Forall (fun x => word_only x = true /\ x <> "") ws ->
  keys_well_formed freq -> keys_well_formed (count_pairs ws freq).
Proof.
  intros Hw. revert freq.
  induction Hw as [| w later [Hx Hn] Hl IH]; intros freq Hf; simpl;
    [assumption |].
  apply IH. now apply count_with_keys.
Qed.

Lemma updateConceptPairFrequency_keys (fragment : string) (freq : Obj nat) :
  keys_well_formed freq ->
  keys_well_formed (updateConceptPairFrequency fragment freq).
Proof.
  intros H. apply count_pairs_keys; [| assumption].
  apply Forall_forall. intros w. apply content_words_shape.
Qed.

Lemma schema_loop_invariant (keys_left : list string) (freq : Obj nat)
  (g : Graph) :
  Forall well_formed_key keys_left -> keys_well_formed freq ->
  graph_grows g (sc_graph (schema_loop keys_left freq g))
  /\ keys_well_formed (sc_frequencies (schema_loop keys_left freq g)).
Proof.
  intros Hk Hf. induction Hk as [| key rest Hkey Hrest IH]; simpl.
  - split; [apply graph_grows_refl | assumption].
  - destruct ((3 <? match lookup key freq with Some n => n | None => 0 end)
              && is_absent (read (replace_first "+" "-" key) g)); [| exact IH].
    destruct Hkey as [a [b [-> [Ha [Hb [Hna Hnb]]]]]].
    unfold split_pair.
    change (a ++ "+" ++ b) with (a ++ String "+"%char b).
    rewrite (split_char_joint "+") by (assumption || reflexivity).
    cbn [nth_error coerce sc_graph sc_frequencies]. split.
    + split; [apply set_length |].
      intros Hwf. apply set_Forall; [| assumption].
      split; cbn [fst snd].
      * destruct a; [contradiction | discriminate].
      * repeat constructor; try assumption; discriminate.
    + apply set_Forall; [| assumption].
      exists a, b. auto.
Qed.

Lemma keys_of_well_formed (freq : Obj nat) :
  keys_well_formed freq -> Forall well_formed_key (keys freq).
Proof.
  intros H. unfold keys. apply Forall_map. exact H.
Qed.

Lemma graph_step_invariant (x y : Graph * Obj nat) :
  graph_step x y -> graph_invariant x -> graph_invariant y.
Proof.
  assert (Hgrow : forall g g' : Graph, graph_grows g g' -> g <> [] -> g' <> []).
  { intros g g' [Hlen _] Hg ->. destruct g; [contradiction | simpl in Hlen; lia]. }
  intros Hstep [Hne [Hwf Hk]]. destruct Hstep as [t g g' freq Hh | f g freq | g freq];
    cbn [fst snd] in *.
  - pose proof (hebbian_update_grows t g g' Hh) as Hg.
    split; [eapply Hgrow; eassumption |]. split; [now apply Hg | assumption].
  - split; [assumption |]. split; [assumption |].
    now apply updateConceptPairFrequency_keys.
  - destruct (schema_loop_invariant (keys freq) freq g
                (keys_of_well_formed freq Hk) Hk) as [Hg Hf].
    split; [eapply Hgrow; eassumption |]. split; [now apply Hg | exact Hf].
Qed.

Lemma reachable_invariant (x : Graph * Obj nat) :
  reachable x -> graph_invariant x.
Proof.
  induction 1 as [| x y Hx IH Hstep].
  - split; [discriminate |]. split; [| constructor].
    unfold default_conceptGraph.
    repeat (constructor; [split; cbn [fst snd];
                          [discriminate | repeat (constructor; [discriminate |]);
                                          constructor] |]).
    constructor.
  - eapply graph_step_invariant; eassumption.
Qed.

(** C9. On every Concept Graph the engine reaches from the default one --
    by Hebbian updates, counts of fragments and schema checks, none of which
    removes a node or a neighbour -- [selectNewTopic] returns a concept that
    is defined and not empty: a neighbour of the first matching concept, the
    name of that concept when it has no neighbour, or one of the top-level
    concepts when nothing matches. A concept without neighbours is
    reachable: a thought whose content tokens are all the same word leaves
    one. *)
Theorem selectNewTopic_total_on_reachable_graphs :
  (forall g freq r currentThought agent attention,
     reachable (g, freq) -> (0 <= r < 1)%Q ->
     exists t,
       selectNewTopic g r currentThought agent attention = Some t
       /\ t <> ""
       /\ match first_match (potential_topics currentThought agent attention) g with
          | Some (concept, subConcepts) =>
              (subConcepts = [] -> t = concept)
              /\ (subConcepts <> [] -> In t subConcepts)
          | None => In t (keys g)
          end)
  /\ (exists g,
        hebbian_update "echo... echo" default_conceptGraph = Some g
        /\ reachable (g, [])
        /\ lookup "echo" g = Some []
        /\ forall r, selectNewTopic g r "echo" None [] = Some "echo").
Proof.
  split.
  - intros g freq r currentThought agent attention Hreach Hr.
    destruct (reachable_invariant _ Hreach) as [Hne [Hwf _]].
    now apply selectNewTopic_defined.
  - exists (default_conceptGraph ++ [("echo", [])])%list.
    assert (Hh : hebbian_update "echo... echo" default_conceptGraph
                 = Some (default_conceptGraph ++ [("echo", [])])%list)
      by (vm_compute; reflexivity).
    split; [exact Hh |]. split; [| split].
    + apply reach_step with (default_conceptGraph, []); [apply reach_default |].
      now apply step_hebbian with "echo... echo".
    + vm_compute. reflexivity.
    + intros r. unfold selectNewTopic.
      replace (first_match (potential_topics "echo" None [])
                 (default_conceptGraph ++ [("echo", [])])%list)
        with (Some ("echo", @nil string)) by (vm_compute; reflexivity).
      unfold neighbour_or_self. now rewrite pick_empty.
Qed.

Lemma selectNewTopic_total_on_reachable_graphs_witness :
  exists t,
    selectNewTopic default_conceptGraph 0.5%Q "where does a memory go" None [] = Some t
    /\ t <> "".
Proof.
  destruct (proj1 selectNewTopic_total_on_reachable_graphs
              default_conceptGraph [] 0.5%Q "where does a memory go" None [])
    as [t [H1 [H2 _]]].
  - apply reach_default.
  - split; [discriminate | reflexivity].
  - exists t. split; assumption.
Defined.

(** ** Failures of the text generation at the call sites *)

Lemma goal_branch_stores (o : Oracle) (current : Goal) (live : State)
  (t : string) (err : option string) :
  callLLM (host o) (llm_goal o) = Normal (t, err) ->
  newest_text (final (goal_branch o current live)) = Some t
  /\ thought (final (goal_branch o current live)) = "(Goal-Directed): " ++ t.
Proof. intros H. unfold goal_branch. rewrite H. split; reflexivity. Qed.

Lemma dream_branch_stores (o : Oracle) (replaced : bool) (live : State)
  (t : string) (err : option string) :
  callLLM (host o) (llm_dream o) = Normal (t, err) ->
  newest_text (final (dream_branch o replaced live)) = Some (trim t).
Proof.
  intros H. unfold dream_branch. rewrite H.
  destruct (callLLM (host o) (llm_dream_reflection o)) as [[r e] |]; reflexivity.
Qed.

Lemma normal_branch_stores (o : Oracle) (snap live : State)
  (t : string) (err : option string) :
  callLLM (host o) (llm_thought_1 o) = Normal (t, err) ->
  topic snap <> None ->
  isThoughtTooSimilar (trim t) (memoryStack snap) = false ->
  newest_text (final (normal_branch o snap live)) = Some (trim t)
  /\ thought (final (normal_branch o snap live)) = trim t.
Proof.
  intros H Ht Hs. unfold normal_branch, generateRealThought.
  destruct (topic snap) as [topicText |]; [| contradiction].
  rewrite H, Hs. cbn [negb]. split.
  - unfold newest_text. rewrite commit_thought_memory. reflexivity.
  - unfold commit_thought, perturbation_step. stores.
    assert (Hk : forall live', thought (topic_shift_check o snap (trim t) live')
                               = thought live').
    { intros live'. unfold topic_shift_check.
      destruct (isStuck snap || _); [reflexivity |].
      destruct ((topicLockCounter live' <=? 0)%Z || _); reflexivity. }
    rewrite Hk. unfold hebbian_on_beliefs, hebbian_on_concepts. stores.
    destruct (hebbian_update (trim t) (conceptGraph _)); stores;
      destruct (hebbian_update (trim t) (beliefGraph _)); reflexivity.
Qed.

(** C3. [callLLM] returns a string for every outcome of the request and
    never hands an exception to its caller. On a failure -- the request
    rejected, an HTTP error status such as 401 or 503 whatever the body
    holds, a body that does not parse, a parsed body without generated text
    -- the string is a marker "(LLM Error: ...)". The call sites of the
    cycle store the returned string as the thought and as the newest
    fragment of the Memory Stack, marker or not. *)
Theorem callLLM_never_throws (h : Host) (f : FetchOutcome) :
  exists returned err,
    callLLM h f = Normal (returned, err)
    /\ (is_failure f = true -> is_marker returned = true)
    /\ (forall o current live,
          host o = h -> llm_goal o = f ->
          newest_text (final (goal_branch o current live)) = Some returned)
    /\ (forall o replaced live,
          host o = h -> llm_dream o = f ->
          newest_text (final (dream_branch o replaced live))
          = Some (trim returned))
    /\ (forall o snap live,
          host o = h -> llm_thought_1 o = f -> topic snap <> None ->
          isThoughtTooSimilar (trim returned) (memoryStack snap) = false ->
          newest_text (final (normal_branch o snap live))
          = Some (trim returned)).
Proof.
  destruct (callLLM_returns h f) as [returned [err H]].
  exists returned, err. split; [exact H |]. split; [| split; [| split]].
  - now apply (callLLM_marks_failures h f returned err).
  - intros o current live <- <-. now apply (goal_branch_stores o current live returned err).
  - intros o replaced live <- <-. now apply (dream_branch_stores o replaced live returned err).
  - intros o snap live <- <- Ht Hs.
    now apply (normal_branch_stores o snap live returned err).
Qed.

Lemma callLLM_never_throws_witness :
  let f := FetchResolves (mkResponse false 503 (JsonResolves (JObj []))) in
  let o := sample_oracle 0.9 0.9 0.1 0.9 f in
  exists returned,
    reply_text (callLLM sample_host f) = Some returned
    /\ is_marker returned = true
    /\ newest_text (final (cycle o (default_state 0))) = Some returned.
Proof.
  intros f o.
  destruct (callLLM_never_throws sample_host f) as [returned [err [H1 [H2 [H3 _]]]]].
  exists returned. split; [now rewrite H1 |]. split; [now apply H2 |].
  assert (Hr : returned = network_marker).
  { assert (Hc : callLLM sample_host f = Normal (network_marker,
                   Some "(LLM Error: Network issue or API call failed: cannot read properties of undefined)"))
      by reflexivity.
    rewrite Hc in H1. now injection H1 as <- _. }
  rewrite Hr. reflexivity.
Defined.

(** A cycle whose request fails keeps going and stores the marker. *)
Example failed_generation_is_stored :
  let o := sample_oracle 0.9 0.9 0.9 0.9 (FetchRejects (mkExn "Failed to fetch")) in
  let out := cycle o (default_state 0) in
  events out = [NormalThought; TopicShiftCheck; Perturbation]
  /\ newest_text (final out) = Some network_marker
  /\ thought (final out) = network_marker.
Proof. vm_compute. repeat split. Qed.

(** ** The gradient along a run *)

Local Open Scope Q_scope.

Lemma gradient_ok_intro (g : Gradient) :
  (forall e, 0 <= weight g e <= 1) -> (exists e, 0 < weight g e) ->
  gradient_ok g.
Proof.
  intros Hr [e He]. split; [exact Hr |].
  pose proof (Hr curiosity). pose proof (Hr calm). pose proof (Hr anxiety).
  pose proof (Hr reflective). pose proof (Hr dreaming).
  unfold total. destruct e; simpl in *; lra.
Qed.

Lemma Qmin_one_range (x d : Q) : 0 <= x -> 0 <= d -> 0 <= Qmin 1 (x + d) <= 1.
Proof. intros Hx Hd. split; [apply Q.min_glb; lra | apply Q.le_min_l]. Qed.

Lemma Qmax_zero_range (x d : Q) : x <= 1 -> 0 <= d -> 0 <= Qmax 0 (x - d) <= 1.
Proof. intros Hx Hd. split; [apply Q.le_max_l | apply Q.max_lub; lra]. Qed.

Lemma Qmin_one_ge (x d : Q) : x <= 1 -> 0 <= d -> x <= Qmin 1 (x + d).
Proof. intros Hx Hd. apply Q.min_glb; lra. Qed.

Lemma raise_ok (e : Emotion) (d : Q) (g : Gradient) :
  0 <= d -> gradient_ok g -> gradient_ok (raise e d g).
Proof.
  intros Hd [Hr Hp]. unfold raise.
  pose proof (Hr curiosity). pose proof (Hr calm). pose proof (Hr anxiety).
  pose proof (Hr reflective). pose proof (Hr dreaming).
  pose proof (Qmin_one_range (weight g e) d (proj1 (Hr e)) Hd).
  pose proof (Qmin_one_ge (weight g e) d (proj2 (Hr e)) Hd).
  split.
  - intros e'. destruct e, e'; simpl in *; lra.
  - unfold total in *. destruct e; simpl in *; lra.
Qed.

(** One weight raised by a positive amount and another lowered. *)
Lemma raise_and_lower_ok (up down : Emotion) (d d' : Q) (g : Gradient) :
  up <> down -> 0 < d -> 0 <= d' -> gradient_ok g ->
  gradient_ok (set_weight (raise up d g) down (Qmax 0 (weight g down - d'))).
Proof.
  intros Hne Hd Hd' [Hr Hp]. unfold raise.
  pose proof (Hr curiosity). pose proof (Hr calm). pose proof (Hr anxiety).
  pose proof (Hr reflective). pose proof (Hr dreaming).
  pose proof (Qmin_one_range (weight g up) d (proj1 (Hr up)) (Qlt_le_weak _ _ Hd)).
  pose proof (Qmax_zero_range (weight g down) d' (proj2 (Hr down)) Hd').
  assert (Hup : 0 < Qmin 1 (weight g up + d))
    by (apply Q.min_glb_lt; pose proof (Hr up); lra).
  apply gradient_ok_intro.
  - intros e'. destruct up, down, e'; simpl in *; try lra; now destruct Hne.
  - exists up. destruct up, down; simpl in *; try lra; now destruct Hne.
Qed.

Lemma dream_revert_gradient_ok (g : Gradient) :
  gradient_ok g ->
  gradient_ok (set_weight (lower dreaming 0.2 g) curiosity
                          (Qmin 1 (g_curiosity g + 0.1))).
Proof.
  intros [Hr Hp]. unfold lower.
  pose proof (Hr curiosity). pose proof (Hr calm). pose proof (Hr anxiety).
  pose proof (Hr reflective). pose proof (Hr dreaming). simpl in *.
  pose proof (Qmin_one_range (g_curiosity g) 0.1).
  pose proof (Qmax_zero_range (g_dreaming g) 0.2).
  assert (0 < Qmin 1 (g_curiosity g + 0.1)) by (apply Q.min_glb_lt; lra).
  apply gradient_ok_intro.
  - intros e'. destruct e'; simpl; lra.
  - exists curiosity. simpl. lra.
Qed.

Lemma boost_nonneg (tension r1 r2 r3 : Q) (g : Gradient) :
  (forall e, 0 <= weight g e) ->
  forall e, 0 <= weight (boost tension r1 r2 r3 g) e.
Proof.
  intros Hn e. unfold boost.
  destruct (Qlt_bool r1 (0.2 + tension * 0.3)); [| apply Hn].
  destruct (if Qlt_bool 0.5 tension && Qlt_bool r3 0.5 then Some anxiety
            else pick r2 emotions) as [c |]; [| apply Hn].
  pose proof (Qmin_one_pos (weight g c) (Hn c)).
  pose proof (Hn e). destruct c, e; simpl in *; lra.
Qed.

Lemma normalize_ok (g : Gradient) :
  (forall e, 0 <= weight g e) -> 0 < total g -> gradient_ok (normalize g).
Proof.
  intros Hn Hp. split.
  - pose proof (Hn curiosity). pose proof (Hn calm). pose proof (Hn anxiety).
    pose proof (Hn reflective). pose proof (Hn dreaming).
    intros e. split.
    + destruct e; simpl in *; apply Qle_shift_div_l; try assumption; lra.
    + destruct e; simpl in *; apply Qle_shift_div_r; try assumption;
        unfold total; lra.
  - assert (H : total (normalize g) == 1) by (apply normalize_total; lra).
    lra.
Qed.

Lemma perturb_ok (tension r1 r2 r3 : Q) (g : Gradient) :
  gradient_ok g -> gradient_ok (perturb tension r1 r2 r3 g).
Proof.
  intros [Hr Hp]. unfold perturb. apply normalize_ok.
  - apply boost_nonneg. apply decay_all_nonneg.
  - apply boost_total_pos; [apply decay_all_nonneg |].
    pose proof (decay_all_total g). lra.
Qed.

Lemma external_stimulus_gradient (o : Oracle) (live : State) :
  emotionalGradient (external_stimulus o live) = emotionalGradient live.
Proof.
  unfold external_stimulus. destruct (Qlt_bool (r_external o) 0.2); reflexivity.
Qed.

Lemma dream_branch_gradient_ok (o : Oracle) (replaced : bool) (live : State) :
  gradient_ok (emotionalGradient live) ->
  gradient_ok (emotionalGradient (final (dream_branch o replaced live))).
Proof.
  intros H. unfold dream_branch.
  destruct (callLLM (host o) (llm_dream o)) as [[generated err] |];
    [destruct (callLLM (host o) (llm_dream_reflection o)) as [[reflection err'] |] |];
    destruct replaced; stores;
    apply (raise_and_lower_ok dreaming curiosity 0.2 0.1);
    (discriminate || lra || assumption).
Qed.

Lemma subconscious_gradient_ok (o : Oracle) (live : State) :
  gradient_ok (emotionalGradient live) ->
  gradient_ok (emotionalGradient (subconscious o live)).
Proof.
  intros H. unfold subconscious.
  destruct (negb (Nat.eqb (List.length (beliefs (internalState live))) 0)
            && Qlt_bool (r_reinforce o) 0.7);
    destruct (negb (Nat.eqb (List.length (conflicts (internalState live))) 0)
              && Qlt_bool (r_ruminate o) 0.5);
    try destruct (negb (Nat.eqb (List.length (openQuestions (internalState live))) 0)
                  && Qlt_bool (r_ponder o) 0.5);
    stores; try assumption; apply raise_ok; (lra || assumption).
Qed.

Lemma schema_step_gradient_ok (live : State) :
  gradient_ok (emotionalGradient live) ->
  gradient_ok (emotionalGradient (schema_step live)).
Proof.
  intros H. unfold schema_step.
  destruct (sc_formed (schema_check (conceptFrequencyMap live) (conceptGraph live)));
    stores; [apply raise_ok; (lra || assumption) | assumption].
Qed.

Lemma meta_gradient_ok (reflectionLower : string) (g : Gradient) :
  gradient_ok g -> gradient_ok (meta_gradient reflectionLower g).
Proof.
  intros H. unfold meta_gradient.
  repeat match goal with
         | |- context [if ?b then _ else _] => destruct b
         end; try assumption; apply raise_ok; (lra || assumption).
Qed.

Lemma meta_mood_ok (reflectionLower : string) (g : Gradient) :
  gradient_ok g -> gradient_ok (meta_mood reflectionLower g).
Proof.
  intros H. unfold meta_mood.
  destruct (includes reflectionLower "resolve" || includes reflectionLower "understand").
  - apply (raise_and_lower_ok reflective anxiety 0.1 0.05);
      (discriminate || lra || assumption).
  - destruct (includes reflectionLower "avoid"); [| assumption].
    apply raise_ok; (lra || assumption).
Qed.

Lemma self_inspection_gradient_ok (o : Oracle) (snap live : State) :
  gradient_ok (emotionalGradient live) ->
  gradient_ok (emotionalGradient (final (self_inspection_branch o snap live))).
Proof.
  intros H. unfold self_inspection_branch.
  destruct (callLLM (host o) (llm_meta o)) as [[reflection err] |]; stores;
    [| assumption].
  now apply meta_mood_ok, meta_gradient_ok.
Qed.

Lemma goal_branch_gradient_ok (o : Oracle) (current : Goal) (live : State) :
  gradient_ok (emotionalGradient live) ->
  gradient_ok (emotionalGradient (final (goal_branch o current live))).
Proof.
  intros H. unfold goal_branch.
  destruct (callLLM (host o) (llm_goal o)) as [[goalThought err] |]; stores;
    [| assumption].
  apply raise_ok; [lra |]. apply raise_ok; (lra || assumption).
Qed.

Lemma topic_shift_check_gradient_ok (o : Oracle) (snap : State) (t : string)
  (live : State) :
  gradient_ok (emotionalGradient live) ->
  gradient_ok (emotionalGradient (topic_shift_check o snap t live)).
Proof.
  intros H. unfold topic_shift_check.
  destruct (isStuck snap || Qlt_bool 0.7 (mentalTension (internalState snap))).
  - stores. apply (raise_and_lower_ok reflective anxiety 0.1 0.05);
      (discriminate || lra || assumption).
  - destruct ((topicLockCounter live <=? 0)%Z
              || Qlt_bool (r_switch o) (topicSwitchChance (modulators snap)));
      assumption.
Qed.

Lemma commit_thought_gradient_ok (o : Oracle) (snap : State) (t : string)
  (live : State) :
  gradient_ok (emotionalGradient live) ->
  gradient_ok (emotionalGradient (final (commit_thought o snap t live))).
Proof.
  intros H. unfold commit_thought, perturbation_step. stores.
  apply perturb_ok. apply topic_shift_check_gradient_ok.
  unfold hebbian_on_beliefs, hebbian_on_concepts. stores.
  destruct (hebbian_update t (conceptGraph _)); stores;
    destruct (hebbian_update t (beliefGraph _)); stores; assumption.
Qed.

Lemma normal_branch_gradient_ok (o : Oracle) (snap live : State) :
  gradient_ok (emotionalGradient live) ->
  gradient_ok (emotionalGradient (final (normal_branch o snap live))).
Proof.
  intros H. unfold normal_branch.
  destruct (topic snap) as [topicText |]; [| assumption].
  destruct (generateRealThought o (llm_thought_1 o)) as [[t1 e1] |]; [| assumption].
  destruct (negb (isThoughtTooSimilar t1 (memoryStack snap))).
  { now apply commit_thought_gradient_ok. }
  destruct (generateRealThought o (llm_thought_2 o)) as [[t2 e2] |]; [| assumption].
  destruct (negb (isThoughtTooSimilar t2 (memoryStack snap))).
  { now apply commit_thought_gradient_ok. }
  destruct (generateRealThought o (llm_thought_3 o)) as [[t3 e3] |]; [| assumption].
  now apply commit_thought_gradient_ok.
Qed.

Lemma cycle_gradient_ok (o : Oracle) (st : State) :
  gradient_ok (emotionalGradient st) ->
  gradient_ok (emotionalGradient (final (cycle o st))).
Proof.
  intros H. unfold cycle. rewrite final_log_when.
  destruct (dream_due o st).
  { apply dream_branch_gradient_ok. stores. now rewrite external_stimulus_gradient. }
  unfold waking_cycle. rewrite !final_log_when.
  assert (H3 : gradient_ok
                 (emotionalGradient
                    (when (schema_due st) schema_step
                       (frequency_sweep
                          (when (subconscious_due st) (subconscious o)
                             (setInternalState (select_sub_agent o st)
                                (external_stimulus o
                                   (setCognitiveMaturity
                                      (fun prev => Qmin 1 (prev + 0.001)) st)))))))).
  { unfold when, frequency_sweep.
    destruct (schema_due st); [apply schema_step_gradient_ok |];
      (destruct (subconscious_due st); stores;
       [apply subconscious_gradient_ok |]; stores;
       now rewrite external_stimulus_gradient). }
  destruct (inspection_due st); [now apply self_inspection_gradient_ok |].
  destruct (currentGoal st) as [current |].
  - destruct (Qlt_bool (r_goal o) 0.25).
    + now apply goal_branch_gradient_ok.
    + now apply normal_branch_gradient_ok.
  - now apply normal_branch_gradient_ok.
Qed.

Lemma engine_step_gradient_ok (e : EngineStep) (st : State) :
  gradient_ok (emotionalGradient st) ->
  gradient_ok (emotionalGradient (engine_step e st)).
Proof.
  intros H. destruct e as [o | h f at_time |]; simpl.
  - now apply cycle_gradient_ok.
  - unfold intuition_resolves.
    destruct (callLLM h f) as [[intuition err] |]; stores; [| assumption].
    apply raise_ok; (lra || assumption).
  - unfold dream_revert. stores. now apply dream_revert_gradient_ok.
Qed.

Lemma engine_step_keeps_stack (e : EngineStep) (st : State) :
  gradient_ok (emotionalGradient st) -> stack_in_bounds (memoryStack st) ->
  stack_in_bounds (memoryStack (engine_step e st)).
Proof.
  intros [Hg _] H. destruct e as [o | h f at_time |]; simpl.
  - now apply cycle_in_bounds.
  - now apply intuition_resolves_in_bounds.
  - exact H.
Qed.

(** Along every run from the documented default state -- cycles, late
    intuitions and ends of dreams in any order, whatever the draws and the
    replies -- the Memory Stack holds at most 10 fragments with strengths in
    [0.1, 1.0] and the gradient keeps weights in [0, 1] with a positive sum. *)
Theorem default_run_keeps_bounds (boot : Z) (steps : list EngineStep) :
  stack_in_bounds (memoryStack (run steps (default_state boot)))
  /\ gradient_ok (emotionalGradient (run steps (default_state boot))).
Proof.
  assert (H0 : stack_in_bounds (memoryStack (default_state boot))
               /\ gradient_ok (emotionalGradient (default_state boot))).
  { split.
    - split; [simpl; lia |]. repeat constructor; simpl; lra.
    - split; [intros e; destruct e; simpl; lra | unfold total; simpl; lra]. }
  unfold run. revert H0. generalize (default_state boot).
  induction steps as [| e steps IH]; intros st [Hs Hg]; [now split |].
  simpl. apply IH. split.
  - now apply engine_step_keeps_stack.
  - now apply engine_step_gradient_ok.
Qed.

Local Close Scope Q_scope.

(** ** Further properties of the specification *)

Example detectContradictions_scenarios :
  detectContradictions [mkBelief "self" "undefined and defined" 0.1%Q] []
  = ["Contradiction in 'self' between 'undefined' and 'defined'"]
  /\ detectContradictions
       [mkBelief "logic" "true" 0.4%Q; mkBelief "chaos" "true" 0.2%Q]
       [("logic", ["chaos"])]
     = ["Implied contradiction between 'logic' and 'chaos'"]
  /\ detectContradictions default_beliefs default_beliefGraph
     = [self_contradiction].
Proof. repeat split; vm_compute; reflexivity. Qed.

(** With tension 0.8 and "ugh" in a recent fragment the stuck check resets
    the topic lock to 3 and cuts the tension by 0.3. *)
Example stuck_check_scenario :
  let o := sample_oracle 0.9 0.9 0.9 0.5 (generated "a new angle") in
  let after := topic_shift_check o stuck_state "a new angle" stuck_state in
  isStuck stuck_state = true
  /\ topicLockCounter after = 3%Z
  /\ (mentalTension (internalState after) == 0.5)%Q
  /\ topic after = Some "identity".
Proof. vm_compute. repeat split. Qed.

Lemma add_link_no_duplicates (c d : string) (g g' : Graph) :
  no_duplicate_edges g -> add_link c d g = Some g' -> no_duplicate_edges g'.
Proof.
  intros Hg. unfold add_link, read.
  destruct (lookup c g) as [links |] eqn:E.
  - destruct (existsb (String.eqb d) links) eqn:Hd.
    + intros H. now injection H as <-.
    + intros H. injection H as <-. apply set_Forall; [| assumption].
      apply lookup_In in E. unfold no_duplicate_edges in Hg.
      rewrite Forall_forall in Hg. pose proof (Hg _ E) as Hl. cbn [snd] in *.
      apply NoDup_app; [assumption | repeat constructor; intros [] |].
      intros x Hx [<- | []]. apply In_existsb_eqb in Hx. congruence.
  - destruct (inherited c); discriminate.
Qed.

Lemma ensure_node_no_duplicates (c : string) (g : Graph) :
  no_duplicate_edges g -> no_duplicate_edges (ensure_node c g).
Proof.
  intros Hg. unfold ensure_node. destruct (read c g); try assumption.
  apply set_Forall; [constructor | assumption].
Qed.

Lemma link_with_later_no_duplicates (c : string) (later : list string)
  (g g' : Graph) :
  no_duplicate_edges g -> link_with_later c later g = Some g' ->
  no_duplicate_edges g'.
Proof.
  revert g. induction later as [| d later IH]; intros g Hg; simpl.
  - intros H. now injection H as <-.
  - destruct (c =? d)%string; [now apply IH |].
    destruct (add_link c d g) as [g1 |] eqn:E1; [| discriminate].
    destruct (add_link d c (ensure_node d g1)) as [g2 |] eqn:E2; [| discriminate].
    apply IH. apply (add_link_no_duplicates d c (ensure_node d g1)); [| assumption].
    apply ensure_node_no_duplicates.
    now apply (add_link_no_duplicates c d g).
Qed.

Lemma link_words_no_duplicates (ws : list string) (g g' : Graph) :
  no_duplicate_edges g -> link_words ws g = Some g' -> no_duplicate_edges g'.
Proof.
  revert g. induction ws as [| c later IH]; intros g Hg; simpl.
  - intros H. now injection H as <-.
  - destruct (link_with_later c later (ensure_node c g)) as [g1 |] eqn:E;
      [| discriminate].
    apply IH. apply (link_with_later_no_duplicates c later (ensure_node c g));
      [| assumption].
    now apply ensure_node_no_duplicates.
Qed.

(** X12. The Hebbian update never links a concept twice to the same
    neighbour, however often a fragment is fed: a graph without repeated
    links has none after an update that completes. *)
Theorem hebbian_update_no_duplicate_edges (newThought : string) (g g' : Graph) :
  no_duplicate_edges g -> hebbian_update newThought g = Some g' ->
  no_duplicate_edges g'.
Proof.
  intros Hg. unfold hebbian_update.
  destruct (1 <? List.length (content_words newThought)).
  - now apply link_words_no_duplicates.
  - intros H. now injection H as <-.
Qed.

(** Feeding the scenario's fragment a second time changes nothing. *)
Example hebbian_update_twice :
  exists g,
    hebbian_update "hello world test thought" default_conceptGraph = Some g
    /\ hebbian_update "hello world test thought" g = Some g
    /\ no_duplicate_edges g.
Proof.
  eexists. split; [vm_compute; reflexivity |]. split; [vm_compute; reflexivity |].
  unfold no_duplicate_edges.
  repeat (constructor;
          [cbn [snd];
           repeat (constructor; [simpl; intuition discriminate |]); constructor |]).
  constructor.
Qed.

(** * Further properties of the code *)

(** ** Comparisons of numbers *)

Local Open Scope Q_scope.

Lemma Qlt_bool_true (a b : Q) : Qlt_bool a b = true <-> a < b.
Proof.
  unfold Qlt_bool. rewrite negb_true_iff. split.
  - intros H. apply Qnot_le_lt. intros Hle. apply Qle_bool_iff in Hle. congruence.
  - intros H. destruct (Qle_bool b a) eqn:E; [| reflexivity].
    apply Qle_bool_iff in E. lra.
Qed.

Lemma Qlt_bool_false (a b : Q) : Qlt_bool a b = false <-> b <= a.
Proof.
  unfold Qlt_bool. rewrite negb_false_iff. apply Qle_bool_iff.
Qed.

(** ** The dominant emotion (app.js 1207-1209) *)

(** X1. [getDominantEmotion] returns an emotion whose weight no other weight
    exceeds, and among the emotions of that weight the last one in the order
    of the keys of the gradient. *)
Theorem getDominantEmotion_is_maximal (g : Gradient) (e : Emotion) :
  weight g e <= weight g (getDominantEmotion g)
  /\ (weight g e == weight g (getDominantEmotion g) ->
      (key_index e <= key_index (getDominantEmotion g))%nat).
Proof.
  unfold getDominantEmotion, emotions. cbn [fold_left].
  split_dominant Qlt_bool_true Qlt_bool_false; cbn [weight] in *;
    (split; [destruct e; cbn [weight]; lra |]);
    destruct e; cbn [weight key_index]; intros Heq; try lia; exfalso; lra.
Qed.

(** ** The emotion modulators (app.js 699-717) *)

(** X2. For a gradient with weights in [0, 1] the modulators of a cycle stay
    in fixed ranges: the decay rate in [0.93, 0.98], the chance of a topic
    switch in [0.1, 0.4], the chance of a dream in [0.015, 0.4], at most 0.04
    while the maturity is below 0.3 and at most 0.2 while it is below 0.6. *)
Theorem emotionModulators_ranges (g : Gradient) (maturity : Q) :
  gradient_in_range g ->
  let m := emotionModulators g maturity in
  (0.93 <= memoryDecayRate m <= 0.98)
  /\ (0.1 <= topicSwitchChance m <= 0.4)
  /\ (0.015 <= dreamChance m <= 0.4)
  /\ (maturity < 0.3 -> dreamChance m <= 0.04)
  /\ (maturity < 0.6 -> dreamChance m <= 0.2).
Proof.
  intros Hr m. subst m.
  pose proof (Hr curiosity). pose proof (Hr calm). pose proof (Hr anxiety).
  pose proof (Hr reflective). pose proof (Hr dreaming). cbn [weight] in *.
  unfold emotionModulators.
  destruct (Qlt_bool maturity 0.3) eqn:Hm3;
    [apply Qlt_bool_true in Hm3 | apply Qlt_bool_false in Hm3];
    [| destruct (Qlt_bool maturity 0.6) eqn:Hm6;
       [apply Qlt_bool_true in Hm6 | apply Qlt_bool_false in Hm6]];
    cbv zeta; cbn [memoryDecayRate topicSwitchChance dreamChance];
    (split; [lra |]); (split; [lra |]); (split; [lra |]);
    (split; intros Hlt; lra).
Qed.

Lemma emotionModulators_ranges_witness :
  let m := emotionModulators default_gradient 0.1 in
  (0.93 <= memoryDecayRate m <= 0.98)
  /\ (0.1 <= topicSwitchChance m <= 0.4)
  /\ (0.015 <= dreamChance m <= 0.4)
  /\ (0.1 < 0.3 -> dreamChance m <= 0.04)
  /\ (0.1 < 0.6 -> dreamChance m <= 0.2).
Proof.
  apply (emotionModulators_ranges default_gradient 0.1).
  intros e. destruct e; simpl; lra.
Defined.

Local Close Scope Q_scope.

(** ** The similarity gate (app.js 82-105) *)

Lemma prefix_substring0 (k : nat) (s : string) : prefix (substring0 k s) s = true.
Proof.
  unfold substring0. revert k.
  induction s as [| c s IH]; intros k; destruct k; simpl; try reflexivity.
  destruct (ascii_dec c c) as [_ | Hne]; [apply IH | now destruct Hne].
Qed.

Lemma includes_prefix (s sub : string) :
  prefix sub s = true -> includes s sub = true.
Proof. intros H. destruct s; cbn [includes]; rewrite H; reflexivity. Qed.

Lemma includes_leading_part (k : nat) (s : string) :
  includes s (substring0 k s) = true.
Proof. apply includes_prefix, prefix_substring0. Qed.

(** X3. A thought that repeats one of the three newest fragments, up to
    letter case and surrounding white space, is too similar as soon as the
    trimmed text has 5 characters. *)
Theorem repeated_thought_is_too_similar (t : string) (stack : MemoryStack)
  (mem : MemoryFragment) :
  In mem (firstn 3 stack) ->
  trim (toLowerCase (text mem)) = trim (toLowerCase t) ->
  5 <= String.length (trim (toLowerCase t)) ->
  isThoughtTooSimilar t stack = true.
Proof.
  intros Hin Heq Hlen. unfold isThoughtTooSimilar.
  apply existsb_exists. exists mem. split; [assumption |].
  unfold similar_to. rewrite Heq, Nat.min_id.
  destruct (String.length (trim (toLowerCase t)) <? 5) eqn:H5.
  { apply Nat.ltb_lt in H5. lia. }
  rewrite includes_leading_part.
  replace (0 <? String.length (trim (toLowerCase t))) with true
    by (symmetry; apply Nat.ltb_lt; lia).
  reflexivity.
Qed.

Lemma repeated_thought_is_too_similar_witness :
  isThoughtTooSimilar "  Linking CORE drives...  " (default_memoryStack 0) = true.
Proof.
  apply (repeated_thought_is_too_similar "  Linking CORE drives...  "
           (default_memoryStack 0)
           (mkFragment "Linking core drives..." calm 1.0%Q (-2000)%Z None)).
  - simpl. right. left. reflexivity.
  - vm_compute. reflexivity.
  - vm_compute. lia.
Defined.

(** X4. A thought whose trimmed text is shorter than 5 characters is never
    too similar, whatever the stack holds, and a stored fragment whose
    trimmed text is shorter than 5 characters never makes a thought too
    similar. *)
Theorem short_texts_are_never_similar (t : string) (stack : MemoryStack) :
  String.length (trim (toLowerCase t)) < 5
  \/ Forall (fun mem => String.length (trim (toLowerCase (text mem))) < 5)
            (firstn 3 stack) ->
  isThoughtTooSimilar t stack = false.
Proof.
  intros H. unfold isThoughtTooSimilar.
  apply not_true_is_false. intros Hex.
  apply existsb_exists in Hex. destruct Hex as [mem [Hin Hsim]].
  unfold similar_to in Hsim.
  destruct (Nat.min (String.length (trim (toLowerCase t)))
                    (String.length (trim (toLowerCase (text mem)))) <? 5) eqn:H5;
    [discriminate |].
  apply Nat.ltb_ge in H5.
  destruct H as [H | H]; [lia |].
  rewrite Forall_forall in H. specialize (H mem Hin). lia.
Qed.

Lemma short_texts_are_never_similar_witness :
  isThoughtTooSimilar " hm. " (default_memoryStack 0) = false.
Proof.
  apply (short_texts_are_never_similar " hm. " (default_memoryStack 0)).
  left. vm_compute. lia.
Defined.

(** X5. The comparison of two texts is symmetric: a thought is too similar
    to a stored text exactly when that text, taken as the thought, is too
    similar to the first one. *)
Theorem similarity_is_symmetric (a b : MemoryFragment) :
  isThoughtTooSimilar (text a) [b] = isThoughtTooSimilar (text b) [a].
Proof.
  unfold isThoughtTooSimilar. cbn [firstn existsb]. rewrite !orb_false_r.
  unfold similar_to.
  rewrite (Nat.min_comm (String.length (trim (toLowerCase (text a))))).
  destruct (Nat.min _ _ <? 5); [reflexivity |].
  destruct (_ && _); destruct (_ && _); reflexivity.
Qed.

(** ** Sorting by descending key *)

Local Open Scope Q_scope.

Lemma insert_desc_In {A} (key : A -> Q) (x y : A) (l : list A) :
  In y (insert_desc key x l) <-> y = x \/ In y l.
Proof.
  induction l as [| z l IH]; simpl.
  - intuition auto.
  - destruct (Qle_bool (key z) (key x)); simpl; rewrite ?IH; intuition auto.
Qed.

Lemma sort_desc_In {A} (key : A -> Q) (x : A) (l : list A) :
  In x (sort_desc key l) <-> In x l.
Proof.
  unfold sort_desc. induction l as [| y l IH]; simpl; [reflexivity |].
  rewrite insert_desc_In, IH. intuition auto.
Qed.

Lemma insert_desc_length {A} (key : A -> Q) (x : A) (l : list A) :
  List.length (insert_desc key x l) = S (List.length l).
Proof.
  induction l as [| z l IH]; simpl; [reflexivity |].
  destruct (Qle_bool (key z) (key x)); simpl; [reflexivity | now rewrite IH].
Qed.

Lemma sort_desc_length {A} (key : A -> Q) (l : list A) :
  List.length (sort_desc key l) = List.length l.
Proof.
  unfold sort_desc. induction l as [| y l IH]; simpl; [reflexivity |].
  now rewrite insert_desc_length, IH.
Qed.

Lemma insert_desc_descending {A} (key : A -> Q) (x : A) (l : list A) :
  descending key l -> descending key (insert_desc key x l).
Proof.
  induction l as [| z l IH]; simpl.
  - intros _. split; [constructor | exact I].
  - intros [Hz Hl]. destruct (Qle_bool (key z) (key x)) eqn:E.
    + apply Qle_bool_iff in E. simpl. split; [| split; assumption].
      constructor; [assumption |].
      eapply Forall_impl; [| exact Hz]. simpl. intros a Ha. lra.
    + assert (Hlt : key x <= key z).
      { apply Qlt_le_weak, Qlt_bool_true. unfold Qlt_bool. now rewrite E. }
      simpl. split; [| now apply IH].
      apply Forall_forall. intros a Ha. apply insert_desc_In in Ha.
      destruct Ha as [-> | Ha]; [assumption |].
      rewrite Forall_forall in Hz. now apply Hz.
Qed.

Lemma sort_desc_descending {A} (key : A -> Q) (l : list A) :
  descending key (sort_desc key l).
Proof.
  unfold sort_desc. induction l as [| y l IH]; simpl; [exact I |].
  now apply insert_desc_descending.
Qed.

Lemma In_firstn {A} (n : nat) (l : list A) (x : A) :
  In x (firstn n l) -> In x l.
Proof.
  revert n. induction l as [| y l IH]; intros n; destruct n; simpl;
    try contradiction.
  intros [H | H]; [now left | right; eapply IH; eassumption].
Qed.

Lemma descending_firstn {A} (key : A -> Q) (n : nat) (l : list A) :
  descending key l -> descending key (firstn n l).
Proof.
  revert n. induction l as [| x l IH]; intros n; destruct n; simpl; auto.
  intros [Hx Hl]. split; [| now apply IH].
  apply Forall_forall. intros a Ha. rewrite Forall_forall in Hx.
  apply Hx. eapply In_firstn; eassumption.
Qed.

(** ** The current goal (app.js 929-932) *)

(** X6. The goal a cycle works with is a goal of the list that no other goal
    exceeds in urgency; there is none exactly when the list is empty. *)
Theorem currentGoal_is_most_urgent (snap : State) :
  match currentGoal snap with
  | Some current =>
      In current (goals (internalState snap))
      /\ forall g, In g (goals (internalState snap)) ->
                   urgency g <= urgency current
  | None => goals (internalState snap) = []
  end.
Proof.
  unfold currentGoal, sorted_goals.
  pose proof (sort_desc_descending urgency (goals (internalState snap))) as Hd.
  pose proof (fun g => sort_desc_In urgency g (goals (internalState snap))) as Hin.
  pose proof (sort_desc_length urgency (goals (internalState snap))) as Hlen.
  destruct (sort_desc urgency (goals (internalState snap))) as [| current rest];
    simpl.
  - destruct (goals (internalState snap)); [reflexivity | discriminate].
  - split; [apply Hin; now left |].
    intros g Hg. apply Hin in Hg. destruct Hg as [<- | Hg]; [lra |].
    destruct Hd as [Hd _]. rewrite Forall_forall in Hd. now apply Hd.
Qed.

(** ** A dream and its end (app.js 721-759) *)

(** X7. A dream cycle followed by the deferred end of the dream leaves the
    mode RUN and, in exact arithmetic, restores every weight of the
    gradient, provided neither adjustment was clamped: the dreaming weight
    was at most 0.8 and the curiosity weight at least 0.1. *)
Theorem dream_and_revert_restore_gradient (o : Oracle) (replaced : bool)
  (live : State) :
  0 <= g_dreaming (emotionalGradient live) <= 0.8 ->
  0.1 <= g_curiosity (emotionalGradient live) <= 1 ->
  let after := dream_revert (final (dream_branch o replaced live)) in
  mode after = RUN
  /\ forall e, weight (emotionalGradient after) e
               == weight (emotionalGradient live) e.
Proof.
  intros Hd Hc after. subst after. unfold dream_branch, dream_revert.
  assert (E1 : Qmin 1 (g_dreaming (emotionalGradient live) + 0.2)
               == g_dreaming (emotionalGradient live) + 0.2)
    by (apply Q.min_r; lra).
  assert (E2 : Qmax 0 (g_curiosity (emotionalGradient live) - 0.1)
               == g_curiosity (emotionalGradient live) - 0.1)
    by (apply Q.max_r; lra).
  assert (E3 : Qmax 0 (Qmin 1 (g_dreaming (emotionalGradient live) + 0.2) - 0.2)
               == Qmin 1 (g_dreaming (emotionalGradient live) + 0.2) - 0.2)
    by (apply Q.max_r; lra).
  assert (E4 : Qmin 1 (Qmax 0 (g_curiosity (emotionalGradient live) - 0.1) + 0.1)
               == Qmax 0 (g_curiosity (emotionalGradient live) - 0.1) + 0.1)
    by (apply Q.min_r; lra).
  destruct (callLLM (host o) (llm_dream o)) as [[generated err] |];
    [destruct (callLLM (host o) (llm_dream_reflection o)) as [[reflection err'] |] |];
    destruct replaced; stores; (split; [reflexivity |]);
    intros emo; unfold raise, lower; destruct emo;
    cbn [weight set_weight g_curiosity g_calm g_anxiety g_reflective
         g_dreaming]; lra.
Qed.

Lemma dream_and_revert_restore_gradient_witness :
  let after :=
    dream_revert
      (final (dream_branch (sample_oracle 0.9 0.0 0.9 0.9 (generated "static"))
                false (default_state 0))) in
  mode after = RUN
  /\ forall e, weight (emotionalGradient after) e
               == weight (emotionalGradient (default_state 0)) e.
Proof.
  apply (dream_and_revert_restore_gradient
           (sample_oracle 0.9 0.0 0.9 0.9 (generated "static")) false
           (default_state 0)); simpl; lra.
Defined.

Local Close Scope Q_scope.

(** ** The fallback thought and the stuck check (app.js 963 and 1150-1152) *)

Lemma prefix_app (k a b : string) : prefix k a = true -> prefix k (a ++ b) = true.
Proof.
  revert a. induction k as [| c k IH]; intros a; [intros _; apply prefix_empty |].
  destruct a as [| d a]; simpl; [discriminate |].
  destruct (ascii_dec c d); [apply IH | discriminate].
Qed.

Lemma includes_app_l (a b k : string) :
  includes a k = true -> includes (a ++ b) k = true.
Proof.
  induction a as [| c a IH]; cbn [includes append].
  - rewrite orb_false_r. intros H. apply includes_prefix.
    destruct k; [apply prefix_empty | discriminate].
  - intros H. apply orb_true_iff in H. destruct H as [H | H].
    + change (String c (a ++ b)) with (String c a ++ b).
      now rewrite prefix_app.
    + rewrite IH by assumption. apply orb_true_r.
Qed.

Lemma toLowerCase_app (a b : string) :
  toLowerCase (a ++ b) = toLowerCase a ++ toLowerCase b.
Proof. induction a as [| c a IH]; simpl; [reflexivity | now rewrite IH]. Qed.

Lemma join_head (sep x : string) (rest : list string) :
  exists tail, join sep (x :: rest) = x ++ tail.
Proof.
  destruct rest as [| y rest]; simpl.
  - exists "". symmetry. induction x; simpl; [reflexivity | congruence].
  - eexists. reflexivity.
Qed.

Lemma isStuck_head (st : State) (m : MemoryFragment) (rest : MemoryStack)
  (keyword : string) :
  memoryStack st = m :: rest ->
  In keyword stuckKeywords ->
  includes (toLowerCase (text m)) keyword = true ->
  isStuck st = true.
Proof.
  intros Hs Hk Hi. unfold isStuck. rewrite Hs.
  apply existsb_exists. exists keyword. split; [assumption |].
  cbn [firstn map].
  match goal with
  | |- context [join " " (text m :: ?l)] =>
      destruct (join_head " " (text m) l) as [tail ->]
  end.
  rewrite toLowerCase_app. now apply includes_app_l.
Qed.

(** X8. The fallback thought of the normal cycle holds the stuck keyword
    "circling": once it is committed it heads the Memory Stack and the
    stuck check holds in the stores it leaves, so that the next normal
    cycle forces a change of topic. *)
Theorem fallback_thought_makes_stuck (o : Oracle) (snap live : State)
  (topicText : string) :
  let after := final (commit_thought o snap (stuck_fallback o topicText) live) in
  newest_text after = Some (stuck_fallback o topicText)
  /\ isStuck after = true.
Proof.
  intros after. subst after. unfold newest_text.
  rewrite commit_thought_memory. unfold insert_with_decay.
  cbn [firstn hd_error option_map text].
  split; [reflexivity |].
  eapply (isStuck_head _ _ _ "circling").
  - rewrite commit_thought_memory. unfold insert_with_decay.
    cbn [firstn]. reflexivity.
  - simpl. tauto.
  - cbn [text]. unfold stuck_fallback. rewrite toLowerCase_app.
    apply includes_app_l. vm_compute. reflexivity.
Qed.

(** ** Topic selection (app.js 622-645) *)

Lemma pick_In {A} (r : Q) (l : list A) (x : A) : pick r l = Some x -> In x l.
Proof.
  unfold pick. destruct (_ <? 0)%Z; [discriminate |]. apply nth_error_In.
Qed.

(** X9. A topic that [selectNewTopic] returns is a concept of the graph or a
    neighbour of one: the function never invents a topic. *)
Theorem selectNewTopic_returns_node_or_neighbour (g : Graph) (r : Q)
  (currentThought : string) (agent : option SubAgent)
  (attention : list Attention) (chosen : string) :
  selectNewTopic g r currentThought agent attention = Some chosen ->
  In chosen (keys g)
  \/ exists concept subConcepts,
       In (concept, subConcepts) g /\ In chosen subConcepts.
Proof.
  unfold selectNewTopic.
  destruct (first_match _ g) as [[concept subConcepts] |] eqn:Hm.
  - apply first_match_In in Hm. intros H. injection H as <-.
    unfold neighbour_or_self.
    destruct (pick r subConcepts) as [n |] eqn:Hp.
    + destruct (n =? "")%string.
      * left. unfold keys. now apply (in_map fst) in Hm.
      * right. exists concept, subConcepts. split; [assumption |].
        eapply pick_In; eassumption.
    + left. unfold keys. now apply (in_map fst) in Hm.
  - intros H. left. eapply pick_In; eassumption.
Qed.

Lemma selectNewTopic_returns_node_or_neighbour_witness :
  In "reason" (keys default_conceptGraph)
  \/ exists concept subConcepts,
       In (concept, subConcepts) default_conceptGraph /\ In "reason" subConcepts.
Proof.
  apply (selectNewTopic_returns_node_or_neighbour default_conceptGraph 0%Q
           "the logic of it" None [] "reason").
  vm_compute. reflexivity.
Defined.

(** ** Reading a property after a write *)

Lemma lookup_replace_value_same {V} (k : string) (v old : V) (o : Obj V) :
  lookup k o = Some old -> lookup k (replace_value k v o) = Some v.
Proof.
  induction o as [| [k' v'] o IH]; simpl; [discriminate |].
  destruct (k =? k')%string eqn:E; simpl; rewrite E; [reflexivity | exact IH].
Qed.

Lemma lookup_replace_value_other {V} (k k' : string) (v : V) (o : Obj V) :
  k' <> k -> lookup k' (replace_value k v o) = lookup k' o.
Proof.
  intros Hne. induction o as [| [k0 v0] o IH]; simpl; [reflexivity |].
  destruct (String.eqb_spec k k0) as [<- |]; simpl.
  - apply String.eqb_neq in Hne. now rewrite Hne.
  - now rewrite IH.
Qed.

Lemma lookup_insert_index_same {V} (n : N) (k : string) (v : V) (o : Obj V) :
  lookup k o = None -> lookup k (insert_index n k v o) = Some v.
Proof.
  induction o as [| [k' v'] o IH]; simpl.
  - now rewrite String.eqb_refl.
  - destruct (String.eqb_spec k k') as [<- | Hne]; [discriminate |].
    intros H. destruct (array_index k') as [n' |].
    + destruct (n <? n')%N; simpl.
      * now rewrite String.eqb_refl.
      * apply String.eqb_neq in Hne. rewrite Hne. now apply IH.
    + simpl. now rewrite String.eqb_refl.
Qed.

Lemma lookup_insert_index_other {V} (n : N) (k k' : string) (v : V) (o : Obj V) :
  k' <> k -> lookup k' (insert_index n k v o) = lookup k' o.
Proof.
  intros Hne. apply String.eqb_neq in Hne.
  induction o as [| [k0 v0] o IH]; simpl.
  - now rewrite Hne.
  - destruct (array_index k0) as [n' |].
    + destruct (n <? n')%N; simpl; [now rewrite Hne |].
      destruct (k' =? k0)%string; [reflexivity | exact IH].
    + simpl. now rewrite Hne.
Qed.

Lemma lookup_app_other {V} (k k' : string) (v : V) (o : Obj V) :
  k' <> k -> lookup k' (o ++ [(k, v)])%list = lookup k' o.
Proof.
  intros Hne. apply String.eqb_neq in Hne.
  induction o as [| [k0 v0] o IH]; simpl.
  - now rewrite Hne.
  - destruct (k' =? k0)%string; [reflexivity | exact IH].
Qed.

Lemma lookup_set_same {V} (k : string) (v : V) (o : Obj V) :
  lookup k (set k v o) = Some v.
Proof.
  unfold set. destruct (lookup k o) as [old |] eqn:E.
  - eapply lookup_replace_value_same; eassumption.
  - destruct (array_index k).
    + now apply lookup_insert_index_same.
    + now apply lookup_app_new.
Qed.

Lemma lookup_set_other {V} (k k' : string) (v : V) (o : Obj V) :
  k' <> k -> lookup k' (set k v o) = lookup k' o.
Proof.
  intros Hne. unfold set. destruct (lookup k o).
  - now apply lookup_replace_value_other.
  - destruct (array_index k).
    + now apply lookup_insert_index_other.
    + now apply lookup_app_other.
Qed.

(** ** The Hebbian update (app.js 1081-1129) *)

Lemma extends_refl (g : Graph) : extends g g.
Proof. intros c l H. exists l. split; [assumption | apply incl_refl]. Qed.

Lemma extends_trans (g1 g2 g3 : Graph) :
  extends g1 g2 -> extends g2 g3 -> extends g1 g3.
Proof.
  intros H12 H23 c l H. destruct (H12 c l H) as [l2 [H2 Hi2]].
  destruct (H23 c l2 H2) as [l3 [H3 Hi3]].
  exists l3. split; [assumption | eapply incl_tran; eassumption].
Qed.

Lemma extends_linked (x y : string) (g g' : Graph) :
  extends g g' -> linked x y g -> linked x y g'.
Proof.
  intros He [l [Hl Hy]]. destruct (He x l Hl) as [l' [Hl' Hi]].
  exists l'. split; [assumption | now apply Hi].
Qed.

Lemma ensure_node_extends (c : string) (g : Graph) : extends g (ensure_node c g).
Proof.
  unfold ensure_node, read. destruct (lookup c g) as [l |] eqn:E;
    [apply extends_refl |].
  destruct (inherited c); [apply extends_refl |].
  intros x l Hx. exists l. split; [| apply incl_refl].
  rewrite lookup_set_other; [assumption |]. intros ->. congruence.
Qed.

Lemma add_link_extends (c d : string) (g g' : Graph) :
  add_link c d g = Some g' -> extends g g'.
Proof.
  unfold add_link, read. destruct (lookup c g) as [links |] eqn:E.
  - destruct (existsb (String.eqb d) links).
    + intros H. injection H as <-. apply extends_refl.
    + intros H. injection H as <-. intros x l Hx.
      destruct (String.eqb_spec x c) as [-> | Hne].
      * rewrite lookup_set_same. eexists. split; [reflexivity |].
        rewrite E in Hx. injection Hx as <-. now apply incl_appl, incl_refl.
      * exists l. split; [| apply incl_refl]. now rewrite lookup_set_other.
  - destruct (inherited c); discriminate.
Qed.

Lemma add_link_linked (c d : string) (g g' : Graph) :
  add_link c d g = Some g' -> linked c d g'.
Proof.
  unfold add_link, read. destruct (lookup c g) as [links |] eqn:E.
  - destruct (existsb (String.eqb d) links) eqn:Hd.
    + intros H. injection H as <-. exists links. split; [assumption |].
      apply existsb_exists in Hd. destruct Hd as [y [Hy Heq]].
      apply String.eqb_eq in Heq. now subst.
    + intros H. injection H as <-. exists (links ++ [d])%list.
      split; [apply lookup_set_same |]. apply in_or_app. right. now left.
  - destruct (inherited c); discriminate.
Qed.

Lemma link_with_later_extends (c : string) (later : list string) (g g' : Graph) :
  link_with_later c later g = Some g' -> extends g g'.
Proof.
  revert g. induction later as [| d later IH]; intros g; simpl.
  - intros H. injection H as <-. apply extends_refl.
  - destruct (c =? d)%string; [apply IH |].
    destruct (add_link c d g) as [g1 |] eqn:E1; [| discriminate].
    destruct (add_link d c (ensure_node d g1)) as [g2 |] eqn:E2; [| discriminate].
    intros H. apply IH in H.
    eapply extends_trans; [eapply add_link_extends; eassumption |].
    eapply extends_trans; [apply ensure_node_extends |].
    eapply extends_trans; [eapply add_link_extends; eassumption | assumption].
Qed.

Lemma link_with_later_links (c : string) (later : list string) (g g' : Graph) :
  link_with_later c later g = Some g' ->
  forall d, In d later -> d <> c -> linked c d g' /\ linked d c g'.
Proof.
  revert g. induction later as [| d0 later IH]; intros g; simpl; [contradiction |].
  destruct (String.eqb_spec c d0) as [<- | Hne].
  - intros H d [-> | Hd] Hdc; [now destruct Hdc | eapply IH; eassumption].
  - destruct (add_link c d0 g) as [g1 |] eqn:E1; [| discriminate].
    destruct (add_link d0 c (ensure_node d0 g1)) as [g2 |] eqn:E2;
      [| discriminate].
    intros H d [<- | Hd] Hdc; [| eapply IH; eassumption].
    pose proof (link_with_later_extends _ _ _ _ H) as Hext.
    split; eapply extends_linked; try exact Hext.
    + eapply extends_linked; [eapply add_link_extends; exact E2 |].
      eapply extends_linked; [apply ensure_node_extends |].
      eapply add_link_linked; exact E1.
    + eapply add_link_linked; exact E2.
Qed.

Lemma link_words_extends (ws : list string) (g g' : Graph) :
  link_words ws g = Some g' -> extends g g'.
Proof.
  revert g. induction ws as [| c later IH]; intros g; simpl.
  - intros H. injection H as <-. apply extends_refl.
  - destruct (link_with_later c later (ensure_node c g)) as [g1 |] eqn:E;
      [| discriminate].
    intros H. apply IH in H.
    eapply extends_trans; [apply ensure_node_extends |].
    eapply extends_trans; [eapply link_with_later_extends; eassumption |].
    assumption.
Qed.

Lemma link_words_links (ws : list string) (g g' : Graph) :
  link_words ws g = Some g' ->
  forall a b, In a ws -> In b ws -> a <> b -> linked a b g'.
Proof.
  revert g. induction ws as [| c later IH]; intros g; simpl; [contradiction |].
  destruct (link_with_later c later (ensure_node c g)) as [g1 |] eqn:E;
    [| discriminate].
  intros H a b Ha Hb Hab.
  pose proof (link_words_extends _ _ _ H) as Hext.
  destruct Ha as [<- | Ha], Hb as [<- | Hb].
  - now destruct Hab.
  - eapply extends_linked; [exact Hext |].
    apply (link_with_later_links _ _ _ _ E b Hb). congruence.
  - eapply extends_linked; [exact Hext |].
    apply (link_with_later_links _ _ _ _ E a Ha). congruence.
  - eapply IH; eassumption.
Qed.

(** X10. A Hebbian update that completes links every two different content
    words of the thought in both directions. *)
Theorem hebbian_update_links_both_ways (newThought : string) (g g' : Graph)
  (a b : string) :
  hebbian_update newThought g = Some g' ->
  In a (content_words newThought) -> In b (content_words newThought) ->
  a <> b ->
  linked a b g' /\ linked b a g'.
Proof.
  unfold hebbian_update. intros H Ha Hb Hab.
  destruct (1 <? List.length (content_words newThought)) eqn:Hlen.
  - split; eapply link_words_links; try eassumption. congruence.
  - apply Nat.ltb_ge in Hlen.
    destruct (content_words newThought) as [| w [| w' ws]]; simpl in *;
      try lia; try contradiction.
    destruct Ha as [<- | []], Hb as [<- | []]. now destruct Hab.
Qed.

Lemma hebbian_update_links_both_ways_witness :
  linked "hello" "world"
    (match hebbian_update "hello world" default_conceptGraph with
     | Some g => g
     | None => []
     end)
  /\ linked "world" "hello"
       (match hebbian_update "hello world" default_conceptGraph with
        | Some g => g
        | None => []
        end).
Proof.
  apply (hebbian_update_links_both_ways "hello world" default_conceptGraph).
  - vm_compute. reflexivity.
  - vm_compute. tauto.
  - vm_compute. tauto.
  - discriminate.
Defined.

(** X11. A Hebbian update that completes removes nothing: every concept of
    the graph is still a concept and keeps all its links. *)
Theorem hebbian_update_keeps_nodes_and_links (newThought : string)
  (g g' : Graph) :
  hebbian_update newThought g = Some g' -> extends g g'.
Proof.
  unfold hebbian_update.
  destruct (1 <? List.length (content_words newThought)).
  - apply link_words_extends.
  - intros H. injection H as <-. apply extends_refl.
Qed.

Lemma hebbian_update_keeps_nodes_and_links_witness :
  exists links',
    lookup "time"
      (match hebbian_update "time and its past" default_conceptGraph with
       | Some g => g
       | None => []
       end)
    = Some links'
    /\ incl ["past"; "future"; "present"; "flow"; "moment"; "duration"] links'.
Proof.
  apply (hebbian_update_keeps_nodes_and_links "time and its past"
           default_conceptGraph
           (match hebbian_update "time and its past" default_conceptGraph with
            | Some g => g
            | None => []
            end)).
  - vm_compute. reflexivity.
  - vm_compute. reflexivity.
Defined.

Lemma hebbian_update_no_duplicate_edges_witness :
  no_duplicate_edges
    (match hebbian_update "memory of a past self" default_conceptGraph with
     | Some g => g
     | None => []
     end).
Proof.
  apply (hebbian_update_no_duplicate_edges "memory of a past self"
           default_conceptGraph).
  - unfold no_duplicate_edges.
    repeat (constructor;
            [cbn [snd];
             repeat (constructor; [simpl; intuition discriminate |]);
             constructor |]).
    constructor.
  - vm_compute. reflexivity.
Defined.

(** ** The counts of the frequency table (app.js 467-475) *)

Lemma pair_key_comm (a b : string) : pair_key a b = pair_key b a.
Proof.
  unfold pair_key.
  destruct (String.leb a b) eqn:Hab, (String.leb b a) eqn:Hba; try reflexivity.
  - now rewrite (String.leb_antisym a b Hab Hba).
  - destruct (String.leb_total a b); congruence.
Qed.

Lemma total_count_app (m m' : Obj nat) :
  total_count (m ++ m')%list = total_count m + total_count m'.
Proof.
  induction m as [| [k n] m IH]; simpl; [reflexivity |]. rewrite IH. lia.
Qed.

Lemma total_count_replace_value (k : string) (v old : nat) (m : Obj nat) :
  lookup k m = Some old ->
  total_count (replace_value k v m) + old = total_count m + v.
Proof.
  induction m as [| [k' n] m IH]; simpl; [discriminate |].
  destruct (k =? k')%string; simpl.
  - intros H. injection H as <-. lia.
  - intros H. apply IH in H. lia.
Qed.

Lemma total_count_insert_index (i : N) (k : string) (v : nat) (m : Obj nat) :
  total_count (insert_index i k v m) = total_count m + v.
Proof.
  induction m as [| [k' n] m IH]; simpl; [lia |].
  destruct (array_index k') as [i' |]; [destruct (i <? i')%N |]; simpl; lia.
Qed.

Lemma total_count_count_pair (key : string) (m : Obj nat) :
  total_count (count_pair key m) = S (total_count m).
Proof.
  unfold count_pair, set. destruct (lookup key m) as [n |] eqn:E.
  - pose proof (total_count_replace_value key (n + 1) n m E). lia.
  - destruct (array_index key).
    + rewrite total_count_insert_index. lia.
    + rewrite total_count_app. simpl. lia.
Qed.

Lemma total_count_count_with (w : string) (later : list string) (m : Obj nat) :
  total_count (count_with w later m) = total_count m + List.length later.
Proof.
  revert m. induction later as [| w' later IH]; intros m; simpl; [lia |].
  rewrite IH, total_count_count_pair. lia.
Qed.

Lemma total_count_count_pairs (ws : list string) (m : Obj nat) :
  2 * total_count (count_pairs ws m)
  = 2 * total_count m + List.length ws * (List.length ws - 1).
Proof.
  revert m. induction ws as [| w later IH]; intros m;
    cbn [count_pairs List.length]; [lia |].
  rewrite IH, total_count_count_with.
  generalize (List.length later) as n. intros n.
  destruct n as [| n]; [lia |].
  replace (S (S n) - 1) with (S n) by lia.
  replace (S n - 1) with n by lia. nia.
Qed.

(** X13. One call of [updateConceptPairFrequency] adds one count for every
    two positions of content words of the fragment, n(n-1)/2 counts for n
    content words, and the key under which a pair is counted does not
    depend on the order of its two words. *)
Theorem updateConceptPairFrequency_counts_every_pair (memoryText : string)
  (m : Obj nat) :
  (let n := List.length (content_words memoryText) in
   2 * total_count (updateConceptPairFrequency memoryText m)
   = 2 * total_count m + n * (n - 1))
  /\ forall a b, count_pairs [a; b] m = count_pairs [b; a] m.
Proof.
  split.
  - apply total_count_count_pairs.
  - intros a b. simpl. now rewrite pair_key_comm.
Qed.

(** ** The Attention Stack (app.js 1057-1072) *)

Local Open Scope Q_scope.

Lemma reinforce_weights (concept : string) (stack : list Attention) :
  Forall (fun a => a_weight a <= 1) stack ->
  Forall (fun a => a_weight a <= 1) (reinforce concept stack).
Proof.
  induction stack as [| a stack IH]; simpl.
  - intros _. constructor; [simpl; lra | constructor].
  - intros H. inversion H as [| ? ? Ha Hs]; subst.
    destruct (a_concept a =? concept)%string.
    + constructor; [simpl; apply Q.le_min_l | assumption].
    + constructor; [assumption | now apply IH].
Qed.

Lemma reinforce_concepts (concept : string) (stack : list Attention) :
  map a_concept (reinforce concept stack)
  = if existsb (String.eqb concept) (map a_concept stack)
    then map a_concept stack
    else (map a_concept stack ++ [concept])%list.
Proof.
  induction stack as [| a stack IH]; simpl; [reflexivity |].
  rewrite (String.eqb_sym concept (a_concept a)).
  destruct (a_concept a =? concept)%string; simpl; [reflexivity |].
  rewrite IH. now destruct (existsb _ _).
Qed.

Lemma reinforce_NoDup (concept : string) (stack : list Attention) :
  NoDup (map a_concept stack) ->
  NoDup (map a_concept (reinforce concept stack)).
Proof.
  intros H. rewrite reinforce_concepts.
  destruct (existsb (String.eqb concept) (map a_concept stack)) eqn:E;
    [assumption |].
  apply NoDup_app; [assumption | repeat constructor; intros [] |].
  intros x Hx [<- | []]. apply In_existsb_eqb in Hx. congruence.
Qed.

(** Pruning the stack keeps its concepts different. *)
Lemma pruned_concepts_distinct (keep : Attention -> bool)
  (stack : list Attention) :
  NoDup (map a_concept stack) -> NoDup (map a_concept (filter keep stack)).
Proof.
  induction stack as [| a stack IH]; simpl; [auto |].
  intros H. inversion H as [| ? ? Ha Hs]; subst.
  destruct (keep a); simpl; [| now apply IH].
  constructor; [| now apply IH].
  intros Hin. apply Ha. apply in_map_iff in Hin.
  destruct Hin as [a' [Heq Hin]]. apply filter_In in Hin.
  apply in_map_iff. exists a'. tauto.
Qed.

Lemma NoDup_map_insert_desc {A B} (f : A -> B) (key : A -> Q) (x : A)
  (l : list A) :
  NoDup (map f (x :: l)) -> NoDup (map f (insert_desc key x l)).
Proof.
  induction l as [| y l IH]; simpl; [auto |].
  intros H. destruct (Qle_bool (key y) (key x)); [exact H |].
  inversion H as [| ? ? Hx Hl]; subst. inversion Hl as [| ? ? Hy Hl']; subst.
  simpl. constructor.
  - intros Hin. apply in_map_iff in Hin. destruct Hin as [z [Hz Hin]].
    apply insert_desc_In in Hin. destruct Hin as [-> | Hin].
    + apply Hx. left. congruence.
    + apply Hy. apply in_map_iff. exists z. tauto.
  - apply IH. simpl. constructor; [| assumption].
    intros Hin. apply Hx. now right.
Qed.

Lemma NoDup_map_sort_desc {A B} (f : A -> B) (key : A -> Q) (l : list A) :
  NoDup (map f l) -> NoDup (map f (sort_desc key l)).
Proof.
  unfold sort_desc. induction l as [| x l IH]; simpl; [auto |].
  intros H. inversion H as [| ? ? Hx Hl]; subst.
  apply NoDup_map_insert_desc. simpl. constructor; [| now apply IH].
  intros Hin. apply Hx. apply in_map_iff in Hin.
  destruct Hin as [y [Hy Hin]]. apply sort_desc_In in Hin.
  apply in_map_iff. exists y. tauto.
Qed.

Lemma NoDup_firstn {A} (n : nat) (l : list A) : NoDup l -> NoDup (firstn n l).
Proof.
  revert n. induction l as [| x l IH]; intros n; destruct n; simpl;
    try constructor.
  - inversion H; subst. intros Hin. apply In_firstn in Hin. contradiction.
  - inversion H; subst. now apply IH.
Qed.

(** X14. The Attention Stack a thought leaves holds at most 5 concepts, in
    descending order of weight, every weight above 0.1; when no weight was
    above 1 before, none is above 0.9 after, and when no concept was held
    twice before, none is after. *)
Theorem attend_keeps_attention_bounded (newThought : string)
  (stack : list Attention) :
  let after := attend newThought stack in
  (List.length after <= 5)%nat
  /\ descending a_weight after
  /\ Forall (fun a => 0.1 < a_weight a) after
  /\ (Forall (fun a => a_weight a <= 1) stack ->
      Forall (fun a => a_weight a <= 0.9) after)
  /\ (NoDup (map a_concept stack) -> NoDup (map a_concept after)).
Proof.
  intros after. subst after. unfold attend.
  set (reinforced := fold_left (fun acc concept => reinforce concept acc)
                               (content_words newThought) stack).
  split; [apply firstn_le_length |].
  split; [apply descending_firstn, sort_desc_descending |].
  split; [| split].
  - apply Forall_forall. intros a Ha. apply In_firstn in Ha.
    apply sort_desc_In in Ha. apply filter_In in Ha.
    destruct Ha as [_ Ha]. now apply Qlt_bool_true in Ha.
  - intros Hw.
    assert (Hr : Forall (fun a => a_weight a <= 1) reinforced).
    { subst reinforced. revert stack Hw.
      induction (content_words newThought) as [| w ws IH]; intros stack Hw;
        simpl; [assumption |].
      apply IH. now apply reinforce_weights. }
    apply Forall_forall. intros a Ha. apply In_firstn in Ha.
    apply sort_desc_In in Ha. apply filter_In in Ha. destruct Ha as [Ha _].
    apply in_map_iff in Ha. destruct Ha as [a0 [<- Ha0]].
    rewrite Forall_forall in Hr. specialize (Hr a0 Ha0). simpl. lra.
  - intros Hn.
    assert (Hr : NoDup (map a_concept reinforced)).
    { subst reinforced. revert stack Hn.
      induction (content_words newThought) as [| w ws IH]; intros stack Hn;
        simpl; [assumption |].
      apply IH. now apply reinforce_NoDup. }
    rewrite <- firstn_map. apply NoDup_firstn.
    apply NoDup_map_sort_desc, pruned_concepts_distinct.
    rewrite map_map. simpl. exact Hr.
Qed.

Local Close Scope Q_scope.

(** ** The reply of [callLLM] and the error it records (app.js 45-78) *)

(** X15. The error [callLLM] records goes with the text it returns: when it
    clears the error, the response was ok and the returned text is the
    generated text of the first entry of the body, without the special
    tokens and trimmed; when it records an error, the recorded message and
    the returned text both start with the failure marker. *)
Theorem callLLM_error_goes_with_reply (h : Host) (f : FetchOutcome) :
  match callLLM h f with
  | Normal (returned, None) =>
      exists r body s,
        f = FetchResolves r /\ ok r = true /\ json r = JsonResolves body
        /\ generated_text_of body = Some s
        /\ returned = trim (strip_from 0 s)
  | Normal (returned, Some recorded) =>
      is_marker returned = true /\ is_marker recorded = true
  | Throw _ => False
  end.
Proof.
  unfold callLLM, try_catch, catch_block, try_block, bind.
  destruct f as [e | r]; simpl.
  { split; [reflexivity | apply is_marker_literal]. }
  destruct (ok r) eqn:Hok; simpl.
  - unfold success_branch, await_json, bind.
    destruct (json r) as [e | body] eqn:Hj.
    { split; [reflexivity | apply is_marker_literal]. }
    destruct (truthy body); [| split; reflexivity].
    destruct (length_positive h body) as [[|] | e];
      [| split; reflexivity | split; [reflexivity | apply is_marker_literal]].
    destruct (first body) as [head | e] eqn:Hf;
      [| split; [reflexivity | apply is_marker_literal]].
    destruct head as [x |]; simpl;
      [| split; [reflexivity | apply is_marker_literal]].
    destruct x as [| b | q | s | items | props]; simpl;
      try (split; [reflexivity | apply is_marker_literal]);
      try (split; reflexivity).
    destruct (lookup "generated_text" props) as [v |] eqn:Hl; simpl;
      [| split; reflexivity].
    destruct v as [| b | q | s | items | props']; simpl;
      try (split; reflexivity);
      try (split; [reflexivity | apply is_marker_literal]);
      try (destruct b; simpl;
           [split; [reflexivity | apply is_marker_literal] | split; reflexivity]);
      try (destruct (Qeq_bool q 0); simpl;
           [split; reflexivity | split; [reflexivity | apply is_marker_literal]]).
    destruct (s =? "")%string eqn:Hs; simpl; [split; reflexivity |].
    exists r, body, s. repeat split; try assumption.
    unfold generated_text_of. now rewrite Hf, Hl, Hs.
  - destruct (error_branch h r) as [[t [m |]] | e] eqn:He.
    + split; [eapply error_branch_marker; eassumption |].
      revert He. unfold error_branch, bind.
      destruct (await_json r) as [errorData |]; [| discriminate].
      destruct (get errorData "error") as [err |]; [| discriminate].
      destruct (match err with
                | Some x => if truthy x then ToString h x
                            else Normal "Unknown error"
                | None => Normal "Unknown error"
                end) as [shown |]; [| discriminate].
      destruct (status r =? 401)%nat.
      { intros H. injection H as _ <-. reflexivity. }
      destruct (if (status r =? 503)%nat then includes_loading err
                else Normal false) as [[|] |]; [| | discriminate].
      { intros H. injection H as _ <-. reflexivity. }
      destruct err as [x |].
      * destruct (truthy x).
        -- destruct (ToString h x) as [s |]; [| discriminate].
           intros H. injection H as _ <-. apply is_marker_literal.
        -- intros H. injection H as _ <-. reflexivity.
      * intros H. injection H as _ <-. reflexivity.
    + exfalso. revert He. unfold error_branch, bind.
      destruct (await_json r) as [errorData |]; [| discriminate].
      destruct (get errorData "error") as [err |]; [| discriminate].
      destruct (match err with
                | Some x => if truthy x then ToString h x
                            else Normal "Unknown error"
                | None => Normal "Unknown error"
                end) as [shown |]; [| discriminate].
      destruct (status r =? 401)%nat; [discriminate |].
      destruct (if (status r =? 503)%nat then includes_loading err
                else Normal false) as [[|] |]; try discriminate.
      destruct err as [x |]; [| discriminate].
      destruct (truthy x); [| discriminate].
      destruct (ToString h x); discriminate.
    + split; [reflexivity | apply is_marker_literal].
Qed.

(** ** The updates of the internal state along a run *)

Lemma internal_updates_trans (s1 s2 s3 : InternalState) :
  internal_updates s1 s2 -> internal_updates s2 s3 -> internal_updates s1 s3.
Proof.
  intros H12 H23. induction H23 as [| s2 s3 s4 _ IH Hstep]; [assumption |].
  eapply updates_step; [apply IH; assumption | assumption].
Qed.

Lemma internal_updates_preserve (P : InternalState -> Prop) :
  (forall s s', internal_update s s' -> P s -> P s') ->
  forall s s', internal_updates s s' -> P s -> P s'.
Proof.
  intros Hstep s s' H. induction H as [| s1 s2 s3 _ IH Hu]; [auto |].
  intros Hs. eapply Hstep; [exact Hu | now apply IH].
Qed.

Lemma external_stimulus_internal (o : Oracle) (live : State) :
  internalState (external_stimulus o live) = internalState live.
Proof.
  unfold external_stimulus. destruct (Qlt_bool (r_external o) 0.2); reflexivity.
Qed.

Lemma subconscious_updates (o : Oracle) (live : State) :
  internal_updates (internalState live) (internalState (subconscious o live)).
Proof.
  unfold subconscious.
  destruct (negb (Nat.eqb (List.length (beliefs (internalState live))) 0)
            && Qlt_bool (r_reinforce o) 0.7);
    destruct (negb (Nat.eqb (List.length (conflicts (internalState live))) 0)
              && Qlt_bool (r_ruminate o) 0.5);
    try destruct (negb (Nat.eqb (List.length (openQuestions (internalState live))) 0)
                  && Qlt_bool (r_ponder o) 0.5);
    component_stores; issue_updates.
Qed.

Lemma schema_step_updates (live : State) :
  internal_updates (internalState live) (internalState (schema_step live)).
Proof.
  unfold schema_step.
  destruct (sc_formed (schema_check (conceptFrequencyMap live) (conceptGraph live)));
    component_stores; issue_updates.
Qed.

Lemma dream_branch_updates (o : Oracle) (replaced : bool) (live : State) :
  internal_updates (internalState live)
                   (internalState (final (dream_branch o replaced live))).
Proof.
  unfold dream_branch.
  destruct (callLLM (host o) (llm_dream o)) as [[generated err] |];
    [destruct (callLLM (host o) (llm_dream_reflection o)) as [[reflection err'] |] |];
    destruct replaced; component_stores; issue_updates.
Qed.

Lemma self_inspection_updates (o : Oracle) (snap live : State) :
  internal_updates (internalState live)
                   (internalState (final (self_inspection_branch o snap live))).
Proof.
  unfold self_inspection_branch.
  destruct (callLLM (host o) (llm_meta o)) as [[reflection err] |];
    component_stores; issue_updates.
Qed.

Lemma goal_branch_updates (o : Oracle) (current : Goal) (live : State) :
  internal_updates (internalState live)
                   (internalState (final (goal_branch o current live))).
Proof.
  unfold goal_branch.
  destruct (callLLM (host o) (llm_goal o)) as [[goalThought err] |];
    component_stores; [| apply updates_none].
  apply updates_step with (s2 := push_stream goalThought (internalState live)).
  - eapply updates_step; [apply updates_none | apply upd_stream].
  - exact (upd_goal (goal current)
                     (push_stream goalThought (internalState live))).
Qed.

Lemma hebbian_on_concepts_internal (t : string) (out : Outcome) :
  internalState (final (hebbian_on_concepts t out)) = internalState (final out).
Proof.
  unfold hebbian_on_concepts.
  destruct (hebbian_update t (conceptGraph (final out))); reflexivity.
Qed.

Lemma hebbian_on_beliefs_internal (t : string) (out : Outcome) :
  internalState (final (hebbian_on_beliefs t out)) = internalState (final out).
Proof.
  unfold hebbian_on_beliefs.
  destruct (hebbian_update t (beliefGraph (final out))); reflexivity.
Qed.

Lemma topic_shift_check_updates (o : Oracle) (snap : State) (t : string)
  (live : State) :
  internal_updates (internalState live)
                   (internalState (topic_shift_check o snap t live)).
Proof.
  unfold topic_shift_check.
  destruct (isStuck snap || Qlt_bool 0.7 (mentalTension (internalState snap)));
    [| destruct ((topicLockCounter live <=? 0)%Z
                 || Qlt_bool (r_switch o) (topicSwitchChance (modulators snap)))];
    component_stores; issue_updates.
Qed.

Lemma commit_thought_updates (o : Oracle) (snap : State) (t : string)
  (live : State) :
  internal_updates (internalState live)
                   (internalState (final (commit_thought o snap t live))).
Proof.
  unfold commit_thought, perturbation_step. component_stores.
  eapply internal_updates_trans; [| apply topic_shift_check_updates].
  rewrite hebbian_on_beliefs_internal, hebbian_on_concepts_internal.
  component_stores. issue_updates.
Qed.

Lemma normal_branch_updates (o : Oracle) (snap live : State) :
  internal_updates (internalState live)
                   (internalState (final (normal_branch o snap live))).
Proof.
  unfold normal_branch.
  destruct (topic snap) as [topicText |]; [| apply updates_none].
  destruct (generateRealThought o (llm_thought_1 o)) as [[t1 e1] |];
    [| apply updates_none].
  destruct (negb (isThoughtTooSimilar t1 (memoryStack snap))).
  { apply (commit_thought_updates o snap t1 (setLlmError e1 live)). }
  destruct (generateRealThought o (llm_thought_2 o)) as [[t2 e2] |];
    [| apply updates_none].
  destruct (negb (isThoughtTooSimilar t2 (memoryStack snap))).
  { apply (commit_thought_updates o snap t2 (setLlmError e2 live)). }
  destruct (generateRealThought o (llm_thought_3 o)) as [[t3 e3] |];
    [| apply updates_none].
  apply (commit_thought_updates o snap _ (setLlmError e3 live)).
Qed.

Lemma select_sub_agent_goals (o : Oracle) (snap : State) (prev : InternalState) :
  goals (select_sub_agent o snap prev) = goals prev.
Proof.
  unfold select_sub_agent.
  destruct (_ && _); [reflexivity |]. destruct (_ && _); [reflexivity |].
  destruct (mode snap); reflexivity.
Qed.

Lemma subconscious_goals (o : Oracle) (live : State) :
  goals (internalState (subconscious o live)) = goals (internalState live).
Proof.
  unfold subconscious.
  destruct (negb (Nat.eqb (List.length (beliefs (internalState live))) 0)
            && Qlt_bool (r_reinforce o) 0.7);
    destruct (negb (Nat.eqb (List.length (conflicts (internalState live))) 0)
              && Qlt_bool (r_ruminate o) 0.5);
    try destruct (negb (Nat.eqb (List.length (openQuestions (internalState live))) 0)
                  && Qlt_bool (r_ponder o) 0.5);
    reflexivity.
Qed.

Lemma schema_step_goals (live : State) :
  goals (internalState (schema_step live)) = goals (internalState live).
Proof.
  unfold schema_step.
  destruct (sc_formed (schema_check (conceptFrequencyMap live) (conceptGraph live)));
    reflexivity.
Qed.

Lemma waking_cycle_updates (o : Oracle) (snap live : State) :
  goals (internalState live) = goals (internalState snap) ->
  internal_updates (internalState live)
                   (internalState (final (waking_cycle o snap live))).
Proof.
  intros Hg. unfold waking_cycle. rewrite !final_log_when.
  set (live3 := when (schema_due snap) schema_step
                  (frequency_sweep
                     (when (subconscious_due snap) (subconscious o) live))).
  assert (H3 : internal_updates (internalState live) (internalState live3)
               /\ goals (internalState live3) = goals (internalState snap)).
  { subst live3. unfold when, frequency_sweep.
    destruct (schema_due snap), (subconscious_due snap); component_stores.
    - split.
      + eapply internal_updates_trans; [apply subconscious_updates |].
        apply (schema_step_updates
                 (set_conceptFrequencyMap _ (subconscious o live))).
      + rewrite schema_step_goals. component_stores.
        now rewrite subconscious_goals.
    - split.
      + apply (schema_step_updates (set_conceptFrequencyMap _ live)).
      + now rewrite schema_step_goals.
    - split; [apply subconscious_updates | now rewrite subconscious_goals].
    - split; [apply updates_none | assumption]. }
  destruct H3 as [H3 Hg3].
  destruct (inspection_due snap).
  { eapply internal_updates_trans; [exact H3 | apply self_inspection_updates]. }
  assert (H4 : internal_updates (internalState live)
                 (internalState
                    (setInternalState (set_goals (sorted_goals snap)) live3))).
  { eapply updates_step; [exact H3 |]. component_stores.
    unfold sorted_goals. rewrite <- Hg3. apply upd_sort. }
  destruct (currentGoal snap) as [current |].
  - destruct (Qlt_bool (r_goal o) 0.25).
    + eapply internal_updates_trans; [exact H4 | apply goal_branch_updates].
    + eapply internal_updates_trans; [exact H4 | apply normal_branch_updates].
  - eapply internal_updates_trans; [exact H3 | apply normal_branch_updates].
Qed.

Lemma cycle_updates (o : Oracle) (st : State) :
  internal_updates (internalState st) (internalState (final (cycle o st))).
Proof.
  unfold cycle. rewrite final_log_when.
  set (live2 := setInternalState (select_sub_agent o st)
                  (external_stimulus o
                     (setCognitiveMaturity (fun prev => Qmin 1 (prev + 0.001)%Q)
                        st))).
  assert (H2 : internal_updates (internalState st) (internalState live2)
               /\ goals (internalState live2) = goals (internalState st)).
  { subst live2. component_stores. rewrite external_stimulus_internal.
    component_stores. split; [issue_updates | apply select_sub_agent_goals]. }
  destruct H2 as [H2 Hg2].
  destruct (dream_due o st).
  - eapply internal_updates_trans; [exact H2 | apply dream_branch_updates].
  - eapply internal_updates_trans; [exact H2 |].
    now apply waking_cycle_updates.
Qed.

Lemma engine_step_updates (e : EngineStep) (st : State) :
  internal_updates (internalState st) (internalState (engine_step e st)).
Proof.
  destruct e as [o | h f at_time |]; simpl.
  - apply cycle_updates.
  - unfold intuition_resolves.
    destruct (callLLM h f) as [[intuition err] |]; component_stores;
      issue_updates.
  - apply updates_none.
Qed.

Lemma run_updates (steps : list EngineStep) (st : State) :
  internal_updates (internalState st) (internalState (run steps st)).
Proof.
  unfold run. revert st. induction steps as [| e steps IH]; intros st; simpl.
  - apply updates_none.
  - eapply internal_updates_trans; [apply engine_step_updates | apply IH].
Qed.

(** ** What the updates of the internal state keep *)

Local Open Scope Q_scope.

Lemma select_sub_agent_keeps (o : Oracle) (snap : State) (prev : InternalState) :
  exists agent, select_sub_agent o snap prev = set_dominantSubAgent agent prev.
Proof.
  unfold select_sub_agent.
  destruct (_ && _); [eexists; reflexivity |].
  destruct (_ && _); [eexists; reflexivity |].
  destruct (mode snap); eexists; reflexivity.
Qed.

Lemma meta_goals_keeps (reflectionLower : string) (prev : InternalState) :
  meta_goals reflectionLower prev = prev
  \/ exists g, (urgency g == 0.8 \/ urgency g == 0.9)
               /\ meta_goals reflectionLower prev
                  = set_goals (goals prev ++ [g])%list prev.
Proof.
  unfold meta_goals.
  repeat match goal with
         | |- context [if ?b then _ else _] => destruct b
         end; auto; right; eexists; (split; [| reflexivity]); simpl;
    [left | right]; reflexivity.
Qed.

Lemma dream_reflection_update_keeps (dreamReflection : string)
  (prev : InternalState) :
  beliefs (dream_reflection_update dreamReflection prev) = beliefs prev
  /\ goals (dream_reflection_update dreamReflection prev) = goals prev
  /\ mentalTension (dream_reflection_update dreamReflection prev)
     = mentalTension prev
  /\ currentStream (dream_reflection_update dreamReflection prev)
     = (last3 (currentStream prev) ++ [dreamReflection])%list
  /\ (conflicts (dream_reflection_update dreamReflection prev) = conflicts prev
      \/ (existsb (String.eqb "dream-induced conflict") (conflicts prev) = false
          /\ conflicts (dream_reflection_update dreamReflection prev)
             = (conflicts prev ++ ["dream-induced conflict"%string])%list)).
Proof.
  unfold dream_reflection_update.
  destruct (includes (toLowerCase dreamReflection) "conflict"
            && negb (existsb (String.eqb "dream-induced conflict")
                             (conflicts prev))) eqn:E;
    destruct (includes (toLowerCase dreamReflection) "question");
    cbn; repeat split; auto.
  all: right; apply andb_true_iff in E; destruct E as [_ E];
    apply negb_true_iff in E; auto.
Qed.

(** The tension a normal thought leaves and the conflicts it leaves. *)
Lemma normal_update_tension (o : Oracle) (snap : State) (t : string)
  (novelty : Q) (prev : InternalState) :
  exists x, mentalTension (normal_update o snap t novelty prev)
            = Qmax 0 (Qmin 1 x).
Proof.
  unfold normal_update.
  destruct (includes (toLowerCase t) "contradiction"
            || includes (toLowerCase t) "conflict"
            || includes (toLowerCase t) "tension");
    [destruct (negb (existsb (String.eqb "internal contradiction")
                             (conflicts prev))) |];
    cbn [mentalTension]; eexists; reflexivity.
Qed.

Lemma normal_update_conflicts (o : Oracle) (snap : State) (t : string)
  (novelty : Q) (prev : InternalState) :
  conflicts (normal_update o snap t novelty prev) = conflicts prev
  \/ (existsb (String.eqb "internal contradiction") (conflicts prev) = false
      /\ conflicts (normal_update o snap t novelty prev)
         = (conflicts prev ++ ["internal contradiction"%string])%list)
  \/ exists p, conflicts (normal_update o snap t novelty prev)
               = filter p (conflicts prev).
Proof.
  unfold normal_update.
  destruct (includes (toLowerCase t) "contradiction"
            || includes (toLowerCase t) "conflict"
            || includes (toLowerCase t) "tension");
    [destruct (negb (existsb (String.eqb "internal contradiction")
                             (conflicts prev))) eqn:E |];
    cbn [conflicts].
  - right. left. apply negb_true_iff in E. auto.
  - now left.
  - right. right. eexists. reflexivity.
Qed.

Lemma normal_update_beliefs (o : Oracle) (snap : State) (t : string)
  (novelty : Q) (prev : InternalState) :
  exists p gain bias,
    beliefs (normal_update o snap t novelty prev)
    = map (fun b => if (p b : bool)
                    then mkBelief (b_concept b) (b_stance b)
                           (Qmin 1 (b_confidence b + gain + bias))
                    else b)
          (beliefs prev).
Proof.
  unfold normal_update.
  exists (fun b => includes (toLowerCase t) (b_concept b)).
  exists (0.05 * novelty).
  exists (match activeSubAgent snap with
          | Some agent => beliefBias agent
          | None => 0
          end).
  destruct (includes (toLowerCase t) "contradiction"
            || includes (toLowerCase t) "conflict"
            || includes (toLowerCase t) "tension");
    [destruct (negb (existsb (String.eqb "internal contradiction")
                             (conflicts prev))) |];
    reflexivity.
Qed.

Lemma normal_update_goals (o : Oracle) (snap : State) (t : string)
  (novelty : Q) (prev : InternalState) :
  exists p,
    let relaxed := map (fun g => if (p g : bool) then relax_goal g else g)
                       (goals prev) in
    goals (normal_update o snap t novelty prev) = relaxed
    \/ exists name,
         goals (normal_update o snap t novelty prev)
         = (relaxed ++ [mkGoal name 0.5])%list.
Proof.
  unfold normal_update.
  exists (fun g => includes (toLowerCase t) (word_or_empty 1 (goal g))).
  destruct (includes (toLowerCase t) "contradiction"
            || includes (toLowerCase t) "conflict"
            || includes (toLowerCase t) "tension");
    [destruct (negb (existsb (String.eqb "internal contradiction")
                             (conflicts prev))) |];
    cbn [goals];
    match goal with
    | |- context [if ?b then (_ ++ _)%list else _] => destruct b
    end; [right; eexists; reflexivity | now left
         | right; eexists; reflexivity | now left
         | right; eexists; reflexivity | now left].
Qed.

(** [P] holds of the internal state along a run as soon as every update
    keeps it. *)
Lemma run_keeps (P : InternalState -> Prop) :
  (forall s s', internal_update s s' -> P s -> P s') ->
  forall steps st, P (internalState st) -> P (internalState (run steps st)).
Proof.
  intros Hstep steps st. apply (internal_updates_preserve P Hstep).
  apply run_updates.
Qed.

Lemma inject_nat_nonneg (n : nat) : 0 <= inject_Z (Z.of_nat n).
Proof. unfold Qle. simpl. lia. Qed.

Lemma internal_update_tension (s s' : InternalState) :
  internal_update s s' ->
  0 <= mentalTension s <= 1 -> 0 <= mentalTension s' <= 1.
Proof.
  intros H Ht. destruct H; try exact Ht.
  - destruct (select_sub_agent_keeps o snap prev) as [a ->]. exact Ht.
  - unfold record_contradictions. cbn [mentalTension].
    pose proof (inject_nat_nonneg (List.length detected)).
    split; [apply Q.min_glb; lra | apply Q.le_min_l].
  - destruct (meta_goals_keeps reflectionLower prev) as [-> | [g [_ ->]]];
      exact Ht.
  - destruct (dream_reflection_update_keeps dreamReflection prev)
      as (_ & _ & -> & _). exact Ht.
  - destruct (normal_update_tension o snap newThought thoughtNovelty prev)
      as [x ->].
    split; [apply Q.le_max_l | apply Q.max_lub; [lra | apply Q.le_min_l]].
  - cbn [set_mentalTension mentalTension].
    split; [apply Q.le_max_l | apply Q.max_lub; lra].
Qed.

(** X16. Along every run of the engine the mental tension stays between 0
    and 1 once it is there. *)
Theorem mental_tension_stays_in_unit_interval (steps : list EngineStep)
  (st : State) :
  0 <= mentalTension (internalState st) <= 1 ->
  0 <= mentalTension (internalState (run steps st)) <= 1.
Proof.
  apply (run_keeps (fun s => 0 <= mentalTension s <= 1)).
  exact internal_update_tension.
Qed.

Lemma mental_tension_stays_in_unit_interval_witness :
  0 <= mentalTension
         (internalState
            (run [RunCycle (sample_oracle 0.9 0.9 0.9 0.9
                              (generated "a tension, again"));
                  DreamReverts]
                 (default_state 0))) <= 1.
Proof.
  apply (mental_tension_stays_in_unit_interval
           [RunCycle (sample_oracle 0.9 0.9 0.9 0.9
                        (generated "a tension, again"));
            DreamReverts]
           (default_state 0)).
  simpl. lra.
Defined.

Local Close Scope Q_scope.

Lemma NoDup_add_new (x : string) (l : list string) :
  existsb (String.eqb x) l = false -> NoDup l -> NoDup (l ++ [x]).
Proof.
  intros Hx Hl. apply NoDup_app; [assumption | repeat constructor; intros [] |].
  intros y Hy [<- | []]. apply In_existsb_eqb in Hy. congruence.
Qed.

Lemma internal_update_conflicts (s s' : InternalState) :
  internal_update s s' -> NoDup (conflicts s) -> NoDup (conflicts s').
Proof.
  intros H Hn. destruct H; try exact Hn.
  - destruct (select_sub_agent_keeps o snap prev) as [a ->]. exact Hn.
  - unfold record_contradictions. cbn [conflicts]. apply set_of_NoDup.
  - destruct (meta_goals_keeps reflectionLower prev) as [-> | [g [_ ->]]];
      exact Hn.
  - destruct (dream_reflection_update_keeps dreamReflection prev)
      as (_ & _ & _ & _ & [-> | [Hx ->]]); [exact Hn |].
    now apply NoDup_add_new.
  - destruct (normal_update_conflicts o snap newThought thoughtNovelty prev)
      as [-> | [[Hx ->] | [p ->]]].
    + exact Hn.
    + now apply NoDup_add_new.
    + now apply NoDup_filter.
Qed.

(** X17. Along every run of the engine the conflicts list never holds a
    conflict twice once it holds none twice. *)
Theorem conflicts_are_never_repeated (steps : list EngineStep) (st : State) :
  NoDup (conflicts (internalState st)) ->
  NoDup (conflicts (internalState (run steps st))).
Proof.
  apply (run_keeps (fun s => NoDup (conflicts s))).
  exact internal_update_conflicts.
Qed.

Lemma conflicts_are_never_repeated_witness :
  NoDup (conflicts
           (internalState
              (run [RunCycle (sample_oracle 0.9 0.9 0.9 0.9
                                (generated "a conflict, again"));
                    RunCycle (sample_oracle 0.9 0.9 0.9 0.9
                                (generated "this conflict will not go"))]
                   (default_state 0)))).
Proof.
  apply (conflicts_are_never_repeated
           [RunCycle (sample_oracle 0.9 0.9 0.9 0.9
                        (generated "a conflict, again"));
            RunCycle (sample_oracle 0.9 0.9 0.9 0.9
                        (generated "this conflict will not go"))]
           (default_state 0)).
  simpl. constructor.
Defined.

(** ** The novelty gate of the normal cycle (app.js 953-987) *)




(** A generator that repeats the newest fragment three times: the cycle
    stores the fallback thought. *)
Example repeated_generation_falls_back :
  newest_text
    (final (cycle (sample_oracle 0.9 0.9 0.9 0.9
                     (generated "Scanning ambient noise..."))
                  (default_state 0)))
  = Some "(Stuck): circling consciousness... why?".
Proof. vm_compute. reflexivity. Qed.

(** ** Beliefs and goals along a run *)

Local Open Scope Q_scope.

Lemma update_nth_view (i : nat) (bs : list Belief) :
  stance_view (update_nth i reinforce_belief bs) = stance_view bs.
Proof.
  revert i. induction bs as [| b bs IH]; intros i; destruct i; simpl;
    try reflexivity.
  unfold stance_view in IH. now rewrite IH.
Qed.

Lemma update_nth_confidence (i : nat) (bs : list Belief) :
  Forall (fun b => b_confidence b <= 1) bs ->
  Forall (fun b => b_confidence b <= 1) (update_nth i reinforce_belief bs).
Proof.
  revert i. induction bs as [| b bs IH]; intros i H; destruct i; simpl;
    try assumption; inversion H; subst; constructor; auto.
  simpl. apply Q.le_min_l.
Qed.

Lemma internal_update_view (s s' : InternalState) :
  internal_update s s' ->
  stance_view (beliefs s') = stance_view (beliefs s).
Proof.
  intros H. destruct H; try reflexivity.
  - destruct (select_sub_agent_keeps o snap prev) as [a ->]. reflexivity.
  - apply update_nth_view.
  - destruct (meta_goals_keeps reflectionLower prev) as [-> | [g [_ ->]]];
      reflexivity.
  - destruct (dream_reflection_update_keeps dreamReflection prev) as (-> & _).
    reflexivity.
  - destruct (normal_update_beliefs o snap newThought thoughtNovelty prev)
      as (p & gain & bias & ->).
    unfold stance_view. rewrite map_map. apply map_ext.
    intros b. now destruct (p b).
Qed.

Lemma internal_update_confidence (s s' : InternalState) :
  internal_update s s' ->
  Forall (fun b => b_confidence b <= 1) (beliefs s) ->
  Forall (fun b => b_confidence b <= 1) (beliefs s').
Proof.
  intros H Hc. destruct H; try exact Hc.
  - destruct (select_sub_agent_keeps o snap prev) as [a ->]. exact Hc.
  - now apply update_nth_confidence.
  - destruct (meta_goals_keeps reflectionLower prev) as [-> | [g [_ ->]]];
      exact Hc.
  - destruct (dream_reflection_update_keeps dreamReflection prev) as (-> & _).
    exact Hc.
  - destruct (normal_update_beliefs o snap newThought thoughtNovelty prev)
      as (p & gain & bias & ->).
    apply Forall_forall. intros b Hb. apply in_map_iff in Hb.
    destruct Hb as [b0 [<- Hb0]]. rewrite Forall_forall in Hc.
    destruct (p b0); [simpl; apply Q.le_min_l | now apply Hc].
Qed.

(** X19. Along every run of the engine no confidence exceeds 1 once none
    does: the subconscious reinforcement and the update by a normal thought
    both cap it. *)
Theorem belief_confidence_never_exceeds_one (steps : list EngineStep)
  (st : State) :
  Forall (fun b => b_confidence b <= 1) (beliefs (internalState st)) ->
  Forall (fun b => b_confidence b <= 1)
         (beliefs (internalState (run steps st))).
Proof.
  apply (run_keeps (fun s => Forall (fun b => b_confidence b <= 1) (beliefs s))).
  exact internal_update_confidence.
Qed.

Lemma belief_confidence_never_exceeds_one_witness :
  Forall (fun b => b_confidence b <= 1)
         (beliefs
            (internalState
               (run [RunCycle (sample_oracle 0.9 0.9 0.9 0.9
                                 (generated "memory of the self"))]
                    (default_state 0)))).
Proof.
  apply (belief_confidence_never_exceeds_one
           [RunCycle (sample_oracle 0.9 0.9 0.9 0.9
                        (generated "memory of the self"))]
           (default_state 0)).
  repeat constructor; simpl; lra.
Defined.

Local Close Scope Q_scope.

(** *** The detector reads concepts and stances only *)

Lemma stance_of_view (bs : list Belief) (concept : string) :
  stance_of bs concept
  = fold_left (fun acc p => if (fst p =? concept)%string
                            then Some (snd p) else acc)
              (stance_view bs) None.
Proof.
  unfold stance_of, stance_view. generalize (@None string).
  induction bs as [| b bs IH]; intros acc; simpl; [reflexivity | apply IH].
Qed.

Lemma fold_left_ext {A B} (f g : A -> B -> A) (l : list B) (a : A) :
  (forall x y, f x y = g x y) -> fold_left f l a = fold_left g l a.
Proof.
  intros H. revert a. induction l as [| y l IH]; intros a; simpl;
    [reflexivity |]. now rewrite H, IH.
Qed.

Lemma detectContradictions_view (bs bs' : list Belief) (g : Graph) :
  stance_view bs = stance_view bs' ->
  detectContradictions bs g = detectContradictions bs' g.
Proof.
  intros Hv.
  assert (Hs : forall c, stance_of bs c = stance_of bs' c)
    by (intros c; now rewrite !stance_of_view, Hv).
  unfold detectContradictions, scan_graph, scan_predefined.
  erewrite (fold_left_ext _ _ predefinedContradictions).
  - apply fold_left_ext. intros acc [a links]. unfold scan_links. simpl.
    apply fold_left_ext. intros acc' b.
    unfold implied_contradiction. now rewrite !Hs.
  - intros acc [[c s1] s2]. unfold direct_contradiction. now rewrite Hs.
Qed.

Lemma default_beliefs_imply_nothing (a b : string) :
  implied_contradiction default_beliefs a b = false.
Proof.
  unfold implied_contradiction.
  destruct (stance_of default_beliefs a) as [sa |] eqn:Ea; [| reflexivity].
  destruct (stance_of default_beliefs b) as [sb |] eqn:Eb; [| reflexivity].
  clear Eb.
  destruct (String.eqb_spec a "logic") as [Hl | _].
  { subst a. vm_compute in Ea. injection Ea as <-.
    case_symbolic_tests; vm_compute; reflexivity. }
  destruct (String.eqb_spec a "chaos") as [Hc | _].
  { subst a. vm_compute in Ea. injection Ea as <-.
    case_symbolic_tests; vm_compute; reflexivity. }
  clear Ea. case_symbolic_tests; vm_compute; reflexivity.
Qed.

Lemma scan_graph_default_beliefs (g : Graph) (acc : list string) :
  scan_graph default_beliefs g acc = acc.
Proof.
  unfold scan_graph. revert acc.
  induction g as [| [a links] g IH]; intros acc; simpl; [reflexivity |].
  rewrite <- (IH acc) at 2. f_equal. unfold scan_links.
  clear IH. revert acc. induction links as [| b links IH]; intros acc; simpl;
    [reflexivity |].
  now rewrite default_beliefs_imply_nothing.
Qed.

(** X20. No step of the engine changes the concept or the stance of a
    belief, adds a belief or removes one. The contradiction detector reads
    nothing else of the beliefs, so on every belief graph it returns after
    a run what it returned before; from the default stores that is, on
    every graph, the one contradiction in the belief about self. *)
Theorem beliefs_keep_concept_and_stance (steps : list EngineStep) (st : State)
  (g : Graph) :
  stance_view (beliefs (internalState (run steps st)))
  = stance_view (beliefs (internalState st))
  /\ detectContradictions (beliefs (internalState (run steps st))) g
     = detectContradictions (beliefs (internalState st)) g
  /\ forall boot,
       detectContradictions
         (beliefs (internalState (run steps (default_state boot)))) g
       = [self_contradiction].
Proof.
  assert (Hv : forall st',
             stance_view (beliefs (internalState (run steps st')))
             = stance_view (beliefs (internalState st'))).
  { intros st'.
    apply (run_keeps (fun s => stance_view (beliefs s)
                               = stance_view (beliefs (internalState st')))).
    - intros s s' Hu Hs. rewrite <- Hs. now apply internal_update_view.
    - reflexivity. }
  split; [apply Hv |]. split; [apply detectContradictions_view, Hv |].
  intros boot.
  rewrite (detectContradictions_view _ default_beliefs g) by apply Hv.
  unfold detectContradictions. rewrite scan_graph_default_beliefs.
  vm_compute. reflexivity.
Qed.

(** *** Goals *)

Local Open Scope Q_scope.

Lemma relax_goal_range (g : Goal) :
  0.1 <= urgency g <= 0.9 -> 0.1 <= urgency (relax_goal g) <= 0.9.
Proof.
  intros H. unfold relax_goal. simpl.
  split; [apply Q.le_max_l | apply Q.max_lub; lra].
Qed.

Lemma relaxed_goals_range (p : Goal -> bool) (gs : list Goal) :
  Forall (fun g => 0.1 <= urgency g <= 0.9) gs ->
  Forall (fun g => 0.1 <= urgency g <= 0.9)
         (map (fun g => if p g then relax_goal g else g) gs).
Proof.
  intros H. apply Forall_forall. intros g Hg. apply in_map_iff in Hg.
  destruct Hg as [g0 [<- Hg0]]. rewrite Forall_forall in H.
  destruct (p g0); [apply relax_goal_range |]; now apply H.
Qed.

Lemma relaxed_goals_names (p : Goal -> bool) (gs : list Goal) :
  map goal (map (fun g => if p g then relax_goal g else g) gs) = map goal gs.
Proof.
  rewrite map_map. apply map_ext. intros g. now destruct (p g).
Qed.

Lemma internal_update_goals (s s' : InternalState) :
  internal_update s s' ->
  Forall (fun g => 0.1 <= urgency g <= 0.9) (goals s) ->
  Forall (fun g => 0.1 <= urgency g <= 0.9) (goals s')
  /\ incl (map goal (goals s)) (map goal (goals s')).
Proof.
  intros H Hr. destruct H; try (split; [exact Hr | apply incl_refl]).
  - rewrite select_sub_agent_goals. split; [exact Hr | apply incl_refl].
  - destruct (meta_goals_keeps reflectionLower prev)
      as [-> | [g [Hg ->]]]; [split; [exact Hr | apply incl_refl] |].
    cbn [set_goals goals]. split.
    + apply Forall_app. split; [exact Hr |].
      constructor; [| constructor]. destruct Hg as [Hg | Hg]; lra.
    + rewrite map_app. now apply incl_appl, incl_refl.
  - destruct (dream_reflection_update_keeps dreamReflection prev)
      as (_ & -> & _). split; [exact Hr | apply incl_refl].
  - cbn [set_goals goals]. split.
    + apply Forall_forall. intros g Hg. apply sort_desc_In in Hg.
      rewrite Forall_forall in Hr. now apply Hr.
    + intros name Hn. apply in_map_iff in Hn. destruct Hn as [g [<- Hg]].
      apply in_map. now apply sort_desc_In.
  - cbn [set_goals goals]. split; [now apply relaxed_goals_range |].
    rewrite relaxed_goals_names. apply incl_refl.
  - destruct (normal_update_goals o snap newThought thoughtNovelty prev)
      as [p [-> | [name ->]]].
    + split; [now apply relaxed_goals_range |].
      rewrite relaxed_goals_names. apply incl_refl.
    + split.
      * apply Forall_app. split; [now apply relaxed_goals_range |].
        constructor; [simpl; lra | constructor].
      * rewrite map_app, relaxed_goals_names. now apply incl_appl, incl_refl.
Qed.

(** X21. Along every run of the engine a goal is never dropped: every goal
    name of the start is a goal name of the end; and the urgencies stay
    between 0.1 and 0.9 once they are there. *)
Theorem goals_are_never_dropped (steps : list EngineStep) (st : State) :
  Forall (fun g => 0.1 <= urgency g <= 0.9) (goals (internalState st)) ->
  Forall (fun g => 0.1 <= urgency g <= 0.9)
         (goals (internalState (run steps st)))
  /\ incl (map goal (goals (internalState st)))
          (map goal (goals (internalState (run steps st)))).
Proof.
  intros Hr.
  apply (run_keeps
           (fun s => Forall (fun g => 0.1 <= urgency g <= 0.9) (goals s)
                     /\ incl (map goal (goals (internalState st)))
                             (map goal (goals s)))).
  - intros s s' Hu [Hs Hi].
    destruct (internal_update_goals s s' Hu Hs) as [Hs' Hi'].
    split; [assumption | eapply incl_tran; eassumption].
  - split; [assumption | apply incl_refl].
Qed.

Lemma goals_are_never_dropped_witness :
  Forall (fun g => 0.1 <= urgency g <= 0.9)
         (goals
            (internalState
               (run [RunCycle (sample_oracle 0.9 0.9 0.1 0.9
                                 (generated "how to understand the self"))]
                    (default_state 0))))
  /\ incl (map goal (goals (internalState (default_state 0))))
          (map goal
             (goals
                (internalState
                   (run [RunCycle (sample_oracle 0.9 0.9 0.1 0.9
                                     (generated "how to understand the self"))]
                        (default_state 0))))).
Proof.
  apply (goals_are_never_dropped
           [RunCycle (sample_oracle 0.9 0.9 0.1 0.9
                        (generated "how to understand the self"))]
           (default_state 0)).
  repeat constructor; simpl; lra.
Defined.

Local Close Scope Q_scope.

(** ** The maturity, the topic lock and the length of the Memory Stack along
       a run *)

Lemma keeps_frame_refl (live : State) : keeps_frame live live.
Proof. repeat split; auto; tauto. Qed.

Lemma keeps_frame_trans (a b c : State) :
  keeps_frame a b -> keeps_frame b c -> keeps_frame a c.
Proof.
  intros (Hm & Hl & Hs) (Hm' & Hl' & Hs'). split; [congruence |]. split.
  - intros H. apply Hl', Hl, H.
  - intros n H. apply Hs', Hs, H.
Qed.

Lemma insert_front_length (n : nat) (fragment : MemoryFragment)
  (prev : MemoryStack) :
  n <= List.length prev <= 10 ->
  n <= List.length (insert_front fragment prev) <= 10.
Proof.
  intros H. unfold insert_front. cbn [List.length]. rewrite length_firstn. lia.
Qed.

Lemma insert_with_decay_length (n : nat) (rate : Q) (newMemory : MemoryFragment)
  (prev : MemoryStack) :
  n <= List.length prev <= 10 ->
  n <= List.length (insert_with_decay rate newMemory prev) <= 10.
Proof.
  intros H. unfold insert_with_decay. rewrite length_firstn.
  cbn [List.length]. rewrite length_map. lia.
Qed.

Lemma external_stimulus_frame (o : Oracle) (live : State) :
  keeps_frame live (external_stimulus o live).
Proof.
  unfold external_stimulus. destruct (Qlt_bool (r_external o) 0.2);
    frame insert_front_length (@shuffle_length MemoryFragment).
Qed.

Lemma dream_branch_frame (o : Oracle) (replaced : bool) (live : State) :
  keeps_frame live (final (dream_branch o replaced live)).
Proof.
  unfold dream_branch.
  destruct (callLLM (host o) (llm_dream o)) as [[generated err] |];
    [destruct (callLLM (host o) (llm_dream_reflection o)) as [[reflection err'] |] |];
    destruct replaced;
      frame insert_front_length (@shuffle_length MemoryFragment).
Qed.

Lemma subconscious_frame (o : Oracle) (live : State) :
  keeps_frame live (subconscious o live).
Proof.
  unfold subconscious.
  destruct (negb (Nat.eqb (List.length (beliefs (internalState live))) 0)
            && Qlt_bool (r_reinforce o) 0.7);
    destruct (negb (Nat.eqb (List.length (conflicts (internalState live))) 0)
              && Qlt_bool (r_ruminate o) 0.5);
    try destruct (negb (Nat.eqb (List.length (openQuestions (internalState live))) 0)
                  && Qlt_bool (r_ponder o) 0.5);
    frame insert_front_length (@shuffle_length MemoryFragment).
Qed.

Lemma schema_step_frame (live : State) : keeps_frame live (schema_step live).
Proof.
  unfold schema_step.
  destruct (sc_formed (schema_check (conceptFrequencyMap live) (conceptGraph live)));
    frame insert_front_length (@shuffle_length MemoryFragment).
Qed.

Lemma self_inspection_frame (o : Oracle) (snap live : State) :
  keeps_frame live (final (self_inspection_branch o snap live)).
Proof.
  unfold self_inspection_branch.
  destruct (callLLM (host o) (llm_meta o)) as [[reflection err] |];
    frame insert_front_length (@shuffle_length MemoryFragment).
Qed.

Lemma goal_branch_frame (o : Oracle) (current : Goal) (live : State) :
  keeps_frame live (final (goal_branch o current live)).
Proof.
  unfold goal_branch.
  destruct (callLLM (host o) (llm_goal o)) as [[goalThought err] |];
    frame insert_front_length (@shuffle_length MemoryFragment).
Qed.

Lemma hebbian_on_concepts_frame (t : string) (out : Outcome) :
  keeps_frame (final out) (final (hebbian_on_concepts t out)).
Proof.
  unfold hebbian_on_concepts.
  destruct (hebbian_update t (conceptGraph (final out)));
    frame insert_front_length (@shuffle_length MemoryFragment).
Qed.

Lemma hebbian_on_beliefs_frame (t : string) (out : Outcome) :
  keeps_frame (final out) (final (hebbian_on_beliefs t out)).
Proof.
  unfold hebbian_on_beliefs.
  destruct (hebbian_update t (beliefGraph (final out)));
    frame insert_front_length (@shuffle_length MemoryFragment).
Qed.

Lemma topic_shift_check_frame (o : Oracle) (snap : State) (t : string)
  (live : State) :
  keeps_frame live (topic_shift_check o snap t live).
Proof.
  unfold topic_shift_check.
  destruct (isStuck snap || Qlt_bool 0.7 (mentalTension (internalState snap))).
  { unfold keeps_frame. component_stores. repeat split; auto; lia. }
  destruct (topicLockCounter live <=? 0)%Z eqn:Hc; simpl.
  { unfold keeps_frame. component_stores. repeat split; auto; lia. }
  apply Z.leb_gt in Hc.
  destruct (Qlt_bool (r_switch o) (topicSwitchChance (modulators snap)));
    unfold keeps_frame; component_stores; repeat split; auto; lia.
Qed.

Lemma commit_thought_frame (o : Oracle) (snap : State) (t : string)
  (live : State) :
  keeps_frame live (final (commit_thought o snap t live)).
Proof.
  unfold commit_thought. cbv zeta. cbn [final].
  match goal with
  | |- keeps_frame _
         (perturbation_step _ _
            (topic_shift_check _ _ _
               (final (hebbian_on_beliefs _
                         (hebbian_on_concepts _ (mkOutcome ?l1 ?ev)))))) =>
      apply (keeps_frame_trans _ l1);
      [| apply (keeps_frame_trans _
                  (final (hebbian_on_concepts t (mkOutcome l1 ev))));
         [apply (hebbian_on_concepts_frame t (mkOutcome l1 ev)) |
          apply (keeps_frame_trans _
                   (final (hebbian_on_beliefs t
                             (hebbian_on_concepts t (mkOutcome l1 ev)))));
          [apply hebbian_on_beliefs_frame |
           apply (keeps_frame_trans _
                    (topic_shift_check o snap t
                       (final (hebbian_on_beliefs t
                                 (hebbian_on_concepts t (mkOutcome l1 ev))))));
           [apply topic_shift_check_frame
           | unfold perturbation_step;
             frame insert_front_length (@shuffle_length MemoryFragment)]]]]
  end.
  unfold keeps_frame. component_stores.
  split; [reflexivity |]. split; [tauto |].
  intros n Hn. now apply insert_with_decay_length.
Qed.

Lemma normal_branch_frame (o : Oracle) (snap live : State) :
  keeps_frame live (final (normal_branch o snap live)).
Proof.
  unfold normal_branch.
  destruct (topic snap) as [topicText |]; [| apply keeps_frame_refl].
  destruct (generateRealThought o (llm_thought_1 o)) as [[t1 e1] |];
    [| apply keeps_frame_refl].
  destruct (negb (isThoughtTooSimilar t1 (memoryStack snap))).
  { apply (commit_thought_frame o snap t1 (setLlmError e1 live)). }
  destruct (generateRealThought o (llm_thought_2 o)) as [[t2 e2] |];
    [| frame insert_front_length (@shuffle_length MemoryFragment)].
  destruct (negb (isThoughtTooSimilar t2 (memoryStack snap))).
  { apply (commit_thought_frame o snap t2 (setLlmError e2 live)). }
  destruct (generateRealThought o (llm_thought_3 o)) as [[t3 e3] |];
    [| frame insert_front_length (@shuffle_length MemoryFragment)].
  apply (commit_thought_frame o snap _ (setLlmError e3 live)).
Qed.

Lemma waking_cycle_frame (o : Oracle) (snap live : State) :
  keeps_frame live (final (waking_cycle o snap live)).
Proof.
  unfold waking_cycle. rewrite !final_log_when.
  set (live3 := when (schema_due snap) schema_step
                  (frequency_sweep
                     (when (subconscious_due snap) (subconscious o) live))).
  assert (H3 : keeps_frame live live3).
  { subst live3. unfold when.
    apply (keeps_frame_trans _
             (if subconscious_due snap then subconscious o live else live)).
    - destruct (subconscious_due snap);
        [apply subconscious_frame | apply keeps_frame_refl].
    - apply (keeps_frame_trans _
               (frequency_sweep
                  (if subconscious_due snap then subconscious o live else live))).
      + unfold frequency_sweep.
        frame insert_front_length (@shuffle_length MemoryFragment).
      + destruct (schema_due snap);
          [apply schema_step_frame | apply keeps_frame_refl]. }
  destruct (inspection_due snap).
  { eapply keeps_frame_trans; [exact H3 | apply self_inspection_frame]. }
  assert (H4 : keeps_frame live
                 (setInternalState (set_goals (sorted_goals snap)) live3)).
  { eapply keeps_frame_trans; [exact H3 |
    frame insert_front_length (@shuffle_length MemoryFragment)]. }
  destruct (currentGoal snap) as [current |].
  - destruct (Qlt_bool (r_goal o) 0.25).
    + eapply keeps_frame_trans; [exact H4 | apply goal_branch_frame].
    + eapply keeps_frame_trans; [exact H4 | apply normal_branch_frame].
  - eapply keeps_frame_trans; [exact H3 | apply normal_branch_frame].
Qed.

(** What a cycle does to the three stores: the maturity moves by 0.001 up
    to 1, the rest is kept as by [keeps_frame]. *)
Lemma cycle_frame (o : Oracle) (st : State) :
  cognitiveMaturity (final (cycle o st))
  = Qmin 1 (cognitiveMaturity st + 0.001)%Q
  /\ ((0 <= topicLockCounter st <= 3)%Z ->
      (0 <= topicLockCounter (final (cycle o st)) <= 3)%Z)
  /\ forall n, n <= List.length (memoryStack st) <= 10 ->
               n <= List.length (memoryStack (final (cycle o st))) <= 10.
Proof.
  unfold cycle. rewrite final_log_when.
  set (live0 := setCognitiveMaturity (fun prev => Qmin 1 (prev + 0.001)%Q) st).
  set (live2 := setInternalState (select_sub_agent o st)
                  (external_stimulus o live0)).
  assert (H2 : keeps_frame live0 live2).
  { subst live2. eapply keeps_frame_trans;
      [apply external_stimulus_frame |
        frame insert_front_length (@shuffle_length MemoryFragment)]. }
  assert (H : keeps_frame live0
                (final (if dream_due o st
                        then dream_branch o (Qlt_bool (r_external o) 0.2) live2
                        else waking_cycle o st live2))).
  { eapply keeps_frame_trans; [exact H2 |].
    destruct (dream_due o st);
      [apply dream_branch_frame | apply waking_cycle_frame]. }
  destruct H as (Hm & Hl & Hs). split; [rewrite Hm; reflexivity |].
  split; [exact Hl | exact Hs].
Qed.

Lemma engine_step_frame (e : EngineStep) (st : State) :
  ((0 <= topicLockCounter st <= 3)%Z ->
   (0 <= topicLockCounter (engine_step e st) <= 3)%Z)
  /\ forall n, n <= List.length (memoryStack st) <= 10 ->
               n <= List.length (memoryStack (engine_step e st)) <= 10.
Proof.
  destruct e as [o | h f at_time |]; simpl.
  - destruct (cycle_frame o st) as (_ & Hl & Hs). now split.
  - unfold intuition_resolves.
    destruct (callLLM h f) as [[intuition err] |]; component_stores.
    + split; [tauto |]. intros n Hn. now apply insert_front_length.
    + split; tauto.
  - unfold dream_revert. component_stores. split; tauto.
Qed.

Lemma run_stack_length (steps : list EngineStep) (st : State) (n : nat) :
  n <= List.length (memoryStack st) <= 10 ->
  n <= List.length (memoryStack (run steps st)) <= 10.
Proof.
  unfold run. revert st. induction steps as [| e steps IH]; intros st H; simpl;
    [assumption |].
  apply IH. now apply engine_step_frame.
Qed.

(** X22. A step of the engine never shrinks a Memory Stack of at most 10
    fragments: along every run its length never decreases and never
    exceeds 10. *)
Theorem memory_stack_never_shrinks (steps : list EngineStep) (st : State) :
  List.length (memoryStack st) <= 10 ->
  List.length (memoryStack st) <= List.length (memoryStack (run steps st)) <= 10.
Proof. intros H. apply run_stack_length. lia. Qed.

Lemma memory_stack_never_shrinks_witness :
  List.length (memoryStack (default_state 0))
  <= List.length
       (memoryStack
          (run [RunCycle (sample_oracle 0.1 0.9 0.9 0.9 (generated "one more"))]
               (default_state 0)))
  <= 10.
Proof.
  apply (memory_stack_never_shrinks
           [RunCycle (sample_oracle 0.1 0.9 0.9 0.9 (generated "one more"))]
           (default_state 0)).
  simpl. lia.
Defined.

(** X23. The branches are scheduled on the length of the Memory Stack, which
    stays at 10 once it is there: from then on, in every cycle of every
    run, the self-inspection is never due and the subconscious process
    always is. Self-inspection is due only while the stack holds exactly 6
    fragments. *)
Theorem full_stack_ends_self_inspection (steps : list EngineStep) (st : State) :
  (List.length (memoryStack st) = 10 ->
   inspection_due (run steps st) = false
   /\ subconscious_due (run steps st) = true)
  /\ (List.length (memoryStack st) <= 10 -> inspection_due st = true ->
      List.length (memoryStack st) = 6).
Proof.
  split.
  - intros H.
    assert (H10 : List.length (memoryStack (run steps st)) = 10).
    { pose proof (run_stack_length steps st 10). lia. }
    unfold inspection_due, subconscious_due. rewrite H10. split; reflexivity.
  - unfold inspection_due. intros Hle Hd.
    apply andb_true_iff in Hd. destruct Hd as [Hmod Hpos].
    apply Nat.eqb_eq in Hmod. apply Nat.ltb_lt in Hpos.
    remember (List.length (memoryStack st)) as n.
    do 11 (destruct n as [| n]; [simpl in *; first [lia | discriminate] |]).
    lia.
Qed.

Lemma full_stack_ends_self_inspection_witness :
  (inspection_due
     (run [DreamReverts]
        (setMemoryStack
           (fun prev => prev ++ prev ++ prev ++ firstn 1 prev)%list
           (default_state 0))) = false
   /\ subconscious_due
        (run [DreamReverts]
           (setMemoryStack
              (fun prev => prev ++ prev ++ prev ++ firstn 1 prev)%list
              (default_state 0))) = true)
  /\ (List.length (memoryStack inspected_state) <= 10 ->
      inspection_due inspected_state = true ->
      List.length (memoryStack inspected_state) = 6).
Proof.
  split.
  - apply (full_stack_ends_self_inspection [DreamReverts]
             (setMemoryStack
                (fun prev => prev ++ prev ++ prev ++ firstn 1 prev)%list
                (default_state 0))).
    reflexivity.
  - apply (full_stack_ends_self_inspection [] inspected_state).
Defined.

(** X24. Along every run of the engine the topic lock counter stays within
    0..3 once it is there: it is reset to 3 or, when positive, lowered by
    one. *)
Theorem topic_lock_stays_within_bounds (steps : list EngineStep) (st : State) :
  (0 <= topicLockCounter st <= 3)%Z ->
  (0 <= topicLockCounter (run steps st) <= 3)%Z.
Proof.
  unfold run. revert st. induction steps as [| e steps IH]; intros st H; simpl;
    [assumption |].
  apply IH. now apply engine_step_frame.
Qed.

Lemma topic_lock_stays_within_bounds_witness :
  (0 <= topicLockCounter
          (run [RunCycle (sample_oracle 0.9 0.9 0.9 0.9 (generated "one more"))]
               (default_state 0)) <= 3)%Z.
Proof.
  apply (topic_lock_stays_within_bounds
           [RunCycle (sample_oracle 0.9 0.9 0.9 0.9 (generated "one more"))]
           (default_state 0)).
  simpl. lia.
Defined.

(** ** The cognitive maturity and the schema gate (app.js 669 and 821) *)

Local Open Scope Q_scope.

Lemma engine_step_maturity (e : EngineStep) (st : State) :
  cognitiveMaturity (engine_step e st)
  = match e with
    | RunCycle _ => Qmin 1 (cognitiveMaturity st + 0.001)
    | _ => cognitiveMaturity st
    end.
Proof.
  destruct e as [o | h f at_time |]; simpl.
  - now destruct (cycle_frame o st) as (Hm & _).
  - unfold intuition_resolves. destruct (callLLM h f) as [[intuition err] |];
      reflexivity.
  - reflexivity.
Qed.

Lemma inject_nat_succ (n : nat) :
  inject_Z (Z.of_nat (S n)) == inject_Z (Z.of_nat n) + 1.
Proof.
  rewrite Nat2Z.inj_succ. unfold Z.succ. rewrite inject_Z_plus. reflexivity.
Qed.

Lemma run_maturity (steps : list EngineStep) (st : State) :
  cognitiveMaturity st <= 1 ->
  cognitiveMaturity (run steps st)
  == Qmin 1 (cognitiveMaturity st
             + inject_Z (Z.of_nat (cycles_in steps)) * 0.001).
Proof.
  unfold run. revert st.
  induction steps as [| e steps IH]; intros st Hm.
  - cbn [fold_left cycles_in filter List.length Z.of_nat].
    change (inject_Z 0) with 0.
    destruct (Q.min_spec 1 (cognitiveMaturity st + 0 * 0.001))
      as [[H1 E1] | [H1 E1]]; lra.
  - cbn [fold_left]. pose proof (engine_step_maturity e st) as He.
    assert (Hm' : cognitiveMaturity (engine_step e st) <= 1).
    { rewrite He. destruct e; [apply Q.le_min_l | assumption | assumption]. }
    rewrite (IH _ Hm'). rewrite He. unfold cycles_in.
    destruct e as [o | h f at_time |]; cbn [filter List.length];
      try reflexivity.
    fold (cycles_in steps).
    pose proof (inject_nat_succ (cycles_in steps)) as Hs.
    pose proof (inject_nat_nonneg (cycles_in steps)) as Hn.
    set (k := inject_Z (Z.of_nat (cycles_in steps))) in *.
    set (k' := inject_Z (Z.of_nat (S (cycles_in steps)))) in *.
    set (m := cognitiveMaturity st) in *.
    destruct (Q.min_spec 1 (m + 0.001)) as [[H1 E1] | [H1 E1]];
      destruct (Q.min_spec 1 (Qmin 1 (m + 0.001) + k * 0.001))
        as [[H2 E2] | [H2 E2]];
      destruct (Q.min_spec 1 (m + k' * 0.001)) as [[H3 E3] | [H3 E3]];
      lra.
Qed.

(** X25. Only a scheduler cycle moves the cognitive maturity, by 0.001 up
    to 1: after a run with n cycles it is, in exact arithmetic,
    min(1, m + 0.001 n). While m + 0.001 n is below 0.2 the schema check is
    not due, so from the default maturity 0.1 no schema can form during
    the first 100 cycles. *)
Theorem maturity_grows_with_the_cycles (steps : list EngineStep) (st : State) :
  cognitiveMaturity st <= 1 ->
  cognitiveMaturity (run steps st)
  == Qmin 1 (cognitiveMaturity st
             + inject_Z (Z.of_nat (cycles_in steps)) * 0.001)
  /\ (cognitiveMaturity st + inject_Z (Z.of_nat (cycles_in steps)) * 0.001
      < 0.2 ->
      schema_due (run steps st) = false).
Proof.
  intros Hm. pose proof (run_maturity steps st Hm) as Hr.
  split; [exact Hr |]. intros Hlow. unfold schema_due.
  replace (Qlt_bool 0.2 (cognitiveMaturity (run steps st))) with false;
    [apply andb_false_r |].
  symmetry. apply Qlt_bool_false. rewrite Hr.
  eapply Qle_trans; [apply Q.le_min_r | apply Qlt_le_weak; exact Hlow].
Qed.

Lemma maturity_grows_with_the_cycles_witness :
  cognitiveMaturity
    (run [RunCycle (sample_oracle 0.9 0.9 0.9 0.9 (generated "one more"));
          DreamReverts]
         (default_state 0))
  == Qmin 1 (cognitiveMaturity (default_state 0)
             + inject_Z
                 (Z.of_nat
                    (cycles_in
                       [RunCycle (sample_oracle 0.9 0.9 0.9 0.9
                                    (generated "one more"));
                        DreamReverts])) * 0.001)
  /\ (cognitiveMaturity (default_state 0)
      + inject_Z
          (Z.of_nat
             (cycles_in
                [RunCycle (sample_oracle 0.9 0.9 0.9 0.9 (generated "one more"));
                 DreamReverts])) * 0.001
      < 0.2 ->
      schema_due
        (run [RunCycle (sample_oracle 0.9 0.9 0.9 0.9 (generated "one more"));
              DreamReverts]
             (default_state 0)) = false).
Proof.
  apply (maturity_grows_with_the_cycles
           [RunCycle (sample_oracle 0.9 0.9 0.9 0.9 (generated "one more"));
            DreamReverts]
           (default_state 0)).
  simpl. lra.
Defined.

(** ** The divisor of the normalisation along a run (app.js 1192-1195) *)

Lemma run_gradient_ok (steps : list EngineStep) (st : State) :
  gradient_ok (emotionalGradient st) ->
  gradient_ok (emotionalGradient (run steps st)).
Proof.
  unfold run. revert st. induction steps as [| e steps IH]; intros st H; simpl;
    [assumption |].
  apply IH. now apply engine_step_gradient_ok.
Qed.

(** X26. From stores whose gradient has weights in [0, 1] and a positive
    sum, the sum by which the perturbation divides is positive in every
    state a run reaches, whatever the tension and the draws: the
    normalisation never divides by zero, and the weights it leaves are in
    [0, 1]. *)
Theorem perturbation_never_divides_by_zero (steps : list EngineStep)
  (st : State) (tension r_boost r_emotion r_force : Q) :
  gradient_ok (emotionalGradient st) ->
  let reached := emotionalGradient (run steps st) in
  0 < total (boost tension r_boost r_emotion r_force (decay_all reached))
  /\ gradient_in_range (perturb tension r_boost r_emotion r_force reached).
Proof.
  intros H reached. subst reached.
  pose proof (run_gradient_ok steps st H) as [Hr Hp]. split.
  - apply boost_total_pos; [apply decay_all_nonneg |].
    pose proof (decay_all_total (emotionalGradient (run steps st))). lra.
  - apply perturb_ok. now split.
Qed.

Lemma perturbation_never_divides_by_zero_witness :
  let reached :=
    emotionalGradient
      (run [RunCycle (sample_oracle 0.9 0.9 0.9 0.9 (generated "one more"))]
           (default_state 0)) in
  0 < total (boost 0.8 0.1 0.5 0.9 (decay_all reached))
  /\ gradient_in_range (perturb 0.8 0.1 0.5 0.9 reached).
Proof.
  apply (perturbation_never_divides_by_zero
           [RunCycle (sample_oracle 0.9 0.9 0.9 0.9 (generated "one more"))]
           (default_state 0) 0.8 0.1 0.5 0.9).
  split; [intros e; destruct e; simpl; lra | unfold total; simpl; lra].
Defined.

Local Close Scope Q_scope.

(** ** External stimuli (app.js 108-171) *)

Lemma is_web_report_literal (s : string) : is_web_report ("(Web: " ++ s) = true.
Proof. unfold is_web_report. simpl. apply prefix_empty. Qed.

Lemma web_try_reports (h : Host) (currentTopic : option string)
  (f : FetchOutcome) (s : string) :
  web_try h currentTopic f = Normal s -> is_web_report s = true.
Proof.
  unfold web_try, bind.
  destruct (await_fetch f) as [response |]; [| discriminate].
  destruct (await_json response) as [data |]; [| discriminate].
  destruct (get data "Abstract") as [abstract |]; [| discriminate].
  destruct (if truthy_value abstract
            then match abstract with
                 | Some x => length_positive h x
                 | None => Normal false
                 end
            else Normal false) as [[|] |]; [| | discriminate].
  { destruct (substring_100 abstract) as [cut |]; [| discriminate].
    intros H. injection H as <-. apply is_web_report_literal. }
  destruct (get data "RelatedTopics") as [related |]; [| discriminate].
  destruct (if truthy_value related
            then match related with
                 | Some x => length_positive h x
                 | None => Normal false
                 end
            else Normal false) as [[|] |]; [| | discriminate].
  - destruct (match related with
              | Some x => first x
              | None => Normal None
              end) as [head |]; [| discriminate].
    destruct (get_value head "Text") as [topicText |]; [| discriminate].
    destruct (truthy_value topicText).
    + destruct (substring_100 topicText) as [cut |]; [| discriminate].
      intros H. injection H as <-. apply is_web_report_literal.
    + intros H. injection H as <-. apply is_web_report_literal.
  - intros H. injection H as <-. apply is_web_report_literal.
Qed.

(** X27. [fetchExternalStimuli] always returns a text: the header with the
    clock and the environment readings, then one observation. With the web
    search on, the observation is one of the web reports (a failed or
    malformed search gives the error report) and the error store is left
    alone. With it off and a draw in [0, 1), the observation is one of the
    20 predefined inputs or the non-empty text [callLLM] returned; when
    the generation is drawn and fails, the failure marker itself is the
    observation. *)
Theorem fetchExternalStimuli_always_reports (h : Host) (so : StimulusOracle)
  (currentTopic : option string) (envState : EnvState) (useRealInternet : bool) :
  exists observation err,
    fetchExternalStimuli h so currentTopic envState useRealInternet
    = Normal (stimulus_header so envState ++ " " ++ observation, err)
    /\ (useRealInternet = true ->
        err = None /\ is_web_report observation = true)
    /\ (useRealInternet = false -> (0 <= r_predefined so < 1)%Q ->
        (In observation predefinedExternalInputs
         \/ (observation <> ""
             /\ exists recorded,
                  callLLM h (llm_external so) = Normal (observation, recorded)))
        /\ (Qlt_bool (r_generate so) 0.4 = true ->
            is_failure (llm_external so) = true ->
            is_marker observation = true)).
Proof.
  unfold fetchExternalStimuli, externalObservation, bind.
  destruct useRealInternet.
  - unfold try_catch.
    destruct (web_try h currentTopic (web_search so)) as [s | e] eqn:Hw.
    + exists s, None. split; [reflexivity |]. split; [| discriminate].
      intros _. split; [reflexivity |]. eapply web_try_reports; eassumption.
    + exists web_error, None. split; [reflexivity |]. split; [| discriminate].
      intros _. split; reflexivity.
  - destruct (Qlt_bool (r_generate so) 0.4) eqn:Hg.
    + destruct (callLLM_returns h (llm_external so)) as (text & recorded & Hc).
      rewrite Hc.
      destruct (negb (text =? "")%string && (0 <? String.length text)) eqn:Ht.
      * exists text, (Some recorded). split; [reflexivity |].
        split; [discriminate |]. intros _ Hr. split.
        -- right. split; [| exists recorded; reflexivity].
           intros ->. discriminate.
        -- intros _ Hf. eapply callLLM_marks_failures; eassumption.
      * destruct (pick (r_predefined so) predefinedExternalInputs)
          as [x |] eqn:Hp.
        -- exists x, (Some recorded). split; [reflexivity |].
           split; [discriminate |]. intros _ Hr. split.
           ++ left. eapply pick_In; eassumption.
           ++ intros _ Hf. exfalso.
              pose proof (callLLM_marks_failures h _ _ _ Hc Hf) as Hm.
              destruct text as [| c text]; [discriminate |]. discriminate.
        -- exists "undefined", (Some recorded). split; [reflexivity |].
           split; [discriminate |]. intros _ Hr. exfalso.
           destruct (pick_in_range (r_predefined so) predefinedExternalInputs Hr)
             as (x & Hx & _); [discriminate | congruence].
    + destruct (pick (r_predefined so) predefinedExternalInputs)
        as [x |] eqn:Hp.
      * exists x, None. split; [reflexivity |].
        split; [discriminate |]. intros _ Hr. split; [| discriminate].
        left. eapply pick_In; eassumption.
      * exists "undefined", None. split; [reflexivity |].
        split; [discriminate |]. intros _ Hr. exfalso.
        destruct (pick_in_range (r_predefined so) predefinedExternalInputs Hr)
          as (x & Hx & _); [discriminate | congruence].
Qed.

(** With the key missing the request is answered 401: the marker becomes
    the observation of the stimulus. *)
Example failed_generation_becomes_the_observation :
  fetchExternalStimuli sample_host
    (mkStimulusOracle "10:15:00 AM" "Monday" (FetchRejects (mkExn "offline"))
       0.5%Q 0.1%Q
       (FetchResolves (mkResponse false 401 (JsonResolves (JObj [])))))
    (Some "consciousness") default_envState false
  = Normal
      ("(External: 10:15:00 AM Monday) (Env: Light:neutral, Noise:low, Net:stable, Temp:ambient). "
         ++ unauthorized_marker,
       Some (Some unauthorized_marker)).
Proof. vm_compute. reflexivity. Qed.

(** ** The memories a thought is prompted with (app.js 176-197) *)

Local Open Scope Q_scope.

Lemma insert_by_In {A} (before : A -> A -> bool) (x y : A) (l : list A) :
  In y (insert_by before x l) <-> y = x \/ In y l.
Proof.
  induction l as [| z l IH]; simpl.
  - intuition auto.
  - destruct (before x z); simpl; rewrite ?IH; intuition auto.
Qed.

Lemma insert_by_length {A} (before : A -> A -> bool) (x : A) (l : list A) :
  List.length (insert_by before x l) = S (List.length l).
Proof.
  induction l as [| z l IH]; simpl; [reflexivity |].
  destruct (before x z); simpl; [reflexivity | now rewrite IH].
Qed.

Lemma sort_by_In {A} (before : A -> A -> bool) (x : A) (l : list A) :
  In x (sort_by before l) <-> In x l.
Proof.
  unfold sort_by. induction l as [| y l IH]; simpl; [reflexivity |].
  rewrite insert_by_In, IH. intuition auto.
Qed.

Lemma sort_by_length {A} (before : A -> A -> bool) (l : list A) :
  List.length (sort_by before l) = List.length l.
Proof.
  unfold sort_by. induction l as [| y l IH]; simpl; [reflexivity |].
  now rewrite insert_by_length, IH.
Qed.

Lemma not_after_score (keywords : list string) (a b : MemoryFragment) :
  not_after keywords a b = true -> score keywords b <= score keywords a.
Proof.
  unfold not_after. intros H. apply orb_true_iff in H. destruct H as [H | H].
  - apply Qlt_bool_true in H. lra.
  - apply andb_true_iff in H. destruct H as [H _].
    apply Qeq_bool_iff in H. lra.
Qed.

Lemma not_after_total (keywords : list string) (a b : MemoryFragment) :
  not_after keywords a b = false -> score keywords a <= score keywords b.
Proof.
  unfold not_after. intros H. apply orb_false_iff in H. destruct H as [H _].
  now apply Qlt_bool_false in H.
Qed.

Lemma insert_by_descending (keywords : list string) (x : MemoryFragment)
  (l : list MemoryFragment) :
  descending (score keywords) l ->
  descending (score keywords) (insert_by (not_after keywords) x l).
Proof.
  induction l as [| z l IH]; simpl.
  - intros _. split; [constructor | exact I].
  - intros [Hz Hl]. destruct (not_after keywords x z) eqn:E.
    + apply not_after_score in E. simpl. split; [| split; assumption].
      constructor; [assumption |].
      eapply Forall_impl; [| exact Hz]. simpl. intros a Ha. lra.
    + apply not_after_total in E. simpl. split; [| now apply IH].
      apply Forall_forall. intros a Ha. apply insert_by_In in Ha.
      destruct Ha as [-> | Ha]; [assumption |].
      rewrite Forall_forall in Hz. now apply Hz.
Qed.

Lemma ranked_memories_descending (keywords : list string) (stack : MemoryStack) :
  descending (score keywords) (ranked_memories keywords stack).
Proof.
  unfold ranked_memories, sort_by.
  induction stack as [| m stack IH]; simpl; [exact I |].
  now apply insert_by_descending.
Qed.

Lemma descending_split {A} (key : A -> Q) (n : nat) (l : list A) :
  descending key l ->
  forall a b, In a (firstn n l) -> In b (skipn n l) -> key b <= key a.
Proof.
  revert n. induction l as [| x l IH]; intros n Hd a b Ha Hb.
  - destruct n; contradiction.
  - destruct n as [| n]; [contradiction |]. simpl in Ha, Hb.
    destruct Hd as [Hx Hl]. destruct Ha as [<- | Ha].
    + rewrite Forall_forall in Hx. apply Hx.
      rewrite <- (firstn_skipn n l). apply in_or_app. now right.
    + eapply IH; eassumption.
Qed.

(** X28. The memories a thought is prompted with are the best ranked of the
    stack: at most 5 fragments, all of them if the stack holds no more,
    every one a fragment of the stack, and every fragment left out scores
    no higher than any fragment kept, the score being the strength plus
    0.2 for each different word shared with the keywords. *)
Theorem selected_memories_are_the_best_ranked (keywords : list string)
  (stack : MemoryStack) :
  let kept := selected_memories keywords stack in
  let left_out := skipn 5 (ranked_memories keywords stack) in
  List.length kept = Nat.min 5 (List.length stack)
  /\ (forall mem, In mem stack <-> In mem kept \/ In mem left_out)
  /\ (List.length stack = List.length kept + List.length left_out)%nat
  /\ forall a b, In a kept -> In b left_out ->
                 score keywords b <= score keywords a.
Proof.
  intros kept left_out. subst kept left_out. unfold selected_memories.
  pose proof (sort_by_length (not_after keywords) stack) as Hlen.
  fold (ranked_memories keywords stack) in Hlen.
  split; [rewrite length_firstn, Hlen; reflexivity |].
  split; [| split].
  - intros mem. unfold ranked_memories at 1.
    rewrite <- (sort_by_In (not_after keywords) mem stack).
    fold (ranked_memories keywords stack).
    rewrite <- (firstn_skipn 5 (ranked_memories keywords stack)) at 1.
    apply in_app_iff.
  - rewrite <- Hlen.
    rewrite <- (firstn_skipn 5 (ranked_memories keywords stack)) at 1.
    apply length_app.
  - apply descending_split, ranked_memories_descending.
Qed.

Local Close Scope Q_scope.

(** ** The associative walk of a dream (app.js 343-358) *)

Lemma In_keys_lookup {V} (k : string) (o : Obj V) :
  In k (keys o) -> exists v, lookup k o = Some v.
Proof.
  induction o as [| [k' v'] o IH]; simpl; [contradiction |].
  destruct (String.eqb_spec k k') as [-> | Hne]; [eauto |].
  intros [H | H]; [congruence | now apply IH].
Qed.

Lemma no_inherited_link_In (g : Graph) (c n : string) (links : list string) :
  no_inherited_link g = true -> lookup c g = Some links -> In n links ->
  inherited n = false.
Proof.
  unfold no_inherited_link. intros H Hl Hn.
  rewrite forallb_forall in H. apply lookup_In in Hl.
  specialize (H _ Hl). simpl in H. rewrite forallb_forall in H.
  specialize (H _ Hn). now apply negb_true_iff in H.
Qed.

(** A step from a concept that is no inherited name, on a graph with
    concepts: a link of the concept or a concept of the graph. *)
Lemma next_concept_defined (g : Graph) (r : Q) (c : string) :
  (0 <= r < 1)%Q -> keys g <> [] ->
  In c (keys g) \/ inherited c = false ->
  exists c', next_concept g r (Some c) = Some c'
             /\ (linked c c' g \/ In c' (keys g)).
Proof.
  intros Hr Hg Hc. unfold next_concept, read. cbn [coerce].
  assert (Hjump : exists c', pick r (keys g) = Some c'
                             /\ (linked c c' g \/ In c' (keys g))).
  { destruct (pick_in_range r (keys g) Hr Hg) as (c' & Hp & Hin). eauto. }
  destruct (lookup c g) as [links |] eqn:Hl.
  - destruct (0 <? List.length links) eqn:Hn; [| exact Hjump].
    apply Nat.ltb_lt in Hn.
    destruct (pick_in_range r links Hr) as (c' & Hp & Hin).
    { intros ->. simpl in Hn. lia. }
    exists c'. split; [assumption |]. left. exists links. now split.
  - destruct Hc as [Hc | Hc].
    + apply In_keys_lookup in Hc. destruct Hc as [v Hv]. congruence.
    + rewrite Hc. exact Hjump.
Qed.

(** X29. The associative walk of a dream on a graph with concepts, none of
    whose links is an inherited name, with draws in [0, 1): it holds three
    concepts, the first a concept of the graph, each of the others a link
    of the one before it or, by a jump, a concept of the graph. *)
Theorem associativeWalk_follows_links (g : Graph) (r_start r_first r_second : Q) :
  (0 <= r_start < 1)%Q -> (0 <= r_first < 1)%Q -> (0 <= r_second < 1)%Q ->
  keys g <> [] -> no_inherited_link g = true ->
  exists c0 c1 c2,
    associativeWalk g r_start r_first r_second = [Some c0; Some c1; Some c2]
    /\ In c0 (keys g)
    /\ (linked c0 c1 g \/ In c1 (keys g))
    /\ (linked c1 c2 g \/ In c2 (keys g)).
Proof.
  intros H0 H1 H2 Hg Hn. unfold associativeWalk.
  destruct (keys g) as [| k ks] eqn:Hk; [now destruct Hg |]. rewrite <- Hk.
  assert (Hg' : keys g <> []) by (rewrite Hk; discriminate).
  destruct (pick_in_range r_start (keys g) H0 Hg') as (c0 & Hp0 & Hin0).
  rewrite Hp0.
  destruct (next_concept_defined g r_first c0 H1 Hg' (or_introl Hin0))
    as (c1 & Hp1 & Hs1).
  rewrite Hp1.
  assert (Hc1 : In c1 (keys g) \/ inherited c1 = false).
  { destruct Hs1 as [(links & Hl & Hin) | Hin]; [right | now left].
    eapply no_inherited_link_In; eassumption. }
  destruct (next_concept_defined g r_second c1 H2 Hg' Hc1) as (c2 & Hp2 & Hs2).
  rewrite Hp2. exists c0, c1, c2. repeat split; assumption.
Qed.

Lemma associativeWalk_follows_links_witness :
  exists c0 c1 c2,
    associativeWalk default_conceptGraph 0.85%Q 0.5%Q 0.1%Q
    = [Some c0; Some c1; Some c2]
    /\ In c0 (keys default_conceptGraph)
    /\ (linked c0 c1 default_conceptGraph \/ In c1 (keys default_conceptGraph))
    /\ (linked c1 c2 default_conceptGraph \/ In c2 (keys default_conceptGraph)).
Proof.
  apply (associativeWalk_follows_links default_conceptGraph 0.85%Q 0.5%Q 0.1%Q);
    try (split; [unfold Qle | unfold Qlt]; simpl; lia);
    [discriminate | vm_compute; reflexivity].
Defined.

(** From "logic" the walk takes the link "chaos", which is no concept of
    the default graph, and jumps; a link that is an inherited name ends in
    an entry that is [undefined], joined as the empty string. *)
Example associativeWalk_scenarios :
  associativeWalk default_conceptGraph 0.85%Q 0.5%Q 0.1%Q
  = [Some "logic"; Some "chaos"; Some "perception"]
  /\ dreamAssociations
       (associativeWalk default_conceptGraph 0.85%Q 0.5%Q 0.1%Q)
     = "Associations: logic -> chaos -> perception."
  /\ associativeWalk [("origin", ["constructor"])] 0%Q 0%Q 0%Q
     = [Some "origin"; Some "constructor"; None].
Proof. repeat split; vm_compute; reflexivity. Qed.

(** ** The two graphs along a run *)

Lemma schema_loop_extends (keys_left : list string) (freq : Obj nat)
  (g : Graph) :
  Forall well_formed_key keys_left ->
  extends g (sc_graph (schema_loop keys_left freq g)).
Proof.
  intros Hk. induction Hk as [| key rest Hkey Hrest IH]; simpl.
  - apply extends_refl.
  - destruct (3 <? match lookup key freq with Some n => n | None => 0 end);
      [| exact IH]. cbn [andb].
    destruct (is_absent (read (replace_first "+" "-" key) g)) eqn:Habs;
      [| exact IH].
    destruct Hkey as [a [b [-> [Ha [Hb [Hna Hnb]]]]]].
    unfold split_pair.
    change (a ++ "+" ++ b) with (a ++ String "+"%char b) in *.
    rewrite (split_char_joint "+") by (assumption || reflexivity).
    rewrite (replace_first_joint "+") in Habs by (assumption || reflexivity).
    assert (Hnone : lookup (a ++ "-" ++ b) g = None).
    { unfold read in Habs.
      destruct (lookup (a ++ "-" ++ b) g); [discriminate | reflexivity]. }
    cbn [nth_error coerce sc_graph].
    intros c links Hc. exists links. split; [| apply incl_refl].
    rewrite lookup_set_other; [assumption |].
    intros Heq. subst c.
    assert (Hno : Some links = None) by (rewrite <- Hc; exact Hnone).
    discriminate.
Qed.

Lemma sweep_frequencies_keys (stack : MemoryStack) (freq : Obj nat) :
  keys_well_formed freq -> keys_well_formed (sweep_frequencies stack freq).
Proof.
  unfold sweep_frequencies. revert freq.
  induction stack as [| mem stack IH]; intros freq H; simpl; [assumption |].
  apply IH. now apply updateConceptPairFrequency_keys.
Qed.

Lemma keeps_graphs_refl (live : State) : keeps_graphs live live.
Proof.
  split; [intros H; split; [assumption |] |]; apply extends_refl.
Qed.

Lemma keeps_graphs_trans (a b c : State) :
  keeps_graphs a b -> keeps_graphs b c -> keeps_graphs a c.
Proof.
  intros [Hab Hb] [Hbc Hb']. split.
  - intros H. destruct (Hab H) as [H1 E1]. destruct (Hbc H1) as [H2 E2].
    split; [assumption | eapply extends_trans; eassumption].
  - eapply extends_trans; eassumption.
Qed.

Lemma external_stimulus_graphs (o : Oracle) (live : State) :
  keeps_graphs live (external_stimulus o live).
Proof.
  unfold external_stimulus. destruct (Qlt_bool (r_external o) 0.2);
    graphs_kept extends_refl.
Qed.

Lemma dream_branch_graphs (o : Oracle) (replaced : bool) (live : State) :
  keeps_graphs live (final (dream_branch o replaced live)).
Proof.
  unfold dream_branch.
  destruct (callLLM (host o) (llm_dream o)) as [[generated err] |];
    [destruct (callLLM (host o) (llm_dream_reflection o)) as [[reflection err'] |] |];
    destruct replaced; graphs_kept extends_refl.
Qed.

Lemma subconscious_graphs (o : Oracle) (live : State) :
  keeps_graphs live (subconscious o live).
Proof.
  unfold subconscious.
  destruct (negb (Nat.eqb (List.length (beliefs (internalState live))) 0)
            && Qlt_bool (r_reinforce o) 0.7);
    destruct (negb (Nat.eqb (List.length (conflicts (internalState live))) 0)
              && Qlt_bool (r_ruminate o) 0.5);
    try destruct (negb (Nat.eqb (List.length (openQuestions (internalState live))) 0)
                  && Qlt_bool (r_ponder o) 0.5);
    graphs_kept extends_refl.
Qed.

Lemma frequency_sweep_graphs (live : State) :
  keeps_graphs live (frequency_sweep live).
Proof.
  unfold frequency_sweep, keeps_graphs. component_stores.
  split; [| apply extends_refl]. intros H.
  split; [now apply sweep_frequencies_keys | apply extends_refl].
Qed.

Lemma schema_step_graphs (live : State) : keeps_graphs live (schema_step live).
Proof.
  unfold keeps_graphs. split.
  - intros H.
    pose proof (schema_loop_invariant (keys (conceptFrequencyMap live))
                  (conceptFrequencyMap live) (conceptGraph live)
                  (keys_of_well_formed _ H) H) as [_ Hf].
    pose proof (schema_loop_extends (keys (conceptFrequencyMap live))
                  (conceptFrequencyMap live) (conceptGraph live)
                  (keys_of_well_formed _ H)) as He.
    unfold schema_step, schema_check.
    destruct (sc_formed (schema_loop (keys (conceptFrequencyMap live))
                           (conceptFrequencyMap live) (conceptGraph live)));
      component_stores; split; assumption.
  - unfold schema_step.
    destruct (sc_formed (schema_check (conceptFrequencyMap live)
                           (conceptGraph live)));
      component_stores; apply extends_refl.
Qed.

Lemma self_inspection_graphs (o : Oracle) (snap live : State) :
  keeps_graphs live (final (self_inspection_branch o snap live)).
Proof.
  unfold self_inspection_branch.
  destruct (callLLM (host o) (llm_meta o)) as [[reflection err] |];
    graphs_kept extends_refl.
Qed.

Lemma goal_branch_graphs (o : Oracle) (current : Goal) (live : State) :
  keeps_graphs live (final (goal_branch o current live)).
Proof.
  unfold goal_branch.
  destruct (callLLM (host o) (llm_goal o)) as [[goalThought err] |];
    graphs_kept extends_refl.
Qed.

Lemma hebbian_on_concepts_graphs (t : string) (out : Outcome) :
  keeps_graphs (final out) (final (hebbian_on_concepts t out)).
Proof.
  unfold hebbian_on_concepts.
  destruct (hebbian_update t (conceptGraph (final out))) as [g |] eqn:E;
    [| graphs_kept extends_refl].
  unfold keeps_graphs. component_stores.
  split; [| apply extends_refl]. intros H. split; [assumption |].
  unfold hebbian_update in E.
  destruct (1 <? List.length (content_words t)).
  - eapply link_words_extends; eassumption.
  - injection E as <-. apply extends_refl.
Qed.

Lemma hebbian_on_beliefs_graphs (t : string) (out : Outcome) :
  keeps_graphs (final out) (final (hebbian_on_beliefs t out)).
Proof.
  unfold hebbian_on_beliefs.
  destruct (hebbian_update t (beliefGraph (final out))) as [g |] eqn:E;
    [| graphs_kept extends_refl].
  unfold keeps_graphs. component_stores.
  split; [intros H; split; [assumption | apply extends_refl] |].
  unfold hebbian_update in E.
  destruct (1 <? List.length (content_words t)).
  - eapply link_words_extends; eassumption.
  - injection E as <-. apply extends_refl.
Qed.

Lemma topic_shift_check_graphs (o : Oracle) (snap : State) (t : string)
  (live : State) :
  keeps_graphs live (topic_shift_check o snap t live).
Proof.
  unfold topic_shift_check.
  destruct (isStuck snap || Qlt_bool 0.7 (mentalTension (internalState snap)));
    [| destruct ((topicLockCounter live <=? 0)%Z
                 || Qlt_bool (r_switch o) (topicSwitchChance (modulators snap)))];
    graphs_kept extends_refl.
Qed.

Lemma commit_thought_graphs (o : Oracle) (snap : State) (t : string)
  (live : State) :
  keeps_graphs live (final (commit_thought o snap t live)).
Proof.
  unfold commit_thought. cbv zeta. cbn [final].
  match goal with
  | |- keeps_graphs _
         (perturbation_step _ _
            (topic_shift_check _ _ _
               (final (hebbian_on_beliefs _
                         (hebbian_on_concepts _ (mkOutcome ?l1 ?ev)))))) =>
      apply (keeps_graphs_trans _ l1);
      [| apply (keeps_graphs_trans _
                  (final (hebbian_on_concepts t (mkOutcome l1 ev))));
         [apply (hebbian_on_concepts_graphs t (mkOutcome l1 ev)) |
          apply (keeps_graphs_trans _
                   (final (hebbian_on_beliefs t
                             (hebbian_on_concepts t (mkOutcome l1 ev)))));
          [apply hebbian_on_beliefs_graphs |
           apply (keeps_graphs_trans _
                    (topic_shift_check o snap t
                       (final (hebbian_on_beliefs t
                                 (hebbian_on_concepts t (mkOutcome l1 ev))))));
           [apply topic_shift_check_graphs
           | unfold perturbation_step; graphs_kept extends_refl]]]]
  end.
  graphs_kept extends_refl.
Qed.

Lemma normal_branch_graphs (o : Oracle) (snap live : State) :
  keeps_graphs live (final (normal_branch o snap live)).
Proof.
  unfold normal_branch.
  destruct (topic snap) as [topicText |]; [| apply keeps_graphs_refl].
  destruct (generateRealThought o (llm_thought_1 o)) as [[t1 e1] |];
    [| apply keeps_graphs_refl].
  destruct (negb (isThoughtTooSimilar t1 (memoryStack snap))).
  { apply (commit_thought_graphs o snap t1 (setLlmError e1 live)). }
  destruct (generateRealThought o (llm_thought_2 o)) as [[t2 e2] |];
    [| graphs_kept extends_refl].
  destruct (negb (isThoughtTooSimilar t2 (memoryStack snap))).
  { apply (commit_thought_graphs o snap t2 (setLlmError e2 live)). }
  destruct (generateRealThought o (llm_thought_3 o)) as [[t3 e3] |];
    [| graphs_kept extends_refl].
  apply (commit_thought_graphs o snap _ (setLlmError e3 live)).
Qed.

Lemma waking_cycle_graphs (o : Oracle) (snap live : State) :
  keeps_graphs live (final (waking_cycle o snap live)).
Proof.
  unfold waking_cycle. rewrite !final_log_when.
  set (live3 := when (schema_due snap) schema_step
                  (frequency_sweep
                     (when (subconscious_due snap) (subconscious o) live))).
  assert (H3 : keeps_graphs live live3).
  { subst live3. unfold when.
    apply (keeps_graphs_trans _
             (if subconscious_due snap then subconscious o live else live)).
    - destruct (subconscious_due snap);
        [apply subconscious_graphs | apply keeps_graphs_refl].
    - apply (keeps_graphs_trans _
               (frequency_sweep
                  (if subconscious_due snap then subconscious o live else live))).
      + apply frequency_sweep_graphs.
      + destruct (schema_due snap);
          [apply schema_step_graphs | apply keeps_graphs_refl]. }
  destruct (inspection_due snap).
  { eapply keeps_graphs_trans; [exact H3 | apply self_inspection_graphs]. }
  assert (H4 : keeps_graphs live
                 (setInternalState (set_goals (sorted_goals snap)) live3)).
  { eapply keeps_graphs_trans; [exact H3 | graphs_kept extends_refl]. }
  destruct (currentGoal snap) as [current |].
  - destruct (Qlt_bool (r_goal o) 0.25).
    + eapply keeps_graphs_trans; [exact H4 | apply goal_branch_graphs].
    + eapply keeps_graphs_trans; [exact H4 | apply normal_branch_graphs].
  - eapply keeps_graphs_trans; [exact H3 | apply normal_branch_graphs].
Qed.

Lemma engine_step_graphs (e : EngineStep) (st : State) :
  keeps_graphs st (engine_step e st).
Proof.
  destruct e as [o | h f at_time |]; simpl.
  - unfold cycle. rewrite final_log_when.
    set (live2 := setInternalState (select_sub_agent o st)
                    (external_stimulus o
                       (setCognitiveMaturity
                          (fun prev => Qmin 1 (prev + 0.001)%Q) st))).
    assert (H2 : keeps_graphs st live2).
    { subst live2.
      apply (keeps_graphs_trans _
               (setCognitiveMaturity (fun prev => Qmin 1 (prev + 0.001)%Q) st));
        [graphs_kept extends_refl |].
      eapply keeps_graphs_trans; [apply (external_stimulus_graphs o) |].
      graphs_kept extends_refl. }
    eapply keeps_graphs_trans; [exact H2 |].
    destruct (dream_due o st);
      [apply dream_branch_graphs | apply waking_cycle_graphs].
  - unfold intuition_resolves.
    destruct (callLLM h f) as [[intuition err] |]; graphs_kept extends_refl.
  - unfold dream_revert. graphs_kept extends_refl.
Qed.

(** X30. The engine never forgets a concept or a link: along every run the
    Belief Graph keeps every concept and every link it had, and so does
    the Concept Graph when the keys of the frequency table have the form
    the counting gives them (two tokens joined by a plus sign), as they
    have from the empty table of a new session. *)
Theorem graphs_never_forget (steps : list EngineStep) (st : State) :
  extends (beliefGraph st) (beliefGraph (run steps st))
  /\ (keys_well_formed (conceptFrequencyMap st) ->
      extends (conceptGraph st) (conceptGraph (run steps st))).
Proof.
  assert (H : keeps_graphs st (run steps st)).
  { unfold run. revert st. induction steps as [| e steps IH]; intros st; simpl.
    - apply keeps_graphs_refl.
    - eapply keeps_graphs_trans; [apply engine_step_graphs | apply IH]. }
  destruct H as [Hc Hb]. split; [exact Hb |]. intros Hk. now apply Hc.
Qed.

Lemma graphs_never_forget_witness :
  extends (beliefGraph (default_state 0))
          (beliefGraph
             (run [RunCycle (sample_oracle 0.9 0.9 0.9 0.9
                               (generated "memory of a past self"))]
                  (default_state 0)))
  /\ (keys_well_formed (conceptFrequencyMap (default_state 0)) ->
      extends (conceptGraph (default_state 0))
              (conceptGraph
                 (run [RunCycle (sample_oracle 0.9 0.9 0.9 0.9
                                   (generated "memory of a past self"))]
                      (default_state 0)))).
Proof.
  apply (graphs_never_forget
           [RunCycle (sample_oracle 0.9 0.9 0.9 0.9
                        (generated "memory of a past self"))]
           (default_state 0)).
Defined.

